(** * GC-MOX: thermal-modulation sampling and spectral feature extraction

    A shallow embedding of the acquisition programs of the repository
    (forced_2_gas.c, the rolling hysteresis/FFT program, forced_2_fft.c,
    forced_2_gas_ratio.c, the stepped-profile program and forced_sweep_2.c)
    together with the properties their specification states about them.

    Conventions.
    - C [int], [uint16_t], [uint32_t] and [uint64_t] values are integers in
      [Z]; the wrap-around of the unsigned types is written out ([u16],
      [u32], [u64]).  The [int] counters and indices are taken as they are:
      they stay far below [INT_MAX], and signed overflow has no defined
      result in C.
    - C [double] values live in a carrier [F] with the operations the
      programs use ([DoubleOps], [MathOps]).  Properties of control flow and
      of the movement of data are proved for every carrier; the carriers at
      hand are the real numbers (for algebraic properties) and IEEE binary64
      (primitive floats, for evaluation and for exactness).
    - A C array is a list; [x[i]] is [aget x i] and [x[i] = v] is [aset x i v].
    - Everything a program obtains from outside (clock readings, driver
      return codes, measured data) is an input of its step function; what it
      prints on stdout is a list of [Line]s (values, not yet formatted). *)

From Stdlib Require Import String.
From Stdlib Require Import ZArith List Bool Lia Reals Lra.
From Stdlib Require PrimFloat Uint63 SpecFloat FloatOps FloatAxioms.
Import ListNotations.

Open Scope Z_scope.

(* ------------------------------------------------------------------ *)
(** ** Machine integers, arrays, loops *)

Definition u64 (z : Z) : Z := z mod 2 ^ 64.
Definition u32 (z : Z) : Z := z mod 2 ^ 32.
Definition u16 (z : Z) : Z := z mod 2 ^ 16.

(** [a - b] on [uint64_t]. *)
Definition u64_sub (a b : Z) : Z := u64 (a - b).
(** [a + b] on [uint64_t]. *)
Definition u64_add (a b : Z) : Z := u64 (a + b).

(** [lo, lo+1, ..., lo+n-1]. *)
Definition zrange (lo : Z) (n : nat) : list Z :=
  map (fun i => lo + Z.of_nat i) (seq 0 n).

(** [for (k = lo; k < hi; k++) s = body k s;] *)
Definition for_range {S : Type} (lo hi : Z) (body : Z -> S -> S) (s : S) : S :=
  fold_left (fun acc k => body k acc) (zrange lo (Z.to_nat (hi - lo))) s.

Section Arrays.
Context {A : Type}.
Variable dflt : A.

(** [x[i]] *)
Definition aget (x : list A) (i : Z) : A := nth (Z.to_nat i) x dflt.

Fixpoint set_nth (n : nat) (x : list A) (v : A) : list A :=
  match x, n with
  | [], _ => []
  | _ :: t, O => v :: t
  | h :: t, S m => h :: set_nth m t v
  end.

(** [x[i] = v]; the programs only write inside their arrays. *)
Definition aset (x : list A) (i : Z) (v : A) : list A :=
  set_nth (Z.to_nat i) x v.
End Arrays.

(** [for (k = lo; k < hi; k++)] with a body that may leave the enclosing
    loop ([break], [goto out]): [inl e] is the early exit. *)
Fixpoint for_each_exit {S E : Type} (ks : list Z) (body : Z -> S -> E + S) (s : S)
  : E + S :=
  match ks with
  | [] => inr s
  | k :: ks' =>
      match body k s with
      | inl e => inl e
      | inr s' => for_each_exit ks' body s'
      end
  end.

Definition for_range_exit {S E : Type} (lo hi : Z) (body : Z -> S -> E + S) (s : S)
  : E + S :=
  for_each_exit (zrange lo (Z.to_nat (hi - lo))) body s.

(** One pass through the body of an acquisition loop: either the loop goes
    on with a new state and the lines printed during the pass, or control
    leaves the loop ([break], [goto out]) with a return code. *)
Inductive Outcome (S L : Type) : Type :=
| Continue (st : S) (out : list L)
| Exit (rslt : Z).
Arguments Continue {S L} st out.
Arguments Exit {S L} rslt.

(** The loop, run over the inputs of finitely many passes: what was printed,
    and either the code the loop was left with or the state it is in. *)
Fixpoint run_loop {S I L : Type} (body : S -> I -> Outcome S L)
         (ins : list I) (st : S) : list L * (Z + S) :=
  match ins with
  | [] => ([], inr st)
  | i :: ins' =>
      match body st i with
      | Exit r => ([], inl r)
      | Continue st' out =>
          let '(o, res) := run_loop body ins' st' in (out ++ o, res)
      end
  end.

(* ------------------------------------------------------------------ *)
(** ** The arithmetic of [double] *)

(** The operations on [double] that the programs use. *)
Class DoubleOps (F : Type) : Type := {
  of_int : Z -> F;                 (* [(double)i], and integral literals *)
  dadd : F -> F -> F;
  dsub : F -> F -> F;
  dmul : F -> F -> F;
  ddiv : F -> F -> F;
  dgt : F -> F -> bool             (* [a > b] *)
}.

(** What the programs take from [<math.h>]. *)
Class MathOps (F : Type) : Type := {
  M_PI : F;
  dsqrt : F -> F;
  dcos : F -> F;
  dsin : F -> F
}.

(** Real-number semantics of the arithmetic. *)
#[export] Instance RealOps : DoubleOps R := {
  of_int := IZR;
  dadd := Rplus;
  dsub := Rminus;
  dmul := Rmult;
  ddiv := Rdiv;
  dgt := fun a b => if Rgt_dec a b then true else false
}.

#[export] Instance RealMath : MathOps R := {
  M_PI := PI;
  dsqrt := sqrt;
  dcos := cos;
  dsin := sin
}.

(** IEEE-754 binary64 semantics of the arithmetic proper (no [<math.h>]). *)
Definition float_of_int (z : Z) : PrimFloat.float :=
  if z <? 0 then PrimFloat.opp (PrimFloat.of_uint63 (Uint63.of_Z (- z)))
  else PrimFloat.of_uint63 (Uint63.of_Z z).

#[export] Instance FloatOps : DoubleOps PrimFloat.float := {
  of_int := float_of_int;
  dadd := PrimFloat.add;
  dsub := PrimFloat.sub;
  dmul := PrimFloat.mul;
  ddiv := PrimFloat.div;
  dgt := fun a b => PrimFloat.ltb b a
}.

(** [<math.h>] over binary64: [M_PI] is the double 0x1.921fb54442d18p+1,
    [sqrt] is the IEEE square root; [cos] and [sin] (libm) are parameters. *)
Module Binary64.

Definition math_ops (cos sin : PrimFloat.float -> PrimFloat.float)
  : MathOps PrimFloat.float := {|
  M_PI := PrimFloat.div (float_of_int 884279719003555) (float_of_int 281474976710656);
  dsqrt := PrimFloat.sqrt;
  dcos := cos;
  dsin := sin
|}.

(** Neither an infinity nor a NaN. *)
Definition finite (x : PrimFloat.float) : Prop :=
  match FloatOps.Prim2SF x with
  | SpecFloat.S754_zero _ | SpecFloat.S754_finite _ _ _ => True
  | _ => False
  end.

End Binary64.

(* ------------------------------------------------------------------ *)
(** ** The sensor driver, as seen by the programs *)

(** bme69x_defs.h of the vendor driver: [BME69X_OK] is [INT8_C(0)] and
    [BME69X_E_COM_FAIL] is [INT8_C(-2)]. *)
Definition BME69X_OK : Z := 0.
Definition BME69X_E_COM_FAIL : Z := -2.

(** [struct bme69x_data], the fields the programs read; [gas_resistance] is
    taken after its conversion to [double]. *)
Record bme69x_data (F : Type) : Type := mk_data {
  gas_resistance : F;
  temperature : F;
  humidity : F;
  pressure : F;
  status : Z
}.
Arguments mk_data {F}.
Arguments gas_resistance {F}.
Arguments temperature {F}.
Arguments humidity {F}.
Arguments pressure {F}.
Arguments status {F}.

(** What the driver answers during one forced measurement: the return codes
    of [bme69x_set_heatr_conf], [bme69x_set_op_mode] and [bme69x_get_data],
    and the field count and data of the latter. *)
Record Driver (F : Type) : Type := mk_driver {
  set_heatr_conf_rslt : Z;
  set_op_mode_rslt : Z;
  get_data_rslt : Z;
  n_fields : Z;
  data : bme69x_data F
}.
Arguments mk_driver {F}.
Arguments set_heatr_conf_rslt {F}.
Arguments set_op_mode_rslt {F}.
Arguments get_data_rslt {F}.
Arguments n_fields {F}.
Arguments data {F}.

(** A measurement that succeeds with one field and resistance [g]. *)
Definition reading {F : Type} `{DoubleOps F} (g : F) : Driver F :=
  mk_driver BME69X_OK BME69X_OK BME69X_OK 1
            (mk_data g (of_int 0) (of_int 0) (of_int 0) 0).

(** A measurement whose read-back reports no new field. *)
Definition no_fields {F : Type} `{DoubleOps F} : Driver F :=
  mk_driver BME69X_OK BME69X_OK BME69X_OK 0
            (mk_data (of_int 0) (of_int 0) (of_int 0) (of_int 0) 0).

(** A measurement whose bus transaction fails in [bme69x_get_data]. *)
Definition bus_error {F : Type} `{DoubleOps F} : Driver F :=
  mk_driver BME69X_OK BME69X_OK BME69X_E_COM_FAIL 0
            (mk_data (of_int 0) (of_int 0) (of_int 0) (of_int 0) 0).

(* ------------------------------------------------------------------ *)
(** ** Spectral analysis: [dft_print], [dft_mags_dc_removed], [top3_peaks] *)

Module Spectral.
Section WithDouble.
Context {F : Type} {DO : DoubleOps F} {MO : MathOps F}.

(** [mean = 0.0; for (i = 0; i < N; i++) mean += x[i]; mean /= (double)N;] *)
Definition dft_mean (x : list F) (N : Z) : F :=
  ddiv (for_range 0 N (fun i m => dadd m (aget (of_int 0) x i)) (of_int 0))
       (of_int N).

(** The accumulation of [re] and [im] over [n = 0 .. N-1] for bin [k]. *)
Definition dft_acc (x : list F) (N : Z) (mean : F) (k : Z) : F * F :=
  for_range 0 N
    (fun n acc =>
       let xn := dsub (aget (of_int 0) x n) mean in
       let ang :=
         ddiv (dmul (dmul (dmul (of_int (-2)) M_PI) (of_int k)) (of_int n))
              (of_int N) in
       (dadd (fst acc) (dmul xn (dcos ang)),
        dadd (snd acc) (dmul xn (dsin ang))))
    (of_int 0, of_int 0).

(** The body of the loop over [k], the same in both functions: the
    magnitude [sqrt(re*re + im*im)] of bin [k]. *)
Definition dft_bin (x : list F) (N : Z) (mean : F) (k : Z) : F :=
  let acc := dft_acc x N mean k in
  let re := ddiv (fst acc) (of_int N) in
  let im := ddiv (snd acc) (of_int N) in
  dsqrt (dadd (dmul re re) (dmul im im)).

(** [dft_mags_dc_removed(x, N, mags_out)]: the contents of
    [mags_out[0 .. N/2]] after the call ([for (k = 0; k <= N/2; k++)]). *)
Definition dft_mags_dc_removed (x : list F) (N : Z) : list F :=
  let mean := dft_mean x N in
  for_range 0 (Z.quot N 2 + 1)
    (fun k mags => mags ++ [dft_bin x N mean k]) [].

(** [dft_print(cycle_id, x, N, Fs)]: the magnitudes printed after
    ["FFT,cycle_id,Fs"], in order ([for (k = 1; k <= N/2; k++)]). *)
Definition dft_print_mags (x : list F) (N : Z) : list F :=
  let mean := dft_mean x N in
  for_range 1 (Z.quot N 2 + 1)
    (fun k printed => printed ++ [dft_bin x N mean k]) [].

(** The state of the scan of [top3_peaks]. *)
Record Top3 : Type := mk_top3 {
  k1 : Z; k2 : Z; k3 : Z;
  a1 : F; a2 : F; a3 : F
}.

Definition top3_init : Top3 :=
  mk_top3 1 1 1 (of_int (-1)) (of_int (-1)) (of_int (-1)).

Definition top3_step (mags : list F) (k : Z) (s : Top3) : Top3 :=
  let a := aget (of_int 0) mags k in
  if dgt a (a1 s) then mk_top3 k (k1 s) (k2 s) a (a1 s) (a2 s)
  else if dgt a (a2 s) then mk_top3 (k1 s) k (k2 s) (a1 s) a (a2 s)
  else if dgt a (a3 s) then mk_top3 (k1 s) (k2 s) k (a1 s) (a2 s) a
  else s.

(** [for (int k = 1; k < bins; k++) ...] *)
Definition top3_scan (mags : list F) (bins : Z) : Top3 :=
  for_range 1 bins (top3_step mags) top3_init.

(** Where the contents of a slot of the scan come from: either the initial
    sentinel (bin 1, magnitude -1) or a bin [1 <= k < bins] together with
    its magnitude. *)
Definition slot_ok (mags : list F) (bins : Z) (k : Z) (a : F) : Prop :=
  (k = 1 /\ a = of_int (-1)) \/ (1 <= k < bins /\ a = aget (of_int 0) mags k).

(** [(double)k * fs / (double)N] *)
Definition bin_freq (fs : F) (N : Z) (k : Z) : F :=
  ddiv (dmul (of_int k) fs) (of_int N).

(** [top3_peaks]: the values stored through [f1, m1, f2, m2, f3, m3]. *)
Definition top3_peaks (mags : list F) (bins : Z) (fs : F) (N : Z)
  : (F * F) * (F * F) * (F * F) :=
  let s := top3_scan mags bins in
  ((bin_freq fs N (k1 s), a1 s),
   (bin_freq fs N (k2 s), a2 s),
   (bin_freq fs N (k3 s), a3 s)).
End WithDouble.
End Spectral.

(* ------------------------------------------------------------------ *)
(** ** The rolling hysteresis / multi-cycle FFT program (single sensor) *)

Module HystFFT.
Section WithDouble.
Context {F : Type} {DO : DoubleOps F} {MO : MathOps F}.

Definition FFT_STRIDE : Z := 10.
Definition T_LOW_C : Z := 200.
Definition T_HIGH_C : Z := 320.
Definition HALF_MS : Z := 1000.
Definition SUB_MS : Z := 50.
Definition S : Z := Z.quot HALF_MS SUB_MS.
Definition FFT_CYCLES : Z := 16.
Definition FFT_N : Z := S * FFT_CYCLES.
Definition WARMUP_CYCLES : Z := 2.

Inductive Line : Type :=
| FEATURE_CYCLE (cycle_id : Z) (y : list F)
| FFT (cycle_id : Z) (Fs : F) (mags : list F).

(** [sample_gas_once]: the return code and the contents of [*gas_out]. *)
Definition sample_gas_once (d : Driver F) (gas_out : F) : Z * F :=
  if negb (set_heatr_conf_rslt d =? BME69X_OK) then (set_heatr_conf_rslt d, gas_out)
  else if negb (set_op_mode_rslt d =? BME69X_OK) then (set_op_mode_rslt d, gas_out)
  else if negb (get_data_rslt d =? BME69X_OK) then (get_data_rslt d, gas_out)
  else if negb (n_fields d =? 0) then (BME69X_OK, gas_resistance (data d))
  else (BME69X_E_COM_FAIL, gas_out).

Definition dft_print (cycle_id : Z) (x : list F) (N : Z) (Fs : F) : Line :=
  FFT cycle_id Fs (Spectral.dft_print_mags x N).

(** A sample is accepted when [sample_gas_once] returns [BME69X_OK]. *)
Definition sample_ok (d : Driver F) : bool :=
  fst (sample_gas_once d (of_int 0)) =? BME69X_OK.

Record State : Type := mk_state {
  low : list F;
  high : list F;
  y_cycle : list F;
  fft_buf : list F;
  fft_pos : Z;
  fft_filled : bool;
  cycle_id : Z
}.

(** The locals of [main] before the loop. *)
Definition init : State :=
  mk_state (repeat (of_int 0) (Z.to_nat S)) (repeat (of_int 0) (Z.to_nat S))
           (repeat (of_int 0) (Z.to_nat S)) (repeat (of_int 0) (Z.to_nat FFT_N))
           0 false 0.

(** What one pass of [while (1)] obtains from outside: the clock at the
    top of the pass and the driver's answers to the [S] measurements of
    the low step and of the high step. *)
Record CycleIn : Type := mk_cycle {
  t_start : Z;
  low_drv : Z -> Driver F;
  high_drv : Z -> Driver F
}.

(** One step (low or high): [S] samples at fixed spacing; a sample that
    does not return [BME69X_OK] is a [goto out].  The state of the loop is
    the buffer filled and the deadline [next]. *)
Definition step_loop (drv : Z -> Driver F) (buf : list F) (next : Z)
  : Z + (list F * Z) :=
  for_range_exit 0 S
    (fun i s =>
       let r := sample_gas_once (drv i) (of_int 0) in
       if negb (fst r =? BME69X_OK) then inl (fst r)
       else inr (aset (fst s) i (snd r), u64_add (snd s) SUB_MS))
    (buf, next).

(** [y_cycle[i] = high[i] - low[i]] for [i < S]. *)
Definition hysteresis (lo hi y : list F) : list F :=
  for_range 0 S
    (fun i y => aset y i (dsub (aget (of_int 0) hi i) (aget (of_int 0) lo i))) y.

(** Append [y_cycle] to the rolling buffer. *)
Definition append_rolling (y : list F) (st : list F * Z * bool) : list F * Z * bool :=
  for_range 0 S
    (fun i s =>
       let '(buf, pos, filled) := s in
       let buf' := aset buf pos (aget (of_int 0) y i) in
       let pos' := Z.rem (pos + 1) FFT_N in
       let filled' := if negb filled && (pos' =? 0) then true else filled in
       (buf', pos', filled'))
    st.

(** [x[i] = fft_buf[(fft_pos + i) % FFT_N]], oldest to newest. *)
Definition snapshot (buf : list F) (pos : Z) : list F :=
  map (fun i => aget (of_int 0) buf (Z.rem (pos + i) FFT_N))
      (zrange 0 (Z.to_nat FFT_N)).

(** The condition under which the spectrum is printed. *)
Definition fft_due (cycle_id : Z) (filled : bool) : bool :=
  (cycle_id >? WARMUP_CYCLES) && filled && (cycle_id mod FFT_STRIDE =? 0).

Definition Fs : F := ddiv (of_int 1000) (of_int SUB_MS).

(** The two steps of one pass, started when the clock shows [t_start]:
    the buffers filled and the last deadline, or the code of the sample that
    failed. *)
Definition sample_steps (st : State) (c : CycleIn) : Z + (list F * list F * Z) :=
  match step_loop (low_drv c) (low st) (t_start c) with
  | inl r => inl r
  | inr (low', next) =>
      match step_loop (high_drv c) (high st) next with
      | inl r => inl r
      | inr (high', next') => inr (low', high', next')
      end
  end.

(** One pass of [while (1)] in [main]. *)
Definition main_cycle (st : State) (c : CycleIn) : Outcome State Line :=
  match sample_steps st c with
  | inl r => Exit r
  | inr (low', high', _) =>
      let cycle_id' := u32 (cycle_id st + 1) in
      let y := hysteresis low' high' (y_cycle st) in
      let feature :=
        FEATURE_CYCLE cycle_id'
                      (map (aget (of_int 0) y) (zrange 0 (Z.to_nat S))) in
      let '(buf, pos, filled) :=
        append_rolling y (fft_buf st, fft_pos st, fft_filled st) in
      let spectrum :=
        if fft_due cycle_id' filled
        then [dft_print cycle_id' (snapshot buf pos) FFT_N Fs]
        else [] in
      Continue (mk_state low' high' y buf pos filled cycle_id')
               (feature :: spectrum)
  end.

Definition main_loop : list CycleIn -> State -> list Line * (Z + State) :=
  run_loop main_cycle.

(** The cycle identifiers of the hysteresis records of an output. *)
Definition feature_ids (out : list Line) : list Z :=
  flat_map (fun l => match l with FEATURE_CYCLE id _ => [id] | FFT _ _ _ => [] end) out.
End WithDouble.
End HystFFT.

(* ------------------------------------------------------------------ *)
(** ** forced_2_gas.c: two sensors at a constant heater temperature *)

Module Forced2Gas.
Section WithDouble.
Context {F : Type} {DO : DoubleOps F}.

Definition ADDR1 : Z := 118.   (* 0x76 *)
Definition ADDR2 : Z := 119.   (* 0x77 *)
Definition SAMPLE_MS : Z := 200.
Definition WARMUP_SAMPLES : Z := 10.

Inductive Line : Type :=
| RAW (t_ms : Z) (addr : Z) (d : bme69x_data F).

(** [sample_once]: the return code; [*out_data] is the driver's data. *)
Definition sample_once (d : Driver F) : Z :=
  if negb (set_op_mode_rslt d =? BME69X_OK) then set_op_mode_rslt d
  else if negb (get_data_rslt d =? BME69X_OK) then get_data_rslt d
  else if n_fields d >? 0 then BME69X_OK else BME69X_E_COM_FAIL.

Record State : Type := mk_state {
  next : Z;          (* uint64_t *)
  sample : Z         (* int *)
}.

Record TickIn : Type := mk_tick {
  drv1 : Driver F;
  drv2 : Driver F;
  now_after : Z      (* monotonic_ms() after both measurements *)
}.

Definition init (t0 : Z) : State := mk_state t0 0.

(** One pass of [while (1)] in [main]. *)
Definition main_tick (t0 : Z) (st : State) (i : TickIn) : Outcome State Line :=
  let ok1 := sample_once (drv1 i) =? BME69X_OK in
  let ok2 := sample_once (drv2 i) =? BME69X_OK in
  let t_ms := u64_sub (now_after i) t0 in
  let sample' := sample st + 1 in
  let out :=
    if sample' >? WARMUP_SAMPLES
    then (if ok1 then [RAW t_ms ADDR1 (data (drv1 i))] else [])
         ++ (if ok2 then [RAW t_ms ADDR2 (data (drv2 i))] else [])
    else [] in
  Continue (mk_state (u64_add (next st) SAMPLE_MS) sample') out.

Definition main_loop (t0 : Z) : list TickIn -> State -> list Line * (Z + State) :=
  run_loop (main_tick t0).
End WithDouble.
End Forced2Gas.

(* ------------------------------------------------------------------ *)
(** ** forced_2_fft.c: two sensors, square wave, one spectrum per window *)

Module Forced2FFT.
Section WithDouble.
Context {F : Type} {DO : DoubleOps F} {MO : MathOps F}.

Definition ADDR1 : Z := 118.
Definition ADDR2 : Z := 119.
Definition T_LOW_C : Z := 275.
Definition T_HIGH_C : Z := 325.
Definition T_SW_MS : Z := 200.
Definition T_HALF_MS : Z := 100.
Definition TS_MS : Z := 50.
Definition FS_HZ : F := ddiv (of_int 1000) (of_int TS_MS).
Definition FFT_N : Z := 40.
Definition FFT_BINS : Z := Z.quot FFT_N 2 + 1.
Definition WARMUP_WINDOWS : Z := 2.

Inductive Line : Type :=
| FFT (t_ms : Z) (addr : Z) (Fs : F) (mags : list F)
| PEAK (t_ms : Z) (addr : Z) (peaks : (F * F) * (F * F) * (F * F)).

(** [sample_once]: the return code; [*out_data] is the driver's data. *)
Definition sample_once (d : Driver F) : Z :=
  if negb (set_heatr_conf_rslt d =? BME69X_OK) then set_heatr_conf_rslt d
  else if negb (set_op_mode_rslt d =? BME69X_OK) then set_op_mode_rslt d
  else if negb (get_data_rslt d =? BME69X_OK) then get_data_rslt d
  else if n_fields d >? 0 then BME69X_OK else BME69X_E_COM_FAIL.

Record State : Type := mk_state {
  x1 : list F;
  x2 : list F;
  idx : Z;
  window_id : Z;     (* uint32_t *)
  next_tick : Z      (* uint64_t *)
}.

Record TickIn : Type := mk_tick {
  now_ms : Z;        (* monotonic_ms() at the top of the pass *)
  drv1 : Driver F;
  drv2 : Driver F;
  now_after : Z      (* monotonic_ms() after both measurements *)
}.

Definition init (t0 : Z) : State :=
  mk_state (repeat (of_int 0) (Z.to_nat FFT_N)) (repeat (of_int 0) (Z.to_nat FFT_N))
           0 0 t0.

(** The heater set-point of the pass. *)
Definition heater_temp (t0 : Z) (i : TickIn) : Z :=
  let rel_ms := u64_sub (now_ms i) t0 in
  let phase := rel_ms mod T_SW_MS in
  if phase <? T_HALF_MS then T_LOW_C else T_HIGH_C.

(** [if (ok) x[idx] = (double)d.gas_resistance;
     else x[idx] = x[(idx > 0) ? (idx - 1) : 0];] *)
Definition store (x : list F) (idx : Z) (ok : bool) (d : Driver F) : list F :=
  if ok then aset x idx (gas_resistance (data d))
  else aset x idx (aget (of_int 0) x (if idx >? 0 then idx - 1 else 0)).

(** The lines printed for a completed window past the warm-up. *)
Definition window_lines (t_ms : Z) (x1 x2 : list F) : list Line :=
  let mags1 := Spectral.dft_mags_dc_removed x1 FFT_N in
  let mags2 := Spectral.dft_mags_dc_removed x2 FFT_N in
  [ FFT t_ms ADDR1 FS_HZ (map (aget (of_int 0) mags1) (zrange 0 (Z.to_nat FFT_BINS)));
    FFT t_ms ADDR2 FS_HZ (map (aget (of_int 0) mags2) (zrange 0 (Z.to_nat FFT_BINS)));
    PEAK t_ms ADDR1 (Spectral.top3_peaks mags1 FFT_BINS FS_HZ FFT_N);
    PEAK t_ms ADDR2 (Spectral.top3_peaks mags2 FFT_BINS FS_HZ FFT_N) ].

(** One pass of [while (1)] in [main] (with [PRINT_RAW] 0). *)
Definition main_tick (t0 : Z) (st : State) (i : TickIn) : Outcome State Line :=
  let ok1 := sample_once (drv1 i) =? BME69X_OK in
  let ok2 := sample_once (drv2 i) =? BME69X_OK in
  let t_ms := u64_sub (now_after i) t0 in
  let x1' := store (x1 st) (idx st) ok1 (drv1 i) in
  let x2' := store (x2 st) (idx st) ok2 (drv2 i) in
  let idx' := idx st + 1 in
  let next' := u64_add (next_tick st) TS_MS in
  if idx' >=? FFT_N then
    let window_id' := u32 (window_id st + 1) in
    Continue (mk_state x1' x2' 0 window_id' next')
             (if window_id' >? WARMUP_WINDOWS then window_lines t_ms x1' x2' else [])
  else
    Continue (mk_state x1' x2' idx' (window_id st) next') [].

Definition main_loop (t0 : Z) : list TickIn -> State -> list Line * (Z + State) :=
  run_loop (main_tick t0).
End WithDouble.
End Forced2FFT.

(* ------------------------------------------------------------------ *)
(** ** forced_2_gas_ratio.c: two sensors, square wave, high/low ratio *)

Module Forced2GasRatio.
Section WithDouble.
Context {F : Type} {DO : DoubleOps F}.

Definition ADDR1 : Z := 118.
Definition ADDR2 : Z := 119.
Definition T_LOW_C : Z := 150.
Definition T_HIGH_C : Z := 320.
Definition SQ_PERIOD_MS : Z := 200.
Definition HALF_MS : Z := 100.
Definition TS_MS : Z := 25.

Inductive Line : Type :=
| RATIO_HEADER
| RATIO (t_ms : Z) (addr : Z) (value : F).

(** [sample_once]: the return code ([0] or [-1]) and the contents of
    [*gas]. *)
Definition sample_once (d : Driver F) (gas : F) : Z * F :=
  if negb (set_heatr_conf_rslt d =? BME69X_OK) then (-1, gas)
  else if negb (set_op_mode_rslt d =? BME69X_OK) then (-1, gas)
  else if negb (get_data_rslt d =? BME69X_OK) || (n_fields d =? 0) then (-1, gas)
  else (0, gas_resistance (data d)).

Record State : Type := mk_state {
  low1 : F; high1 : F; low2 : F; high2 : F;
  lowc : Z; highc : Z;       (* int *)
  last_cycle : Z;            (* uint64_t *)
  next : Z                   (* uint64_t *)
}.

Record TickIn : Type := mk_tick {
  now : Z;           (* monotonic_ms() at the top of the pass *)
  drv1 : Driver F;
  drv2 : Driver F
}.

Definition init (t0 : Z) : State :=
  mk_state (of_int 0) (of_int 0) (of_int 0) (of_int 0) 0 0 0 t0.

Definition heater_at (rel : Z) : Z :=
  let phase := rel mod SQ_PERIOD_MS in
  if phase <? HALF_MS then T_LOW_C else T_HIGH_C.

(** The accumulation of one pass. *)
Definition accumulate (st : State) (heater : Z) (ok1 ok2 : bool) (g1 g2 : F)
  : State :=
  if heater =? T_LOW_C then
    mk_state (if ok1 then dadd (low1 st) g1 else low1 st) (high1 st)
             (if ok2 then dadd (low2 st) g2 else low2 st) (high2 st)
             (if ok1 then lowc st + 1 else lowc st) (highc st)
             (last_cycle st) (next st)
  else
    mk_state (low1 st) (if ok1 then dadd (high1 st) g1 else high1 st)
             (low2 st) (if ok2 then dadd (high2 st) g2 else high2 st)
             (lowc st) (if ok1 then highc st + 1 else highc st)
             (last_cycle st) (next st).

(** [(high/highc) / (low/lowc)] *)
Definition ratio_of (hi : F) (hc : Z) (lo : F) (lc : Z) : F :=
  ddiv (ddiv hi (of_int hc)) (ddiv lo (of_int lc)).

(** One pass of [while (1)] in [main]. *)
Definition main_tick (t0 : Z) (st : State) (i : TickIn) : Outcome State Line :=
  let rel := u64_sub (now i) t0 in
  let cycle := rel / SQ_PERIOD_MS in
  let heater := heater_at rel in
  let s1 := sample_once (drv1 i) (of_int 0) in
  let s2 := sample_once (drv2 i) (of_int 0) in
  let ok1 := fst s1 =? 0 in
  let ok2 := fst s2 =? 0 in
  let acc := accumulate st heater ok1 ok2 (snd s1) (snd s2) in
  let next' := u64_add (next st) TS_MS in
  if negb (cycle =? last_cycle st) then
    Continue (mk_state (of_int 0) (of_int 0) (of_int 0) (of_int 0) 0 0 cycle next')
             (if negb (lowc acc =? 0) && negb (highc acc =? 0)
              then [ RATIO rel ADDR1 (ratio_of (high1 acc) (highc acc) (low1 acc) (lowc acc));
                     RATIO rel ADDR2 (ratio_of (high2 acc) (highc acc) (low2 acc) (lowc acc)) ]
              else [])
  else
    Continue (mk_state (low1 acc) (high1 acc) (low2 acc) (high2 acc)
                       (lowc acc) (highc acc) (last_cycle st) next')
             [].

Definition main_loop (t0 : Z) : list TickIn -> State -> list Line * (Z + State) :=
  run_loop (main_tick t0).

(** The ratio as the specification words it, to be compared with what the
    program prints: the values of one channel accepted during the passes
    [ins] while the heater set-point was [heater], their arithmetic mean, and
    the quotient of the mean at the high set-point by the mean at the low
    set-point. *)
Definition accepted (t0 : Z) (chan : TickIn -> Driver F) (heater : Z)
           (ins : list TickIn) : list F :=
  flat_map
    (fun i =>
       let s := sample_once (chan i) (of_int 0) in
       if (heater_at (u64_sub (now i) t0) =? heater) && (fst s =? 0)
       then [snd s] else [])
    ins.

Definition sum_of (l : list F) : F := fold_left dadd l (of_int 0).

Definition mean_of (l : list F) : F :=
  ddiv (sum_of l) (of_int (Z.of_nat (length l))).

Definition spec_ratio (t0 : Z) (chan : TickIn -> Driver F) (ins : list TickIn) : F :=
  ddiv (mean_of (accepted t0 chan T_HIGH_C ins))
       (mean_of (accepted t0 chan T_LOW_C ins)).

(** The values printed for one channel, in order. *)
Definition ratios_of (addr : Z) (out : list Line) : list F :=
  flat_map
    (fun l => match l with
              | RATIO _ a v => if a =? addr then [v] else []
              | RATIO_HEADER => []
              end)
    out.
End WithDouble.
End Forced2GasRatio.

(* ------------------------------------------------------------------ *)
(** ** The stepped-profile program of forced_mode_fft.c (single sensor) *)

Module Profile.
Section WithDouble.
Context {F : Type} {DO : DoubleOps F}.

Definition SAMPLE_COUNT : Z := 600.
Definition WARMUP_CYCLES : Z := 2.
Definition profile : list Z := [100; 175; 250; 325; 325; 250; 175; 100].
Definition profile_len : Z := Z.of_nat (length profile).

Inductive Line : Type :=
| HEADER
| RAW (sample_count : Z) (step_temp : Z) (t_ms : Z) (d : bme69x_data F)
| FEATURE_VEC (cycle_id : Z) (diff : list F).

(** [print_feature_vector]: [diff = gas_cycle[profile_len-1-i] - gas_cycle[i]]
    for [i < profile_len / 2]. *)
Definition print_feature_vector (cycle_id : Z) (gas_cycle : list F)
           (profile_len : Z) : Line :=
  let half := Z.quot profile_len 2 in
  FEATURE_VEC cycle_id
    (for_range 0 half
       (fun i printed =>
          let up := aget (of_int 0) gas_cycle i in
          let down_flip := aget (of_int 0) gas_cycle (profile_len - 1 - i) in
          printed ++ [dsub down_flip up])
       []).

Record State : Type := mk_state {
  sample_count : Z;      (* uint16_t *)
  gas_cycle : list F;
  cycle_index : Z;
  cycle_id : Z           (* uint32_t *)
}.

Definition init : State :=
  mk_state 1 (repeat (of_int 0) (length profile)) 0 0.

Record IterIn : Type := mk_iter {
  drv : Driver F;
  millis : Z             (* millis_since_start() *)
}.

(** [profile[(sample_count - 1U) % (uint16_t)profile_len]] *)
Definition step_temp_of (sample_count : Z) : Z :=
  aget 0 profile (u32 (sample_count - 1) mod u16 profile_len).

(** One pass of [while (sample_count <= SAMPLE_COUNT)]. *)
Definition main_iter (st : State) (i : IterIn) : Outcome State Line :=
  let d := drv i in
  let step_temp := step_temp_of (sample_count st) in
  if negb (set_heatr_conf_rslt d =? BME69X_OK) then Exit (set_heatr_conf_rslt d)
  else if negb (set_op_mode_rslt d =? BME69X_OK) then Exit (set_op_mode_rslt d)
  else if negb (get_data_rslt d =? BME69X_OK) then Exit (get_data_rslt d)
  else if negb (n_fields d =? 0) then
    let raw := RAW (sample_count st) step_temp (millis i) (data d) in
    let gas_cycle' :=
      aset (gas_cycle st) (cycle_index st) (gas_resistance (data d)) in
    let cycle_index' := cycle_index st + 1 in
    let sample_count' := u16 (sample_count st + 1) in
    if cycle_index' >=? profile_len then
      let cycle_id' := u32 (cycle_id st + 1) in
      Continue (mk_state sample_count' gas_cycle' 0 cycle_id')
               (raw :: (if cycle_id' >? WARMUP_CYCLES
                        then [print_feature_vector cycle_id' gas_cycle' profile_len]
                        else []))
    else
      Continue (mk_state sample_count' gas_cycle' cycle_index' (cycle_id st)) [raw]
  else Continue st [].

(** The loop of [main] over the inputs of finitely many passes; it is left
    through its condition with the last return code, [BME69X_OK]. *)
Fixpoint main_loop (ins : list IterIn) (st : State) : list Line * (Z + State) :=
  if sample_count st <=? SAMPLE_COUNT then
    match ins with
    | [] => ([], inr st)
    | i :: ins' =>
        match main_iter st i with
        | Exit r => ([], inl r)
        | Continue st' out =>
            let '(o, res) := main_loop ins' st' in (out ++ o, res)
        end
    end
  else ([], inl BME69X_OK).

(** The cycle identifiers of the feature records of an output, in order. *)
Definition feature_ids (out : list Line) : list Z :=
  flat_map (fun l => match l with FEATURE_VEC id _ => [id] | _ => [] end) out.

(** The driver calls of a pass all return [BME69X_OK]. *)
Definition calls_ok (d : Driver F) : bool :=
  (set_heatr_conf_rslt d =? BME69X_OK) && (set_op_mode_rslt d =? BME69X_OK)
  && (get_data_rslt d =? BME69X_OK).

(** What holds of the counters between two passes. *)
Definition counters_ok (st : State) : Prop :=
  1 <= sample_count st <= SAMPLE_COUNT + 1
  /\ 0 <= cycle_index st < profile_len
  /\ 0 <= cycle_id st
  /\ sample_count st - 1 = profile_len * cycle_id st + cycle_index st.
End WithDouble.
End Profile.

(* ------------------------------------------------------------------ *)
(** ** forced_sweep_2.c: the sweep over a list of half-periods

    The loop of a segment is left through its condition on the clock, so the
    clock is part of the state here: [clock] is the time in milliseconds at
    the latest call of [monotonic_ms], which returns it as a [uint64_t]
    ([u64 clock]), and the environment says how much time passes between one
    call and the next ([dt_start], [dt_guard], [dt_rel], [dt_meas]).
    [sleep_until_ms] returns at its first clock reading that is not below
    the deadline; [dt_wake] is the time from then to the next evaluation of
    the loop condition. *)

Module ForcedSweep2.
Section WithDouble.
Context {F : Type} {DO : DoubleOps F}.

Definition ADDR1 : Z := 118.
Definition ADDR2 : Z := 119.
Definition T_LOW_C : Z := 250.
Definition T_HIGH_C : Z := 320.
Definition TS_MS : Z := 10.
Definition half_list_ms : list Z := [50; 75; 100; 125; 150; 200; 250; 300; 400; 500].
Definition CYCLES_PER_FREQ : Z := 15.
Definition WARMUP_CYCLES : Z := 3.

Inductive Line : Type :=
| HEADER
| SWEEP (half_ms : Z) (f_hz : F) (cycles : Z) (Fs : F)
| REC (t_ms : Z) (addr : Z) (heater : Z) (gas : F)
| ENDSWEEP (half_ms : Z).

(** [sample_once]: the return code and the contents of [*gas_out]. *)
Definition sample_once (d : Driver F) (gas_out : F) : Z * F :=
  if negb (set_heatr_conf_rslt d =? BME69X_OK) then (set_heatr_conf_rslt d, gas_out)
  else if negb (set_op_mode_rslt d =? BME69X_OK) then (set_op_mode_rslt d, gas_out)
  else if negb (get_data_rslt d =? BME69X_OK) then (get_data_rslt d, gas_out)
  else if n_fields d =? 0 then (BME69X_E_COM_FAIL, gas_out)
  else (BME69X_OK, gas_resistance (data d)).

(** Time that passes around the two clock readings that open a segment. *)
Record SegEnv : Type := mk_seg {
  dt_start : Z;      (* until [seg_start = monotonic_ms()] *)
  dt_guard : Z       (* from there to the first evaluation of the condition *)
}.

(** What one pass of the inner loop obtains from outside. *)
Record TickEnv : Type := mk_tick {
  dt_rel : Z;        (* from the condition to [rel = monotonic_ms() - seg_start] *)
  drv1 : Driver F;
  drv2 : Driver F;
  dt_meas : Z;       (* the two measurements, up to [t_ms = monotonic_ms() - t0] *)
  dt_wake : Z        (* from the return of [sleep_until_ms] to the condition *)
}.

Record Env : Type := mk_env {
  seg_env : nat -> SegEnv;       (* by segment *)
  tick_env : nat -> TickEnv      (* by pass, counted over the whole run *)
}.

Record State : Type := mk_state {
  clock : Z;         (* time at the latest clock reading *)
  next : Z;          (* uint64_t *)
  passes : nat       (* passes of the inner loop so far *)
}.

(** [sleep_until_ms(target)] entered at time [clock]: it returns at the
    first reading [now >= target]. *)
Definition sleep_until_ms (target : Z) (clock : Z) : Z :=
  if u64 clock >=? target then clock else clock + (target - u64 clock).

Definition period_ms (half_ms : Z) : Z := 2 * half_ms.
Definition total_cycles : Z := WARMUP_CYCLES + CYCLES_PER_FREQ.
Definition run_ms (half_ms : Z) : Z := u64 (u64 total_cycles * u64 (period_ms half_ms)).

Definition heater_at (half_ms : Z) (rel : Z) : Z :=
  let phase := rel mod u64 (period_ms half_ms) in
  if phase <? half_ms then T_LOW_C else T_HIGH_C.

(** The records printed by one pass. *)
Definition tick_lines (t_ms heater : Z) (e : TickEnv) : list Line :=
  let s1 := sample_once (drv1 e) (of_int 0) in
  let s2 := sample_once (drv2 e) (of_int 0) in
  (if fst s1 =? BME69X_OK then [REC t_ms ADDR1 heater (snd s1)] else [])
  ++ (if fst s2 =? BME69X_OK then [REC t_ms ADDR2 heater (snd s2)] else []).

(** One pass of the inner loop, entered at its condition. *)
Definition tick (E : Env) (t0 half_ms seg_start : Z) (st : State)
  : list Line * State :=
  let e := tick_env E (passes st) in
  let c_rel := clock st + dt_rel e in
  let rel := u64_sub (u64 c_rel) seg_start in
  let heater := heater_at half_ms rel in
  let c_t := c_rel + dt_meas e in
  let t_ms := u64_sub (u64 c_t) t0 in
  let next' := u64_add (next st) TS_MS in
  (tick_lines t_ms heater e,
   mk_state (sleep_until_ms next' c_t + dt_wake e) next' (S (passes st))).

(** [while (monotonic_ms() - seg_start < run_ms) { ... }], at most [fuel]
    passes: the lines printed, and the state the loop is left in if it is
    left. *)
Fixpoint segment_loop (fuel : nat) (E : Env) (t0 half_ms seg_start : Z) (st : State)
  : list Line * option State :=
  if u64_sub (u64 (clock st)) seg_start <? run_ms half_ms then
    match fuel with
    | O => ([], None)
    | S fuel' =>
        let r := tick E t0 half_ms seg_start st in
        let r' := segment_loop fuel' E t0 half_ms seg_start (snd r) in
        (fst r ++ fst r', snd r')
    end
  else ([], Some st).

Definition Fs : F := ddiv (of_int 1000) (of_int TS_MS).

Definition sweep_line (half_ms : Z) : Line :=
  SWEEP half_ms (ddiv (of_int 1000) (of_int (period_ms half_ms))) CYCLES_PER_FREQ Fs.

(** The [for] loop over the list, from entry number [i] on. *)
Fixpoint sweep (fuel : nat) (E : Env) (t0 : Z) (halves : list Z) (i : nat) (st : State)
  : list Line * option State :=
  match halves with
  | [] => ([], Some st)
  | half_ms :: rest =>
      let c_start := clock st + dt_start (seg_env E i) in
      let c_guard := c_start + dt_guard (seg_env E i) in
      let r := segment_loop fuel E t0 half_ms (u64 c_start)
                            (mk_state c_guard (next st) (passes st)) in
      match snd r with
      | None => (sweep_line half_ms :: fst r, None)
      | Some st' =>
          let r' := sweep fuel E t0 rest (S i) st' in
          (sweep_line half_ms :: fst r ++ ENDSWEEP half_ms :: fst r', snd r')
      end
  end.

(** [main], started when the clock shows [c0], over a list of half-periods. *)
Definition main_over (halves : list Z) (fuel : nat) (E : Env) (c0 : Z)
  : list Line * option State :=
  let t0 := u64 c0 in
  let r := sweep fuel E t0 halves 0 (mk_state c0 t0 0) in
  (HEADER :: fst r, snd r).

Definition main : nat -> Env -> Z -> list Line * option State :=
  main_over half_list_ms.

(** The framing of the output: its segment markers, in order. *)
Inductive Marker : Type := M_SWEEP (half_ms : Z) | M_ENDSWEEP (half_ms : Z).

Definition marker_of (l : Line) : list Marker :=
  match l with
  | SWEEP h _ _ _ => [M_SWEEP h]
  | ENDSWEEP h => [M_ENDSWEEP h]
  | _ => []
  end.

Definition markers (out : list Line) : list Marker := flat_map marker_of out.

Definition is_record (l : Line) : bool :=
  match l with REC _ _ _ _ => true | _ => false end.

(** The records of an output printed less than [limit] milliseconds after
    [t0]. *)
Definition records_before (limit : Z) (out : list Line) : list Line :=
  filter (fun l => match l with REC t _ _ _ => t <? limit | _ => false end) out.

(** An environment in which no step between two clock readings takes more
    than [J] milliseconds (and none takes negative time). *)
Definition env_bounded (E : Env) (J : Z) : Prop :=
  (forall i, 0 <= dt_start (seg_env E i) <= J /\ 0 <= dt_guard (seg_env E i) <= J)
  /\ (forall j, 0 <= dt_rel (tick_env E j) <= J
                /\ 0 <= dt_meas (tick_env E j) <= J
                /\ 0 <= dt_wake (tick_env E j) <= J).

(** An upper bound of the time a segment takes in such an environment, and
    of the time the whole sweep takes. *)
Definition segment_budget (J : Z) (half_ms : Z) : Z :=
  total_cycles * period_ms half_ms + 4 * J + TS_MS.

Definition horizon (J : Z) (halves : list Z) : Z :=
  fold_right Z.add 0 (map (segment_budget J) halves).
End WithDouble.
End ForcedSweep2.

(* ------------------------------------------------------------------ *)
(** ** Concrete inputs *)

Module Inputs.

(** A pass of the rolling hysteresis program in which all forty samples are
    accepted: 1000 ohm at the low step, 1500 ohm at the high step. *)
Definition good_cycle : HystFFT.CycleIn (F := R) :=
  HystFFT.mk_cycle 0 (fun _ => reading 1000%R) (fun _ => reading 1500%R).

(** The same pass, started when the clock shows 2007. *)
Definition late_cycle : HystFFT.CycleIn (F := R) :=
  HystFFT.mk_cycle 2007 (fun _ => reading 1000%R) (fun _ => reading 1500%R).

(** A pass whose first read-back reports no field. *)
Definition bad_cycle : HystFFT.CycleIn (F := R) :=
  HystFFT.mk_cycle 0 (fun i => if i =? 0 then no_fields else reading 1000%R)
                   (fun _ => reading 1500%R).

(** forced_2_fft: forty passes in which both sensors answer, sensor 1 with
    [100 + k] ohm at pass [k], followed by a pass (the first of the second
    window) in which the read-back of sensor 1 reports no field. *)
Definition fft_tick (k : Z) : Forced2FFT.TickIn (F := R) :=
  Forced2FFT.mk_tick (50 * k) (reading (IZR (100 + k))) (reading 7%R) (50 * k + 20).

Definition fft_failed_tick (k : Z) : Forced2FFT.TickIn (F := R) :=
  Forced2FFT.mk_tick (50 * k) no_fields (reading 7%R) (50 * k + 20).

Definition fft_wrap_run : list (Forced2FFT.TickIn (F := R)) :=
  map fft_tick (zrange 0 40) ++ [fft_failed_tick 40].

(** forced_2_gas_ratio, in binary64: nine passes 25 ms apart from [t0 = 0],
    that is one period and the pass that detects the rollover.  Sensor 1
    always answers; sensor 2 answers the same values but its read-back
    reports no field at passes 1, 2 and 3 (low phase). *)
Definition ratio_gas (k : Z) : PrimFloat.float :=
  if (25 * k) mod 200 <? 100 then of_int 100 else of_int 200.

Definition ratio_tick (k : Z) : Forced2GasRatio.TickIn (F := PrimFloat.float) :=
  Forced2GasRatio.mk_tick (25 * k) (reading (ratio_gas k))
    (if (1 <=? k) && (k <=? 3) then no_fields else reading (ratio_gas k)).

Definition ratio_run : list (Forced2GasRatio.TickIn (F := PrimFloat.float)) :=
  map ratio_tick (zrange 0 9).

(** The stepped-profile program: [n] passes with an accepted measurement. *)
Definition profile_run (n : nat) : list (Profile.IterIn (F := R)) :=
  repeat (Profile.mk_iter (reading 5000%R) 0) n.

(** A window of forced_2_fft, in binary64: forty times the largest
    resistance the driver can report as a [uint32_t]. *)
Definition flat_window : list PrimFloat.float := repeat (of_int 4294967295) 40.

(** forced_sweep_2, in binary64: an environment in which both sensors always
    answer 1000 ohm and nothing but the waiting in [sleep_until_ms] takes
    time. *)
Definition prompt_env : ForcedSweep2.Env (F := PrimFloat.float) :=
  ForcedSweep2.mk_env
    (fun _ => ForcedSweep2.mk_seg 0 0)
    (fun _ => ForcedSweep2.mk_tick 0 (reading (of_int 1000)) (reading (of_int 1000)) 0 0).

End Inputs.

(* ------------------------------------------------------------------ *)
(** ** Time: [monotonic_ms], [sleep_until_ms], [millis_since_start] *)

Module Clock.

(** [struct timespec]; [time_t] and [long] are 64-bit signed integers. *)
Record timespec : Type := mk_timespec {
  tv_sec : Z;
  tv_nsec : Z
}.

(** The nanoseconds a reading stands for, and the form in which
    [clock_gettime] delivers a reading. *)
Definition ns_of (t : timespec) : Z := tv_sec t * 1000000000 + tv_nsec t.

Definition normalized (t : timespec) : Prop :=
  0 <= tv_sec t /\ 0 <= tv_nsec t < 1000000000.

(** [clock_gettime(CLOCK_MONOTONIC, &t)], called [ns] nanoseconds after the
    origin of the clock. *)
Definition clock_gettime (ns : Z) : timespec :=
  mk_timespec (ns / 1000000000) (ns mod 1000000000).

(** [monotonic_ms], on the reading [t] it takes:
    [(uint64_t)t.tv_sec * 1000ULL + (uint64_t)t.tv_nsec / 1000000ULL]. *)
Definition monotonic_ms (t : timespec) : Z :=
  u64 (u64 (u64 (tv_sec t) * 1000) + u64 (tv_nsec t) / 1000000).

(** The request that [sleep_until_ms] hands to [nanosleep]:
    [diff = target_ms - now; ts.tv_sec = diff / 1000;
     ts.tv_nsec = (diff % 1000) * 1000000]. *)
Definition sleep_request (target_ms now : Z) : timespec :=
  let diff := u64_sub target_ms now in
  mk_timespec (diff / 1000) (u64 ((diff mod 1000) * 1000000)).

(** [sleep_until_ms(target_ms)], entered [ns] nanoseconds after the origin
    of the clock, at most [fuel] passes of its [while (1)].  [nap j ts] is
    the time from the clock reading of a pass to that of the next one when
    the [j]-th call of [nanosleep] in the run is given [ts].  The result is
    the time of the reading at which the function returns and the number of
    calls of [nanosleep] made so far. *)
Fixpoint sleep_until_ms (fuel : nat) (nap : nat -> timespec -> Z)
         (target_ms : Z) (ns : Z) (j : nat) : option (Z * nat) :=
  match fuel with
  | O => None
  | S fuel' =>
      let now := monotonic_ms (clock_gettime ns) in
      if now >=? target_ms then Some (ns, j)
      else sleep_until_ms fuel' nap target_ms
                          (ns + nap j (sleep_request target_ms now)) (S j)
  end.

(** The variant of forced_2_gas_ratio.c:
    [while (monotonic_ms() < target) nanosleep(&(struct timespec){0, 500000}, NULL);] *)
Module Polling.

Definition nap_request : timespec := mk_timespec 0 500000.

Fixpoint sleep_until_ms (fuel : nat) (nap : nat -> timespec -> Z)
         (target : Z) (ns : Z) (j : nat) : option (Z * nat) :=
  match fuel with
  | O => None
  | S fuel' =>
      if monotonic_ms (clock_gettime ns) <? target
      then sleep_until_ms fuel' nap target (ns + nap j nap_request) (S j)
      else Some (ns, j)
  end.

End Polling.

(** [millis_since_start] of the stepped-profile program; its two [static]
    variables are the state. *)
Record Statics : Type := mk_statics {
  t0 : timespec;
  initialized : bool
}.

Definition statics_init : Statics := mk_statics (mk_timespec 0 0) false.

Definition millis_since_start (s : Statics) (t : timespec) : Z * Statics :=
  if negb (initialized s) then (0, mk_statics t true)
  else
    let ms := u64 (u64 (tv_sec t - tv_sec (t0 s)) * 1000) in
    let ns := tv_nsec t - tv_nsec (t0 s) in
    let ms' := u64 (ms + u64 (Z.quot ns 1000000)) in
    (u32 ms', s).

End Clock.

(* ------------------------------------------------------------------ *)
(** ** common.c: the I2C interface of the driver on the Raspberry Pi

    The calls into the C library and the kernel are effects: a function
    returns the list of the calls it makes, in order, and takes what they
    answer as inputs. *)

Module Common.

(** bme69x_defs.h of the vendor driver: [BME69X_E_NULL_PTR] is [INT8_C(-1)],
    [BME69X_E_INVALID_LENGTH] is [INT8_C(-4)], and [BME69X_I2C_INTF] is the
    second enumerator of [enum bme69x_intf]. *)
Definition BME69X_E_NULL_PTR : Z := -1.
Definition BME69X_E_INVALID_LENGTH : Z := -4.
Definition BME69X_I2C_INTF : Z := 1.

Definition I2C_DEV_PATH : string := "/dev/i2c-1".

(** [struct pi_i2c_ctx] *)
Record pi_i2c_ctx : Type := mk_ctx {
  fd : Z;            (* int *)
  addr : Z           (* uint8_t *)
}.

Inductive Sys : Type :=
| SYS_open (path : string)                  (* open(path, O_RDWR) *)
| SYS_malloc                                (* malloc(sizeof(struct pi_i2c_ctx)) *)
| SYS_free (ctx : pi_i2c_ctx)               (* free of the block that holds [ctx] *)
| SYS_ioctl_I2C_SLAVE (fd : Z) (addr : Z)   (* ioctl(fd, I2C_SLAVE, addr) *)
| SYS_write (fd : Z) (bytes : list Z)       (* write(fd, bytes, length bytes) *)
| SYS_read (fd : Z) (len : Z)               (* read(fd, reg_data, len) *)
| SYS_perror (s : string)
| SYS_usleep (period : Z)
| SYS_fprintf_stderr (api_name : string) (rslt : Z).   (* "%s failed: %d\n" *)

(** What the kernel answers during one register transfer. *)
Record Bus : Type := mk_bus {
  ioctl_rslt : Z;
  write_rslt : Z;
  read_rslt : Z
}.

Definition delay_us_pi (period : Z) : list Sys := [SYS_usleep period].

(** [select_addr]: the value returned and the calls made. *)
Definition select_addr (ctx : option pi_i2c_ctx) (b : Bus) : Z * list Sys :=
  match ctx with
  | None => (-1, [])
  | Some c =>
      if fd c <? 0 then (-1, [])
      else if ioctl_rslt b <? 0
           then (-1, [SYS_ioctl_I2C_SLAVE (fd c) (addr c); SYS_perror "ioctl(I2C_SLAVE)"])
           else (0, [SYS_ioctl_I2C_SLAVE (fd c) (addr c)])
  end.

(** [i2c_read_pi]; [reg_data] says whether the pointer is non-null (the
    bytes that [read] stores through it are not part of the model), [len]
    is a [uint32_t]. *)
Definition i2c_read_pi (reg_addr : Z) (reg_data : bool) (len : Z)
           (intf_ptr : option pi_i2c_ctx) (b : Bus) : Z * list Sys :=
  match intf_ptr with
  | None => (BME69X_E_NULL_PTR, [])
  | Some ctx =>
      if (fd ctx <? 0) || negb reg_data || (len =? 0) then (BME69X_E_NULL_PTR, [])
      else
        let sel := select_addr intf_ptr b in
        if fst sel <? 0 then (BME69X_E_COM_FAIL, snd sel)
        else
          let w := SYS_write (fd ctx) [reg_addr] in
          if negb (write_rslt b =? 1) then (BME69X_E_COM_FAIL, snd sel ++ [w])
          else
            let r := SYS_read (fd ctx) len in
            if negb (read_rslt b =? len) then (BME69X_E_COM_FAIL, snd sel ++ [w; r])
            else (BME69X_OK, snd sel ++ [w; r])
  end.

(** [memcpy(&buf[off], src, n)] *)
Definition memcpy (buf : list Z) (off : Z) (src : list Z) (n : Z) : list Z :=
  for_range 0 n (fun i b => aset b (off + i) (aget 0 src i)) buf.

(** [i2c_write_pi]; [reg_data] is the array behind the pointer ([None] for
    a null pointer), [junk] is what the 257 bytes of [buf] hold when the
    function is entered. *)
Definition i2c_write_pi (reg_addr : Z) (reg_data : option (list Z)) (len : Z)
           (intf_ptr : option pi_i2c_ctx) (junk : list Z) (b : Bus) : Z * list Sys :=
  match intf_ptr with
  | None => (BME69X_E_NULL_PTR, [])
  | Some ctx =>
      if fd ctx <? 0 then (BME69X_E_NULL_PTR, [])
      else
        let sel := select_addr intf_ptr b in
        if fst sel <? 0 then (BME69X_E_COM_FAIL, snd sel)
        else if len >? 256 then (BME69X_E_INVALID_LENGTH, snd sel)
        else
          let buf0 := aset junk 0 reg_addr in
          let buf :=
            match reg_data with
            | Some d => if negb (len =? 0) then memcpy buf0 1 d len else buf0
            | None => buf0
            end in
          let w := SYS_write (fd ctx) (firstn (Z.to_nat (1 + len)) buf) in
          if negb (write_rslt b =? 1 + len) then (BME69X_E_COM_FAIL, snd sel ++ [w])
          else (BME69X_OK, snd sel ++ [w])
  end.

(** The function pointers stored in [struct bme69x_dev]. *)
Inductive Callback : Type :=
| CB_unset | CB_i2c_read_pi | CB_i2c_write_pi | CB_delay_us_pi.

(** [struct bme69x_dev], the fields that common.c fills. *)
Record bme69x_dev : Type := mk_dev {
  intf : Z;
  read : Callback;
  write : Callback;
  delay_us : Callback;
  intf_ptr : option pi_i2c_ctx;
  amb_temp : Z
}.

(** What [bme69x_interface_init] obtains from outside: the value returned
    by [open], asked for only if the bus is not open yet, and whether
    [malloc] delivers a block. *)
Record InitEnv : Type := mk_init_env {
  open_rslt : Z;
  malloc_ok : bool
}.

Record InitResult : Type := mk_init_result {
  init_rslt : Z;
  init_shared_fd : Z;                (* the static [shared_fd] after the call *)
  init_dev : option bme69x_dev;      (* [*bme] after the call *)
  init_calls : list Sys
}.

(** [bme69x_interface_init(bme, intf, i2c_addr)], entered with the static
    [shared_fd] as given; [bme] is [None] for a null pointer. *)
Definition bme69x_interface_init (shared_fd : Z) (bme : option bme69x_dev)
           (intf i2c_addr : Z) (e : InitEnv) : InitResult :=
  match bme with
  | None => mk_init_result BME69X_E_NULL_PTR shared_fd None []
  | Some dev =>
      if negb (intf =? BME69X_I2C_INTF)
      then mk_init_result BME69X_E_INVALID_LENGTH shared_fd bme []
      else
        let opened := shared_fd <? 0 in
        let shared_fd' := if opened then open_rslt e else shared_fd in
        let calls := if opened then [SYS_open I2C_DEV_PATH] else [] in
        if opened && (shared_fd' <? 0)
        then mk_init_result BME69X_E_COM_FAIL shared_fd' bme
                            (calls ++ [SYS_perror "open(/dev/i2c-1)"])
        else if negb (malloc_ok e)
        then mk_init_result BME69X_E_COM_FAIL shared_fd' bme (calls ++ [SYS_malloc])
        else
          mk_init_result BME69X_OK shared_fd'
            (Some (mk_dev BME69X_I2C_INTF CB_i2c_read_pi CB_i2c_write_pi
                          CB_delay_us_pi (Some (mk_ctx shared_fd' (i2c_addr mod 2 ^ 8)))
                          25))
            (calls ++ [SYS_malloc])
  end.

(** [bme69x_interface_deinit(bme)]: [*bme] after the call and the calls
    made. *)
Definition bme69x_interface_deinit (bme : option bme69x_dev)
  : option bme69x_dev * list Sys :=
  match bme with
  | None => (None, [])
  | Some dev =>
      match intf_ptr dev with
      | Some ctx =>
          (Some (mk_dev (intf dev) (read dev) (write dev) (delay_us dev) None
                        (amb_temp dev)),
           [SYS_free ctx])
      | None => (bme, [])
      end
  end.

(** [bme69x_check_rslt(api_name, rslt)] *)
Definition bme69x_check_rslt (api_name : string) (rslt : Z) : list Sys :=
  if negb (rslt =? BME69X_OK) then [SYS_fprintf_stderr api_name rslt] else [].

End Common.

(* ------------------------------------------------------------------ *)
(** ** forced_2_gas.c: [init_sensor] and the start of [main] *)

Module Forced2GasStartup.
Section WithDouble.
Context {F : Type} {DO : DoubleOps F}.

(** The return codes of the four driver calls of [init_sensor]. *)
Record InitAnswers : Type := mk_answers {
  interface_init_rslt : Z;
  init_rslt : Z;
  set_conf_rslt : Z;
  set_heatr_conf_rslt : Z
}.

(** The calls made to the driver and to its interface, by device address. *)
Inductive Call : Type :=
| CALL_interface_init (addr : Z)
| CALL_init (addr : Z)
| CALL_set_conf (addr : Z)
| CALL_set_heatr_conf (addr : Z)
| CALL_interface_deinit (addr : Z).

Record Effects : Type := mk_effects {
  rslt : Z;
  calls : list Call;
  stderr : list Common.Sys
}.

Definition init_sensor (addr : Z) (a : InitAnswers) : Effects :=
  let r1 := interface_init_rslt a in
  let c1 := [CALL_interface_init addr] in
  let e1 := Common.bme69x_check_rslt "bme69x_interface_init" r1 in
  if negb (r1 =? BME69X_OK) then mk_effects r1 c1 e1
  else
    let r2 := init_rslt a in
    let c2 := c1 ++ [CALL_init addr] in
    let e2 := e1 ++ Common.bme69x_check_rslt "bme69x_init" r2 in
    if negb (r2 =? BME69X_OK) then mk_effects r2 c2 e2
    else
      let r3 := set_conf_rslt a in
      let c3 := c2 ++ [CALL_set_conf addr] in
      let e3 := e2 ++ Common.bme69x_check_rslt "bme69x_set_conf" r3 in
      if negb (r3 =? BME69X_OK) then mk_effects r3 c3 e3
      else
        let r4 := set_heatr_conf_rslt a in
        mk_effects r4 (c3 ++ [CALL_set_heatr_conf addr])
                   (e3 ++ Common.bme69x_check_rslt "bme69x_set_heatr_conf" r4).

(** The four calls all return [BME69X_OK]. *)
Definition all_ok (a : InitAnswers) : bool :=
  (interface_init_rslt a =? BME69X_OK) && (init_rslt a =? BME69X_OK)
  && (set_conf_rslt a =? BME69X_OK) && (set_heatr_conf_rslt a =? BME69X_OK).

(** The device a call is made on. *)
Definition addr_of (c : Call) : Z :=
  match c with
  | CALL_interface_init a | CALL_init a | CALL_set_conf a
  | CALL_set_heatr_conf a | CALL_interface_deinit a => a
  end.

(** What [main] prints on stdout: the header of the table, then the lines of
    the loop. *)
Inductive Stdout : Type :=
| CSV_HEADER
| LINE (l : Forced2Gas.Line (F := F)).

Record Run : Type := mk_run {
  exit_code : option Z;      (* [None]: the loop is running *)
  run_calls : list Call;
  run_stderr : list Common.Sys;
  stdout : list Stdout
}.

(** [main], over the inputs of finitely many passes of its loop; [t0] is
    the clock reading taken once both sensors are initialised. *)
Definition main (a1 a2 : InitAnswers) (t0 : Z) (ins : list (Forced2Gas.TickIn (F := F)))
  : Run :=
  let i1 := init_sensor Forced2Gas.ADDR1 a1 in
  if negb (rslt i1 =? BME69X_OK)
  then mk_run (Some (rslt i1))
              (calls i1 ++ [CALL_interface_deinit Forced2Gas.ADDR1])
              (stderr i1) []
  else
    let i2 := init_sensor Forced2Gas.ADDR2 a2 in
    if negb (rslt i2 =? BME69X_OK)
    then mk_run (Some (rslt i2))
                (calls i1 ++ calls i2
                 ++ [CALL_interface_deinit Forced2Gas.ADDR1;
                     CALL_interface_deinit Forced2Gas.ADDR2])
                (stderr i1 ++ stderr i2) []
    else
      mk_run None (calls i1 ++ calls i2) (stderr i1 ++ stderr i2)
             (CSV_HEADER
              :: map LINE (fst (Forced2Gas.main_loop t0 ins (Forced2Gas.init t0)))).

(** The records of a pass of the loop once the warm-up is over. *)
Definition tick_records (t0 : Z) (i : Forced2Gas.TickIn (F := F))
  : list (Forced2Gas.Line (F := F)) :=
  (if Forced2Gas.sample_once (Forced2Gas.drv1 i) =? BME69X_OK
   then [Forced2Gas.RAW (u64_sub (Forced2Gas.now_after i) t0) Forced2Gas.ADDR1
                        (data (Forced2Gas.drv1 i))]
   else [])
  ++ (if Forced2Gas.sample_once (Forced2Gas.drv2 i) =? BME69X_OK
      then [Forced2Gas.RAW (u64_sub (Forced2Gas.now_after i) t0) Forced2Gas.ADDR2
                           (data (Forced2Gas.drv2 i))]
      else []).
End WithDouble.
End Forced2GasStartup.

(* ------------------------------------------------------------------ *)
(** ** Vocabulary for the properties of the rolling hysteresis program *)

Module HystFFTSpec.
Section WithDouble.
Context {F : Type} {DO : DoubleOps F} {MO : MathOps F}.

(** All the samples of a pass are accepted. *)
Definition cycle_ok (c : HystFFT.CycleIn (F := F)) : Prop :=
  forall i, 0 <= i < HystFFT.S ->
            HystFFT.sample_ok (HystFFT.low_drv c i) = true
            /\ HystFFT.sample_ok (HystFFT.high_drv c i) = true.

(** The resistances measured during a pass: high step minus low step, by
    subsample. *)
Definition cycle_feature (c : HystFFT.CycleIn (F := F)) : list F :=
  map (fun i => dsub (gas_resistance (data (HystFFT.high_drv c i)))
                     (gas_resistance (data (HystFFT.low_drv c i))))
      (zrange 0 (Z.to_nat HystFFT.S)).

(** The arrays of [main] have their declared sizes and [fft_pos] is an
    index of [fft_buf]. *)
Definition buffers_ok (st : HystFFT.State (F := F)) : Prop :=
  Z.of_nat (length (HystFFT.low st)) = HystFFT.S
  /\ Z.of_nat (length (HystFFT.high st)) = HystFFT.S
  /\ Z.of_nat (length (HystFFT.y_cycle st)) = HystFFT.S
  /\ Z.of_nat (length (HystFFT.fft_buf st)) = HystFFT.FFT_N
  /\ 0 <= HystFFT.fft_pos st < HystFFT.FFT_N.

(** The rolling buffer read from the oldest sample to the newest, as it is
    handed to [dft_print]. *)
Definition window (st : HystFFT.State (F := F)) : list F :=
  HystFFT.snapshot (HystFFT.fft_buf st) (HystFFT.fft_pos st).

(** The cycle identifiers of the spectrum records of an output. *)
Definition spectrum_ids (out : list (HystFFT.Line (F := F))) : list Z :=
  flat_map (fun l => match l with
                     | HystFFT.FFT id _ _ => [id]
                     | HystFFT.FEATURE_CYCLE _ _ => []
                     end) out.

(** The state and the output after the passes [hist], all complete, of a
    run started in the initial state. *)
Definition after (hist : list (HystFFT.CycleIn (F := F))) (st : HystFFT.State (F := F))
           (out : list (HystFFT.Line (F := F))) : Prop :=
  let n := Z.of_nat (length hist) in
  buffers_ok st
  /\ HystFFT.fft_pos st = (HystFFT.S * n) mod HystFFT.FFT_N
  /\ HystFFT.fft_filled st = (HystFFT.FFT_CYCLES <=? n)
  /\ window st
     = skipn (Z.to_nat HystFFT.S * length hist)
             (repeat (of_int 0) (Z.to_nat HystFFT.FFT_N) ++ flat_map cycle_feature hist)
  /\ (n < 2 ^ 32 ->
      HystFFT.cycle_id st = n
      /\ HystFFT.feature_ids out = zrange 1 (length hist)
      /\ spectrum_ids out
         = filter (fun id => (20 <=? id) && (id mod HystFFT.FFT_STRIDE =? 0))
                  (zrange 1 (length hist))).
End WithDouble.
End HystFFTSpec.

(* ------------------------------------------------------------------ *)
(** ** Vocabulary for the properties of the stepped-profile program *)

Module ProfileSpec.
Section WithDouble.
Context {F : Type} {DO : DoubleOps F}.

(** A pass whose measurement is stored: the driver calls succeed and the
    read-back delivers a field. *)
Definition accepted (i : Profile.IterIn (F := F)) : bool :=
  Profile.calls_ok (Profile.drv i) && negb (n_fields (Profile.drv i) =? 0).

(** The sample number and the step temperature of the raw records of an
    output, in order. *)
Definition raw_index (out : list (Profile.Line (F := F))) : list (Z * Z) :=
  flat_map (fun l => match l with
                     | Profile.RAW n temp _ _ => [(n, temp)]
                     | _ => []
                     end) out.

(** The sample number at which the loop stands after [k] more accepted
    samples, and the cycles completed by then. *)
Definition sample_after (s : Z) (k : nat) : Z :=
  Z.min (s + Z.of_nat k) (Profile.SAMPLE_COUNT + 1).

Definition cycles_at (s : Z) : Z := (s - 1) / Profile.profile_len.
End WithDouble.
End ProfileSpec.

(* ------------------------------------------------------------------ *)
(** ** Vocabulary for the properties of the spectral analysis *)

Module SpectralSpec.

(** The argument of [cos] and [sin] for bin [k] and sample [n] of a window
    of [N] samples: [-2.0 * M_PI * (double)k * (double)n / (double)N]. *)
Definition angle {F : Type} {DO : DoubleOps F} {MO : MathOps F} (N k n : Z) : F :=
  ddiv (dmul (dmul (dmul (of_int (-2)) M_PI) (of_int k)) (of_int n)) (of_int N).

(** What the scan of [top3_peaks] has established once the bins below [j]
    are visited: the three magnitudes are in order, and every bin visited
    either is held in the first or in the second slot or does not exceed
    the third magnitude. *)
Definition scanned (mags : list R) (j : Z) (s : Spectral.Top3 (F := R)) : Prop :=
  (Spectral.a3 s <= Spectral.a2 s)%R /\ (Spectral.a2 s <= Spectral.a1 s)%R
  /\ forall k, 1 <= k < j ->
               (aget 0%R mags k <= Spectral.a3 s)%R
               \/ (k = Spectral.k1 s /\ Spectral.a1 s = aget 0%R mags k)
               \/ (k = Spectral.k2 s /\ Spectral.a2 s = aget 0%R mags k).

End SpectralSpec.

(* ================================================================== *)
(** * Properties *)

(* ------------------------------------------------------------------ *)
(** ** Machine integers, arrays, loops *)

Lemma u64_small : forall z, 0 <= z < 2 ^ 64 -> u64 z = z.
Proof. intros z Hz; unfold u64; apply Z.mod_small; exact Hz. Qed.

Lemma u64_add_u64_l : forall a b, u64_add (u64 a) b = u64 (a + b).
Proof. intros a b; unfold u64_add, u64; now rewrite Zplus_mod_idemp_l. Qed.

Section ArrayFacts.
Context {A : Type}.
Variable dflt : A.

Lemma set_nth_length : forall n (x : list A) v, length (set_nth n x v) = length x.
Proof.
  induction n as [|n IH]; intros [|h t] v; simpl; auto.
Qed.

Lemma nth_set_nth_same : forall n (x : list A) v,
    (n < length x)%nat -> nth n (set_nth n x v) dflt = v.
Proof.
  induction n as [|n IH]; intros [|h t] v Hn; simpl in *; try lia; auto.
  apply IH; lia.
Qed.

Lemma nth_set_nth_other : forall n m (x : list A) v,
    n <> m -> nth m (set_nth n x v) dflt = nth m x dflt.
Proof.
  induction n as [|n IH]; intros [|m] [|h t] v Hnm; simpl; auto; congruence.
Qed.

Lemma aset_length : forall (x : list A) i v, length (aset x i v) = length x.
Proof. intros; apply set_nth_length. Qed.

Lemma aget_aset_same : forall (x : list A) i v,
    0 <= i < Z.of_nat (length x) -> aget dflt (aset x i v) i = v.
Proof.
  intros x i v Hi; unfold aget, aset; apply nth_set_nth_same; lia.
Qed.

Lemma aget_aset_other : forall (x : list A) i j v,
    0 <= i -> 0 <= j -> i <> j -> aget dflt (aset x i v) j = aget dflt x j.
Proof.
  intros x i j v Hi Hj Hij; unfold aget, aset; apply nth_set_nth_other; lia.
Qed.

Lemma aget_cons_pos : forall (h h' : A) t k,
    1 <= k -> aget dflt (h :: t) k = aget dflt (h' :: t) k.
Proof.
  intros h h' t k Hk; unfold aget.
  destruct (Z.to_nat k) as [|n] eqn:E; [lia|reflexivity].
Qed.
End ArrayFacts.

Lemma zrange_length : forall lo n, length (zrange lo n) = n.
Proof. intros; unfold zrange; now rewrite length_map, length_seq. Qed.

Lemma zrange_S : forall lo n, zrange lo (S n) = zrange lo n ++ [lo + Z.of_nat n].
Proof.
  intros; unfold zrange; rewrite seq_S, map_app; reflexivity.
Qed.

Lemma zrange_In : forall lo n k, In k (zrange lo n) <-> lo <= k < lo + Z.of_nat n.
Proof.
  intros lo n k; unfold zrange; rewrite in_map_iff; split.
  - intros [i [<- Hi]]; apply in_seq in Hi; lia.
  - intros Hk; exists (Z.to_nat (k - lo)); split; [lia|apply in_seq; lia].
Qed.

Lemma zrange_nth : forall lo n i d,
    (i < n)%nat -> nth i (zrange lo n) d = lo + Z.of_nat i.
Proof.
  intros lo n i d Hi; unfold zrange.
  rewrite nth_indep with (d' := lo + Z.of_nat 0)
    by (rewrite length_map, length_seq; exact Hi).
  pose proof (map_nth (fun j => lo + Z.of_nat j) (seq 0 n) 0%nat i) as H.
  cbv beta in H; rewrite H, seq_nth by exact Hi; reflexivity.
Qed.

(** Loop invariant rule for [for_range]. *)
Lemma for_range_ind : forall (S : Type) (P : S -> Prop) lo hi (body : Z -> S -> S) s,
    P s ->
    (forall k acc, lo <= k < hi -> P acc -> P (body k acc)) ->
    P (for_range lo hi body s).
Proof.
  intros S P lo hi body s Hs Hstep; unfold for_range.
  assert (Hin : forall k, In k (zrange lo (Z.to_nat (hi - lo))) -> lo <= k < hi)
    by (intros k Hk; apply zrange_In in Hk; lia).
  revert s Hs Hin; generalize (zrange lo (Z.to_nat (hi - lo))) as l.
  induction l as [|k l IH]; intros s Hs Hin; simpl; auto.
  apply IH; [apply Hstep; [apply Hin; now left|exact Hs]|].
  intros j Hj; apply Hin; now right.
Qed.

(** Two bodies that agree on the range compute the same. *)
Lemma for_range_ext : forall (S : Type) lo hi (f g : Z -> S -> S) s,
    (forall k acc, lo <= k < hi -> f k acc = g k acc) ->
    for_range lo hi f s = for_range lo hi g s.
Proof.
  intros S lo hi f g s Hfg; unfold for_range.
  assert (Hin : forall k, In k (zrange lo (Z.to_nat (hi - lo))) -> lo <= k < hi)
    by (intros k Hk; apply zrange_In in Hk; lia).
  revert s Hin; generalize (zrange lo (Z.to_nat (hi - lo))) as l.
  induction l as [|k l IH]; intros s Hin; simpl; auto.
  rewrite Hfg by (apply Hin; now left).
  apply IH; intros j Hj; apply Hin; now right.
Qed.

(** The last pass of a loop. *)
Lemma for_range_last : forall (S : Type) lo hi (body : Z -> S -> S) s,
    lo <= hi ->
    for_range lo (hi + 1) body s = body hi (for_range lo hi body s).
Proof.
  intros S lo hi body s Hle; unfold for_range.
  replace (Z.to_nat (hi + 1 - lo)) with (Datatypes.S (Z.to_nat (hi - lo))) by lia.
  rewrite zrange_S, fold_left_app; simpl.
  replace (lo + Z.of_nat (Z.to_nat (hi - lo))) with hi by lia; reflexivity.
Qed.

Lemma for_range_empty : forall (S : Type) lo hi (body : Z -> S -> S) s,
    hi <= lo -> for_range lo hi body s = s.
Proof.
  intros S lo hi body s Hle; unfold for_range.
  replace (Z.to_nat (hi - lo)) with 0%nat by lia; reflexivity.
Qed.

(** A loop that appends one value per pass builds the list of these values. *)
Lemma for_range_collect : forall (A : Type) lo hi (f : Z -> A) (l : list A),
    for_range lo hi (fun k acc => acc ++ [f k]) l
    = l ++ map f (zrange lo (Z.to_nat (hi - lo))).
Proof.
  intros A lo hi f l; unfold for_range.
  revert l; generalize (zrange lo (Z.to_nat (hi - lo))) as ks.
  induction ks as [|k ks IH]; intros l; simpl.
  - now rewrite app_nil_r.
  - rewrite IH, <- app_assoc; reflexivity.
Qed.

(* ------------------------------------------------------------------ *)
(** ** Spectral analysis *)

Module SpectralFacts.
Import Spectral.

Section AnyDouble.
Context {F : Type} {DO : DoubleOps F} {MO : MathOps F}.

Lemma dft_mags_dc_removed_eq : forall (x : list F) N,
    dft_mags_dc_removed x N
    = map (dft_bin x N (dft_mean x N)) (zrange 0 (Z.to_nat (Z.quot N 2 + 1))).
Proof.
  intros x N; unfold dft_mags_dc_removed.
  rewrite for_range_collect; simpl; now rewrite Z.sub_0_r.
Qed.

Lemma dft_print_mags_eq : forall (x : list F) N,
    dft_print_mags x N
    = map (dft_bin x N (dft_mean x N)) (zrange 1 (Z.to_nat (Z.quot N 2))).
Proof.
  intros x N; unfold dft_print_mags.
  rewrite for_range_collect; simpl.
  now replace (Z.quot N 2 + 1 - 1) with (Z.quot N 2) by lia.
Qed.

Lemma dft_mags_dc_removed_length : forall (x : list F) N,
    length (dft_mags_dc_removed x N) = Z.to_nat (Z.quot N 2 + 1).
Proof.
  intros; now rewrite dft_mags_dc_removed_eq, length_map, zrange_length.
Qed.

Lemma dft_print_mags_length : forall (x : list F) N,
    length (dft_print_mags x N) = Z.to_nat (Z.quot N 2).
Proof.
  intros; now rewrite dft_print_mags_eq, length_map, zrange_length.
Qed.

Lemma dft_mags_dc_removed_nth : forall (x : list F) N k,
    0 <= k <= Z.quot N 2 ->
    aget (of_int 0) (dft_mags_dc_removed x N) k = dft_bin x N (dft_mean x N) k.
Proof.
  intros x N k Hk; rewrite dft_mags_dc_removed_eq; unfold aget.
  rewrite nth_indep with (d' := dft_bin x N (dft_mean x N) 0)
    by (rewrite length_map, zrange_length; lia).
  rewrite map_nth, zrange_nth by lia; f_equal; lia.
Qed.

Lemma dft_print_mags_nth : forall (x : list F) N k,
    1 <= k <= Z.quot N 2 ->
    aget (of_int 0) (dft_print_mags x N) (k - 1) = dft_bin x N (dft_mean x N) k.
Proof.
  intros x N k Hk; rewrite dft_print_mags_eq; unfold aget.
  rewrite nth_indep with (d' := dft_bin x N (dft_mean x N) 0)
    by (rewrite length_map, zrange_length; lia).
  rewrite map_nth, zrange_nth by lia; f_equal; lia.
Qed.

Lemma top3_scan_slots : forall (mags : list F) bins,
    let s := top3_scan mags bins in
    slot_ok mags bins (k1 s) (a1 s)
    /\ slot_ok mags bins (k2 s) (a2 s)
    /\ slot_ok mags bins (k3 s) (a3 s).
Proof.
  intros mags bins; cbv zeta; unfold top3_scan.
  apply for_range_ind.
  - simpl; unfold slot_ok; auto.
  - intros k s Hk (H1 & H2 & H3).
    assert (Hnew : slot_ok mags bins k (aget (of_int 0) mags k))
      by (right; split; [lia|reflexivity]).
    unfold top3_step.
    destruct (dgt _ (a1 s)); [simpl; auto|].
    destruct (dgt _ (a2 s)); [simpl; auto|].
    destruct (dgt _ (a3 s)); simpl; auto.
Qed.

Lemma slot_ok_pos : forall (mags : list F) bins k a, slot_ok mags bins k a -> 1 <= k.
Proof. intros mags bins k a [[-> _]|[Hk _]]; lia. Qed.

Lemma top3_scan_cons : forall (m0 m0' : F) rest bins,
    top3_scan (m0 :: rest) bins = top3_scan (m0' :: rest) bins.
Proof.
  intros m0 m0' rest bins; unfold top3_scan.
  apply for_range_ext; intros k s Hk; unfold top3_step.
  now rewrite (aget_cons_pos (of_int 0) m0 m0' rest) by lia.
Qed.
End AnyDouble.
End SpectralFacts.

(** C7.  Whatever the magnitudes, the number of bins and the sampling rate,
    the three peaks returned by [top3_peaks] are the frequencies of bins
    [k1, k2, k3 >= 1] found by the scan: each slot holds either the initial
    sentinel (bin 1, magnitude -1) or a bin [1 <= k < bins] with its own
    magnitude, never bin 0; and the result does not depend on the magnitude
    stored at bin 0. *)
Theorem C7_top3_peaks_never_bin0 :
  forall (F : Type) (DO : DoubleOps F),
    (forall (mags : list F) (bins : Z) (fs : F) (N : Z),
        let s := Spectral.top3_scan mags bins in
        Spectral.top3_peaks mags bins fs N
        = ((Spectral.bin_freq fs N (Spectral.k1 s), Spectral.a1 s),
           (Spectral.bin_freq fs N (Spectral.k2 s), Spectral.a2 s),
           (Spectral.bin_freq fs N (Spectral.k3 s), Spectral.a3 s))
        /\ 1 <= Spectral.k1 s /\ 1 <= Spectral.k2 s /\ 1 <= Spectral.k3 s
        /\ Spectral.slot_ok mags bins (Spectral.k1 s) (Spectral.a1 s)
        /\ Spectral.slot_ok mags bins (Spectral.k2 s) (Spectral.a2 s)
        /\ Spectral.slot_ok mags bins (Spectral.k3 s) (Spectral.a3 s))
    /\ (forall (dc dc' : F) (ac : list F) (bins : Z) (fs : F) (N : Z),
           Spectral.top3_peaks (dc :: ac) bins fs N
           = Spectral.top3_peaks (dc' :: ac) bins fs N).
Proof.
  intros F DO; split.
  - intros mags bins fs N s.
    destruct (SpectralFacts.top3_scan_slots mags bins) as (H1 & H2 & H3).
    fold s in H1, H2, H3.
    split; [reflexivity|].
    repeat split; eauto using SpectralFacts.slot_ok_pos.
  - intros dc dc' ac bins fs N; unfold Spectral.top3_peaks.
    now rewrite (SpectralFacts.top3_scan_cons dc dc').
Qed.

(** C6, as stated, fails on the rolling multi-cycle program: the spectrum
    line printed by [dft_print] for its window of [FFT_N = 320] samples
    carries 160 magnitudes, not [320/2 + 1 = 161]. *)
Lemma C6_counterexample :
  exists mags : list R,
    HystFFT.dft_print 10 (repeat 0%R 320) HystFFT.FFT_N HystFFT.Fs
    = HystFFT.FFT 10 HystFFT.Fs mags
    /\ length mags = 160%nat
    /\ Z.of_nat (length mags) <> HystFFT.FFT_N / 2 + 1.
Proof.
  eexists; split; [reflexivity|].
  rewrite SpectralFacts.dft_print_mags_length.
  split; [reflexivity|].
  vm_compute; discriminate.
Qed.

(** C6, amended.  For a window of capacity [N >= 0]:
    [dft_mags_dc_removed] (forced_2_fft) fills [floor(N/2)+1] magnitudes, one
    per bin [k = 0 .. N/2], and each spectrum line of forced_2_fft prints
    exactly these [FFT_N/2 + 1] values; [dft_print] (the rolling multi-cycle
    program) prints [floor(N/2)] magnitudes, one per bin [k = 1 .. N/2], the
    DC bin being left out. *)
Theorem C6_spectrum_bin_count :
  forall (F : Type) (DO : DoubleOps F) (MO : MathOps F) (x : list F) (N : Z),
    0 <= N ->
    length (Spectral.dft_mags_dc_removed x N) = Z.to_nat (N / 2 + 1)
    /\ (forall k, 0 <= k <= N / 2 ->
           aget (of_int 0) (Spectral.dft_mags_dc_removed x N) k
           = Spectral.dft_bin x N (Spectral.dft_mean x N) k)
    /\ length (Spectral.dft_print_mags x N) = Z.to_nat (N / 2)
    /\ (forall k, 1 <= k <= N / 2 ->
           aget (of_int 0) (Spectral.dft_print_mags x N) (k - 1)
           = Spectral.dft_bin x N (Spectral.dft_mean x N) k)
    /\ (forall t_ms x1 x2 t a fs mags,
           In (Forced2FFT.FFT t a fs mags) (Forced2FFT.window_lines t_ms x1 x2) ->
           length mags = Z.to_nat (Forced2FFT.FFT_N / 2 + 1)).
Proof.
  intros F DO MO x N HN.
  assert (Hq : Z.quot N 2 = N / 2) by (apply Z.quot_div_nonneg; lia).
  repeat split.
  - now rewrite SpectralFacts.dft_mags_dc_removed_length, Hq.
  - intros k Hk; apply SpectralFacts.dft_mags_dc_removed_nth; lia.
  - now rewrite SpectralFacts.dft_print_mags_length, Hq.
  - intros k Hk; apply SpectralFacts.dft_print_mags_nth; lia.
  - intros t_ms x1 x2 t a fs mags Hin.
    unfold Forced2FFT.window_lines in Hin; cbn [In] in Hin.
    destruct Hin as [H|[H|[H|[H|[]]]]]; try discriminate;
      injection H as _ _ _ <-; reflexivity.
Qed.

Lemma C6_spectrum_bin_count_witness :
  0 <= 4
  /\ length (Spectral.dft_mags_dc_removed (F := R) [1%R; 2%R; 3%R; 4%R] 4)
     = Z.to_nat (4 / 2 + 1).
Proof.
  split; [lia|].
  apply (C6_spectrum_bin_count R RealOps RealMath [1%R; 2%R; 3%R; 4%R] 4); lia.
Defined.

(* ------------------------------------------------------------------ *)
(** ** Loops that are never left *)

Section RunLoop.
Context {S I L : Type}.
Variable body : S -> I -> Outcome S L.

Lemma run_loop_app : forall ins1 ins2 st,
    run_loop body (ins1 ++ ins2) st
    = match run_loop body ins1 st with
      | (o1, inl r) => (o1, inl r)
      | (o1, inr st1) =>
          let '(o2, res) := run_loop body ins2 st1 in (o1 ++ o2, res)
      end.
Proof.
  induction ins1 as [|i ins1 IH]; intros ins2 st; simpl.
  - destruct (run_loop body ins2 st); reflexivity.
  - destruct (body st i) as [st' out|r]; [|reflexivity].
    rewrite IH.
    destruct (run_loop body ins1 st') as [o1 [r|st1]]; [reflexivity|].
    destruct (run_loop body ins2 st1) as [o2 res].
    now rewrite app_assoc.
Qed.

(** A body without exit keeps the loop running, and an invariant of the
    body indexed by the number of passes holds of the state reached. *)
Lemma run_loop_never_left : forall (P : nat -> S -> Prop),
    (forall n st i, P n st ->
                    exists st' out, body st i = Continue st' out /\ P (Datatypes.S n) st') ->
    forall ins n st,
      P n st ->
      exists out st', run_loop body ins st = (out, inr st')
                      /\ P (length ins + n)%nat st'.
Proof.
  intros P Hbody; induction ins as [|i ins IH]; intros n st HP; simpl.
  - eauto.
  - destruct (Hbody n st i HP) as (st1 & o1 & -> & HP1).
    destruct (IH _ _ HP1) as (o2 & st2 & -> & HP2).
    exists (o1 ++ o2), st2; split; [reflexivity|].
    now replace (Datatypes.S (length ins + n)) with (length ins + Datatypes.S n)%nat by lia.
Qed.
End RunLoop.

(* ------------------------------------------------------------------ *)
(** ** The scheduler's deadline *)

Lemma u64_add_iter : forall t0 ts n,
    u64_add (u64 (t0 + Z.of_nat n * ts)) ts = u64 (t0 + Z.of_nat (Datatypes.S n) * ts).
Proof.
  intros t0 ts n; rewrite u64_add_u64_l; f_equal; lia.
Qed.

Module Forced2GasFacts.
Import Forced2Gas.
Section AnyDouble.
Context {F : Type} {DO : DoubleOps F}.

Lemma gas_tick_continues : forall t0 (st : State) (i : TickIn (F := F)),
    exists out,
      main_tick t0 st i
      = Continue (mk_state (u64_add (next st) SAMPLE_MS) (sample st + 1)) out.
Proof. intros; eexists; reflexivity. Qed.

Lemma gas_loop_deadline : forall t0 (ins : list (TickIn (F := F))),
    0 <= t0 < 2 ^ 64 ->
    exists out st',
      main_loop t0 ins (init t0) = (out, inr st')
      /\ next st' = u64 (t0 + Z.of_nat (length ins) * SAMPLE_MS)
      /\ sample st' = Z.of_nat (length ins).
Proof.
  intros t0 ins Ht0.
  destruct (run_loop_never_left (main_tick (F := F) t0)
              (fun n st => next st = u64 (t0 + Z.of_nat n * SAMPLE_MS)
                           /\ sample st = Z.of_nat n))
    with (ins := ins) (n := 0%nat) (st := init t0)
    as (out & st' & Hrun & Hnext & Hsample).
  - intros n st i [Hn Hs].
    destruct (gas_tick_continues t0 st i) as [out ->].
    do 2 eexists; split; [reflexivity|]; simpl; split; [|lia].
    rewrite Hn; apply u64_add_iter.
  - simpl; split; [|reflexivity].
    now rewrite Z.add_0_r, u64_small.
  - exists out, st'; rewrite Nat.add_0_r in Hnext, Hsample; auto.
Qed.
End AnyDouble.
End Forced2GasFacts.

Module Forced2FFTFacts.
Import Forced2FFT.
Section AnyDouble.
Context {F : Type} {DO : DoubleOps F} {MO : MathOps F}.

(** What one pass does, whatever the driver answers. *)
Lemma fft_tick_continues : forall t0 (st : State) (i : TickIn (F := F)),
    exists st' out,
      main_tick t0 st i = Continue st' out
      /\ next_tick st' = u64_add (next_tick st) TS_MS
      /\ x1 st' = store (x1 st) (idx st) (sample_once (drv1 i) =? BME69X_OK) (drv1 i)
      /\ x2 st' = store (x2 st) (idx st) (sample_once (drv2 i) =? BME69X_OK) (drv2 i)
      /\ (out <> [] ->
          idx st + 1 >= FFT_N
          /\ window_id st' = u32 (window_id st + 1)
          /\ WARMUP_WINDOWS < window_id st'
          /\ out = window_lines (u64_sub (now_after i) t0) (x1 st') (x2 st')).
Proof.
  intros t0 st i; unfold main_tick.
  destruct (idx st + 1 >=? FFT_N) eqn:Hidx.
  - do 2 eexists; split; [reflexivity|]; simpl; repeat split; auto.
    + lia.
    + destruct (u32 (window_id st + 1) >? WARMUP_WINDOWS) eqn:Hw; [lia|congruence].
    + destruct (u32 (window_id st + 1) >? WARMUP_WINDOWS) eqn:Hw; [reflexivity|congruence].
  - do 2 eexists; split; [reflexivity|]; simpl; repeat split; auto; congruence.
Qed.

Lemma fft_loop_deadline : forall t0 (ins : list (TickIn (F := F))),
    0 <= t0 < 2 ^ 64 ->
    exists out st',
      main_loop t0 ins (init t0) = (out, inr st')
      /\ next_tick st' = u64 (t0 + Z.of_nat (length ins) * TS_MS).
Proof.
  intros t0 ins Ht0.
  destruct (run_loop_never_left (main_tick (F := F) t0)
              (fun n st => next_tick st = u64 (t0 + Z.of_nat n * TS_MS)))
    with (ins := ins) (n := 0%nat) (st := init t0)
    as (out & st' & Hrun & Hnext).
  - intros n st i Hn.
    destruct (fft_tick_continues t0 st i) as (st' & out & -> & Hnx & _).
    do 2 eexists; split; [reflexivity|].
    rewrite Hnx, Hn; apply u64_add_iter.
  - simpl; now rewrite Z.add_0_r, u64_small.
  - exists out, st'; rewrite Nat.add_0_r in Hnext; auto.
Qed.
End AnyDouble.
End Forced2FFTFacts.

(* ------------------------------------------------------------------ *)
(** ** Loops with an early exit *)

Section ForEachExit.
Context {S E : Type}.
Variable body : Z -> S -> E + S.

Lemma for_each_exit_all_pass : forall ks s,
    (forall k s0, In k ks -> exists s1, body k s0 = inr s1) ->
    exists s', for_each_exit ks body s = inr s'.
Proof.
  induction ks as [|k ks IH]; intros s Hall; simpl; eauto.
  destruct (Hall k s) as [s1 ->]; [now left|].
  apply IH; intros j s0 Hj; apply Hall; now right.
Qed.

Lemma for_each_exit_some_fails : forall ks s k0,
    In k0 ks ->
    (forall s0, exists e, body k0 s0 = inl e) ->
    exists e, for_each_exit ks body s = inl e.
Proof.
  induction ks as [|k ks IH]; intros s k0 Hin Hfail; simpl; [contradiction|].
  destruct (body k s) as [e|s1] eqn:Hk; eauto.
  destruct Hin as [->|Hin]; [|eauto].
  destruct (Hfail s) as [e He]; congruence.
Qed.

Lemma for_each_exit_code : forall (Q : E -> Prop) ks s e,
    (forall k s0 e0, body k s0 = inl e0 -> Q e0) ->
    for_each_exit ks body s = inl e -> Q e.
Proof.
  intros Q; induction ks as [|k ks IH]; intros s e HQ; simpl; [discriminate|].
  destruct (body k s) as [e1|s1] eqn:Hk; eauto.
  intros [= <-]; eauto.
Qed.
(** An invariant indexed by the number of passes made. *)
Lemma for_each_exit_inv : forall (P : nat -> S -> Prop),
    (forall n k s1 s2, P n s1 -> body k s1 = inr s2 -> P (Datatypes.S n) s2) ->
    forall ks n s s',
      P n s -> for_each_exit ks body s = inr s' -> P (length ks + n)%nat s'.
Proof.
  intros P Hstep; induction ks as [|k ks IH]; intros n s s' HP; simpl.
  - intros [= <-]; exact HP.
  - destruct (body k s) as [e|s1] eqn:Hk; [discriminate|].
    intros Hrest.
    replace (Datatypes.S (length ks + n)) with (length ks + Datatypes.S n)%nat by lia.
    eapply IH; [|exact Hrest]; eapply Hstep; eassumption.
Qed.
End ForEachExit.

(* ------------------------------------------------------------------ *)
(** ** The rolling hysteresis / multi-cycle FFT program *)

Module HystFFTFacts.
Import HystFFT.
Section AnyDouble.
Context {F : Type} {DO : DoubleOps F} {MO : MathOps F}.

Lemma step_loop_all_ok : forall drv buf next,
    (forall i, 0 <= i < S -> sample_ok (drv i) = true) ->
    exists r, step_loop drv buf next = inr r.
Proof.
  intros drv buf next Hok; unfold step_loop, for_range_exit.
  apply for_each_exit_all_pass; intros k s0 Hk.
  apply zrange_In in Hk.
  specialize (Hok k); unfold sample_ok in Hok; rewrite Hok by lia; simpl; eauto.
Qed.

Lemma step_loop_code : forall drv buf next r,
    step_loop drv buf next = inl r -> r <> BME69X_OK.
Proof.
  intros drv buf next r; unfold step_loop, for_range_exit.
  apply for_each_exit_code with (Q := fun e => e <> BME69X_OK).
  intros k s0 e0; cbv zeta.
  destruct (fst (sample_gas_once (drv k) (of_int 0)) =? BME69X_OK) eqn:Hk; simpl;
    [discriminate|].
  intros [= <-]; apply Z.eqb_neq; exact Hk.
Qed.

Lemma step_loop_failure : forall drv buf next i,
    0 <= i < S -> sample_ok (drv i) = false ->
    exists r, step_loop drv buf next = inl r /\ r <> BME69X_OK.
Proof.
  intros drv buf next i Hi Hfail.
  assert (Hex : exists r, step_loop drv buf next = inl r).
  { unfold step_loop, for_range_exit.
    apply for_each_exit_some_fails with (k0 := i).
    - apply zrange_In; lia.
    - intros s0; cbv zeta; unfold sample_ok in Hfail; rewrite Hfail; simpl; eauto. }
  destruct Hex as [r Hr]; exists r; split; [exact Hr|].
  now apply step_loop_code in Hr.
Qed.

(** A step that is completed advances the deadline [S] times by [SUB_MS]. *)
Lemma step_loop_deadline : forall drv buf next buf' next',
    u64 next = next ->
    step_loop drv buf next = inr (buf', next') ->
    next' = u64 (next + S * SUB_MS).
Proof.
  intros drv buf next buf' next' Hnext; unfold step_loop, for_range_exit.
  intros Hrun.
  apply for_each_exit_inv
    with (P := fun n (s : list F * Z) => snd s = u64 (next + Z.of_nat n * SUB_MS))
         (n := 0%nat) in Hrun.
  - rewrite zrange_length in Hrun; simpl in Hrun; rewrite Hrun; reflexivity.
  - intros n k s1 s2 Hs1; cbv zeta.
    destruct (negb _); [discriminate|].
    intros [= <-]; simpl; rewrite Hs1; apply u64_add_iter.
  - simpl; now rewrite Z.add_0_r.
Qed.

(** The last deadline of a pass is counted from the clock reading taken at
    the top of that pass. *)
Lemma sample_steps_deadline : forall st c low' high' next',
    0 <= t_start c < 2 ^ 64 ->
    sample_steps st c = inr (low', high', next') ->
    next' = u64 (t_start c + 2 * S * SUB_MS).
Proof.
  intros st c low' high' next' Ht; unfold sample_steps.
  destruct (step_loop (low_drv c) (low st) (t_start c)) as [r|[l n1]] eqn:Hlow;
    [discriminate|].
  destruct (step_loop (high_drv c) (high st) n1) as [r|[h n2]] eqn:Hhigh;
    [discriminate|].
  intros [= <- <- <-].
  apply step_loop_deadline in Hlow; [|now apply u64_small].
  apply step_loop_deadline in Hhigh; [|subst n1; unfold u64; apply Zmod_mod].
  rewrite Hhigh, Hlow; unfold u64.
  rewrite Zplus_mod_idemp_l; f_equal; lia.
Qed.

Lemma fft_due_spec : forall id filled,
    fft_due id filled = true
    <-> WARMUP_CYCLES < id /\ filled = true /\ id mod FFT_STRIDE = 0.
Proof.
  intros id filled; unfold fft_due.
  rewrite !andb_true_iff, Z.eqb_eq; split.
  - intros [[H1 H2] H3]; repeat split; auto; lia.
  - intros (H1 & H2 & H3); repeat split; auto; lia.
Qed.

(** The state and the output of a pass that is completed. *)
Lemma main_cycle_completed : forall st c st' out,
    main_cycle st c = Continue st' out ->
    cycle_id st' = u32 (cycle_id st + 1)
    /\ out = FEATURE_CYCLE (cycle_id st')
                           (map (aget (of_int 0) (y_cycle st')) (zrange 0 (Z.to_nat S)))
             :: (if fft_due (cycle_id st') (fft_filled st')
                 then [dft_print (cycle_id st')
                                 (snapshot (fft_buf st') (fft_pos st')) FFT_N Fs]
                 else []).
Proof.
  intros st c st' out; unfold main_cycle.
  destruct (sample_steps st c) as [r|[[low' high'] next']]; [discriminate|].
  destruct (append_rolling _ _) as [[buf pos] filled].
  intros [= <- <-]; simpl; auto.
Qed.

(** A pass is completed when all of its [2 * S] samples are accepted. *)
Lemma main_cycle_all_ok : forall st c,
    (forall i, 0 <= i < S -> sample_ok (low_drv c i) = true) ->
    (forall i, 0 <= i < S -> sample_ok (high_drv c i) = true) ->
    exists st' out, main_cycle st c = Continue st' out.
Proof.
  intros st c Hlow Hhigh; unfold main_cycle, sample_steps.
  destruct (step_loop_all_ok (low_drv c) (low st) (t_start c) Hlow) as [[low' next] ->].
  destruct (step_loop_all_ok (high_drv c) (high st) next Hhigh) as [[high' next'] ->].
  destruct (append_rolling _ _) as [[buf pos] filled]; eauto.
Qed.

(** Any sample that is not accepted makes the pass leave the loop
    ([goto out]) with a return code other than [BME69X_OK]. *)
Lemma main_cycle_failure : forall st c i,
    0 <= i < S ->
    sample_ok (low_drv c i) = false \/ sample_ok (high_drv c i) = false ->
    exists r, main_cycle st c = Exit r /\ r <> BME69X_OK.
Proof.
  intros st c i Hi Hfail; unfold main_cycle, sample_steps.
  destruct (step_loop (low_drv c) (low st) (t_start c)) as [r|[low' next]] eqn:Hlow.
  - exists r; split; [reflexivity|]; eapply step_loop_code; eassumption.
  - destruct Hfail as [Hfail|Hfail].
    + destruct (step_loop_failure (low_drv c) (low st) (t_start c) i Hi Hfail)
        as (r & Hr & _); congruence.
    + destruct (step_loop_failure (high_drv c) (high st) next i Hi Hfail)
        as (r & -> & Hne); eauto.
Qed.
End AnyDouble.
End HystFFTFacts.

(** C10.  In the rolling multi-cycle program every completed pass prints its
    hysteresis record; a spectrum record is printed in the same pass only if
    the new cycle identifier is a multiple of [FFT_STRIDE = 10], exceeds
    [WARMUP_CYCLES] and the rolling buffer has been filled, and it is printed
    whenever these three conditions hold. *)
Theorem C10_fft_only_on_stride :
  forall (F : Type) (DO : DoubleOps F) (MO : MathOps F)
         (st : HystFFT.State) (c : HystFFT.CycleIn (F := F))
         (st' : HystFFT.State) (out : list HystFFT.Line),
    HystFFT.main_cycle st c = Continue st' out ->
    let id := HystFFT.cycle_id st' in
    id = u32 (HystFFT.cycle_id st + 1)
    /\ (exists y, hd_error out = Some (HystFFT.FEATURE_CYCLE id y))
    /\ (forall id' fs mags,
           In (HystFFT.FFT id' fs mags) out ->
           id' = id /\ id mod HystFFT.FFT_STRIDE = 0
           /\ HystFFT.WARMUP_CYCLES < id /\ HystFFT.fft_filled st' = true)
    /\ (id mod HystFFT.FFT_STRIDE <> 0 ->
        exists y, out = [HystFFT.FEATURE_CYCLE id y])
    /\ (id mod HystFFT.FFT_STRIDE = 0 -> HystFFT.WARMUP_CYCLES < id ->
        HystFFT.fft_filled st' = true ->
        exists y fs mags,
          out = [HystFFT.FEATURE_CYCLE id y; HystFFT.FFT id fs mags]).
Proof.
  intros F DO MO st c st' out Hrun id.
  destruct (HystFFTFacts.main_cycle_completed st c st' out Hrun) as [Hid Hout].
  fold id in Hout.
  pose proof (HystFFTFacts.fft_due_spec id (HystFFT.fft_filled st')) as Hdue.
  split; [exact Hid|].
  destruct (HystFFT.fft_due id (HystFFT.fft_filled st')) eqn:Hd; subst out.
  - destruct (proj1 Hdue eq_refl) as (Hw & Hf & Hm).
    repeat split.
    + eexists; reflexivity.
    + destruct H as [H|[H|[]]]; [discriminate|]; now injection H.
    + exact Hm.
    + exact Hw.
    + exact Hf.
    + intros Hne; contradiction.
    + intros _ _ _; unfold HystFFT.dft_print; do 3 eexists; reflexivity.
  - repeat split.
    + eexists; reflexivity.
    + destruct H as [H|[]]; discriminate.
    + destruct H as [H|[]]; discriminate.
    + destruct H as [H|[]]; discriminate.
    + destruct H as [H|[]]; discriminate.
    + intros _; eexists; reflexivity.
    + intros Hm Hw Hf.
      assert (Habs : false = true) by (apply Hdue; auto).
      discriminate.
Qed.

Lemma C10_fft_only_on_stride_witness :
  exists st' out,
    HystFFT.main_cycle HystFFT.init Inputs.good_cycle = Continue st' out
    /\ HystFFT.cycle_id st' = u32 (0 + 1)
    /\ exists y, out = [HystFFT.FEATURE_CYCLE (HystFFT.cycle_id st') y].
Proof.
  destruct (HystFFTFacts.main_cycle_all_ok HystFFT.init Inputs.good_cycle)
    as (st' & out & Hrun); [intros; reflexivity | intros; reflexivity |].
  exists st', out; split; [exact Hrun|].
  destruct (C10_fft_only_on_stride R RealOps RealMath _ _ _ _ Hrun)
    as (Hid & _ & _ & Hfeat & _).
  split; [exact Hid|].
  apply Hfeat; rewrite Hid; vm_compute; discriminate.
Defined.

(* ------------------------------------------------------------------ *)
(** ** The stepped-profile program *)

Module ProfileFacts.
Import Profile.
Section AnyDouble.
Context {F : Type} {DO : DoubleOps F}.

(** A failed driver call leaves the loop ([break]). *)
Lemma main_iter_break : forall (st : State (F := F)) i,
    calls_ok (drv i) = false ->
    exists r, main_iter st i = Exit r /\ r <> BME69X_OK.
Proof.
  intros st i; unfold calls_ok, main_iter.
  destruct (set_heatr_conf_rslt (drv i) =? BME69X_OK) eqn:H1; simpl.
  - destruct (set_op_mode_rslt (drv i) =? BME69X_OK) eqn:H2; simpl.
    + destruct (get_data_rslt (drv i) =? BME69X_OK) eqn:H3; simpl; [discriminate|].
      intros _; eexists; split; [reflexivity|]; now apply Z.eqb_neq.
    + intros _; eexists; split; [reflexivity|]; now apply Z.eqb_neq.
  - intros _; eexists; split; [reflexivity|]; now apply Z.eqb_neq.
Qed.

(** A read-back without field is skipped: nothing is stored, printed or
    counted, and the loop goes on with the same step. *)
Lemma main_iter_no_fields : forall (st : State (F := F)) i,
    calls_ok (drv i) = true -> n_fields (drv i) = 0 ->
    main_iter st i = Continue st [].
Proof.
  intros st i; unfold calls_ok, main_iter.
  rewrite !andb_true_iff; intros [[-> ->] ->] ->; reflexivity.
Qed.

(** The features printed by a pass, and the counters after it. *)
Lemma main_iter_features : forall (st : State (F := F)) i st' out,
    counters_ok st -> sample_count st <= SAMPLE_COUNT ->
    main_iter st i = Continue st' out ->
    counters_ok st'
    /\ ((cycle_id st' = cycle_id st /\ feature_ids out = [])
        \/ (cycle_id st' = cycle_id st + 1
            /\ feature_ids out
               = if cycle_id st' >? WARMUP_CYCLES then [cycle_id st'] else [])).
Proof.
  intros st i st' out (Hsc & Hci & Hid & Heq) Hle.
  unfold SAMPLE_COUNT in *; change profile_len with 8 in *.
  unfold main_iter.
  destruct (negb (set_heatr_conf_rslt (drv i) =? BME69X_OK)); [discriminate|].
  destruct (negb (set_op_mode_rslt (drv i) =? BME69X_OK)); [discriminate|].
  destruct (negb (get_data_rslt (drv i) =? BME69X_OK)); [discriminate|].
  destruct (negb (n_fields (drv i) =? 0)).
  - assert (Hu16 : u16 (sample_count st + 1) = sample_count st + 1)
      by (unfold u16; apply Z.mod_small; lia).
    assert (Hu32 : u32 (cycle_id st + 1) = cycle_id st + 1)
      by (unfold u32; apply Z.mod_small; lia).
    change profile_len with 8.
    destruct (cycle_index st + 1 >=? 8) eqn:Hfull; intros [= <- <-];
      unfold counters_ok, SAMPLE_COUNT;
      cbn [sample_count cycle_index cycle_id gas_cycle];
      rewrite Hu16, ?Hu32; change profile_len with 8.
    + split; [lia|]; right; split; [reflexivity|].
      destruct (cycle_id st + 1 >? WARMUP_CYCLES); reflexivity.
    + split; [lia|]; left; auto.
  - intros [= <- <-]; split; [|left; auto].
    unfold counters_ok, SAMPLE_COUNT; change profile_len with 8; lia.
Qed.

Lemma feature_ids_app : forall (a b : list (Line (F := F))),
    feature_ids (a ++ b) = feature_ids a ++ feature_ids b.
Proof. intros; unfold feature_ids; apply flat_map_app. Qed.

Lemma filter_zrange_S : forall (p : Z -> bool) lo m,
    filter p (zrange lo (Datatypes.S m))
    = (if p lo then [lo] else []) ++ filter p (zrange (lo + 1) m).
Proof.
  intros p lo m; unfold zrange; simpl.
  rewrite Z.add_0_r.
  assert (Hshift : map (fun i => lo + Z.of_nat i) (seq 1 m)
                   = map (fun i => lo + 1 + Z.of_nat i) (seq 0 m)).
  { rewrite <- seq_shift, map_map; apply map_ext; intros; lia. }
  rewrite Hshift; destruct (p lo); reflexivity.
Qed.

(** The feature records of a run are those of the cycles completed during
    the run whose identifier exceeds [WARMUP_CYCLES]. *)
Lemma main_loop_features : forall ins (st : State (F := F)) out res,
    counters_ok st ->
    main_loop ins st = (out, res) ->
    exists m : nat,
      feature_ids out
      = filter (fun id => id >? WARMUP_CYCLES) (zrange (cycle_id st + 1) m)
      /\ forall st', res = inr st' ->
                     counters_ok st' /\ cycle_id st' = cycle_id st + Z.of_nat m.
Proof.
  induction ins as [|i ins IH]; intros st out res Hinv; simpl.
  - destruct (sample_count st <=? SAMPLE_COUNT); intros [= <- <-];
      exists 0%nat; (split; [reflexivity|]); [|discriminate].
    intros st' [= <-]; split; [exact Hinv|lia].
  - destruct (sample_count st <=? SAMPLE_COUNT) eqn:Hle.
    + destruct (main_iter st i) as [st1 o1|r] eqn:Hit.
      * destruct (main_loop ins st1) as [o2 res2] eqn:Hrest.
        intros [= <- <-].
        destruct (main_iter_features st i st1 o1 Hinv ltac:(lia) Hit) as [Hinv1 Hcase].
        destruct (IH _ _ _ Hinv1 Hrest) as (m & Hm & Hres).
        rewrite feature_ids_app, Hm.
        destruct Hcase as [[Hid Hf]|[Hid Hf]].
        -- exists m; rewrite Hf, Hid; split; [reflexivity|].
           intros st' Hst'; destruct (Hres _ Hst'); split; [assumption|lia].
        -- exists (Datatypes.S m); rewrite Hf, filter_zrange_S, Hid; split; [reflexivity|].
           intros st' Hst'; destruct (Hres _ Hst'); split; [assumption|lia].
      * intros [= <- <-]; exists 0%nat; split; [reflexivity|discriminate].
    + intros [= <- <-]; exists 0%nat; split; [reflexivity|discriminate].
Qed.

Lemma counters_ok_init : counters_ok (init (F := F)).
Proof. unfold counters_ok, init, SAMPLE_COUNT; simpl; change profile_len with 8; lia. Qed.
End AnyDouble.
End ProfileFacts.

(* ------------------------------------------------------------------ *)
(** ** forced_2_gas_ratio *)

Module Forced2GasRatioFacts.
Import Forced2GasRatio.
Section AnyDouble.
Context {F : Type} {DO : DoubleOps F}.

Lemma ratio_tick_continues : forall t0 (st : State) (i : TickIn (F := F)),
    exists st' out,
      main_tick t0 st i = Continue st' out
      /\ next st' = u64_add (next st) TS_MS.
Proof.
  intros t0 st i; unfold main_tick.
  destruct (negb (u64_sub (now i) t0 / SQ_PERIOD_MS =? last_cycle st));
    do 2 eexists; split; reflexivity.
Qed.

(** There is no warm-up test: a pass that detects a rollover with both
    counts positive prints the two ratios. *)
Lemma main_tick_rollover : forall t0 (st : State) (i : TickIn (F := F)),
    let rel := u64_sub (now i) t0 in
    let s1 := sample_once (drv1 i) (of_int 0) in
    let s2 := sample_once (drv2 i) (of_int 0) in
    let acc := accumulate st (heater_at rel) (fst s1 =? 0) (fst s2 =? 0)
                          (snd s1) (snd s2) in
    rel / SQ_PERIOD_MS <> last_cycle st ->
    lowc acc <> 0 -> highc acc <> 0 ->
    exists st',
      main_tick t0 st i
      = Continue st'
          [ RATIO rel ADDR1 (ratio_of (high1 acc) (highc acc) (low1 acc) (lowc acc));
            RATIO rel ADDR2 (ratio_of (high2 acc) (highc acc) (low2 acc) (lowc acc)) ].
Proof.
  intros t0 st i rel s1 s2 acc Hroll Hlow Hhigh; unfold main_tick.
  fold rel; fold s1; fold s2; fold acc.
  apply Z.eqb_neq in Hroll, Hlow, Hhigh; rewrite Hroll, Hlow, Hhigh; simpl.
  eexists; reflexivity.
Qed.
Lemma ratio_loop_deadline : forall t0 (ins : list (TickIn (F := F))),
    0 <= t0 < 2 ^ 64 ->
    exists out st',
      main_loop t0 ins (init t0) = (out, inr st')
      /\ next st' = u64 (t0 + Z.of_nat (length ins) * TS_MS).
Proof.
  intros t0 ins Ht0.
  destruct (run_loop_never_left (main_tick (F := F) t0)
              (fun n st => next st = u64 (t0 + Z.of_nat n * TS_MS)))
    with (ins := ins) (n := 0%nat) (st := init t0)
    as (out & st' & Hrun & Hnext).
  - intros n st i Hn.
    destruct (ratio_tick_continues t0 st i) as (st' & out & -> & Hnx).
    do 2 eexists; split; [reflexivity|].
    rewrite Hnx, Hn; apply u64_add_iter.
  - simpl; now rewrite Z.add_0_r, u64_small.
  - exists out, st'; rewrite Nat.add_0_r in Hnext; auto.
Qed.
End AnyDouble.
End Forced2GasRatioFacts.




(** The run of three complete cycles of the stepped-profile program prints
    the feature record of the third cycle only. *)
Example profile_three_cycles :
  Profile.feature_ids (fst (Profile.main_loop (Inputs.profile_run 24) Profile.init))
  = [3].
Proof. vm_compute; reflexivity. Qed.

(* ------------------------------------------------------------------ *)
(** ** forced_sweep_2: one pass of a segment *)

Module ForcedSweep2Facts.
Import ForcedSweep2.
Section AnyDouble.
Context {F : Type} {DO : DoubleOps F}.

(** While the condition of the segment holds, a pass is made and the
    condition is evaluated again, whatever the driver answered. *)
Lemma segment_loop_pass : forall fuel (E : Env (F := F)) t0 half_ms seg_start st,
    u64_sub (u64 (clock st)) seg_start < run_ms half_ms ->
    segment_loop (S fuel) E t0 half_ms seg_start st
    = (fst (tick E t0 half_ms seg_start st)
         ++ fst (segment_loop fuel E t0 half_ms seg_start
                              (snd (tick E t0 half_ms seg_start st))),
       snd (segment_loop fuel E t0 half_ms seg_start
                         (snd (tick E t0 half_ms seg_start st)))).
Proof.
  intros fuel E t0 half_ms seg_start st Hguard; simpl.
  apply Z.ltb_lt in Hguard; rewrite Hguard; reflexivity.
Qed.

Lemma segment_loop_done : forall fuel (E : Env (F := F)) t0 half_ms seg_start st,
    run_ms half_ms <= u64_sub (u64 (clock st)) seg_start ->
    segment_loop fuel E t0 half_ms seg_start st = ([], Some st).
Proof.
  intros fuel E t0 half_ms seg_start st Hguard.
  apply Z.ltb_ge in Hguard; destruct fuel; simpl; rewrite Hguard; reflexivity.
Qed.
End AnyDouble.
End ForcedSweep2Facts.




(* ------------------------------------------------------------------ *)
(** ** Hold-last in forced_2_fft *)

Module HoldLast.
Import Forced2FFT.
Section AnyDouble.
Context {F : Type} {DO : DoubleOps F} {MO : MathOps F}.

(** Inside a window a failed sample repeats the value stored by the pass
    before. *)
Lemma store_failed_inside : forall (x : list F) idx d,
    0 < idx < Z.of_nat (length x) ->
    aget (of_int 0) (store x idx false d) idx = aget (of_int 0) x (idx - 1).
Proof.
  intros x idx d Hidx; unfold store.
  destruct (idx >? 0) eqn:Hpos; [|lia].
  apply aget_aset_same; lia.
Qed.

(** At the first index of a window a failed sample keeps what the slot
    already holds, that is the first value of the window before. *)
Lemma store_failed_at_zero : forall (x : list F) d,
    store x 0 false d = aset x 0 (aget (of_int 0) x 0).
Proof. reflexivity. Qed.
End AnyDouble.
End HoldLast.

(** C5 at its failing input.  forced_2_fft, sensor 1: forty accepted samples
    [100, 101, ..., 139] fill the first window; the sample of the next pass,
    the first of the second window, fails.  The value stored for that pass
    (index 0) is 100, the first sample of the window before, and not 139,
    the value accepted at the pass before. *)
Theorem C5_hold_last_at_window_start :
  Forced2FFT.sample_once (Forced2FFT.drv1 (Inputs.fft_failed_tick 40)) <> BME69X_OK
  /\ gas_resistance (data (Forced2FFT.drv1 (Inputs.fft_tick 39))) = 139%R
  /\ match snd (Forced2FFT.main_loop 0 Inputs.fft_wrap_run (Forced2FFT.init 0)) with
     | inr st =>
         Forced2FFT.idx st = 1
         /\ aget 0%R (Forced2FFT.x1 st) 0 = 100%R
         /\ aget 0%R (Forced2FFT.x1 st) 39 = 139%R
     | inl _ => False
     end
  /\ 100%R <> 139%R.
Proof.
  split; [vm_compute; discriminate|].
  split; [vm_compute; reflexivity|].
  split; [vm_compute; repeat split; reflexivity|].
  lra.
Qed.

(** C2 at its failing input, in binary64.  forced_2_gas_ratio over one
    period: both sensors see 100 ohm in the low phase and 200 ohm in the high
    phase; sensor 2 fails three times in the low phase.  The ratio printed for
    sensor 1 is the quotient of the means of its accepted values, 2; the ratio
    printed for sensor 2 is 5, although the quotient of the means of its
    accepted values is 2 as well: its sums are divided by the counts of
    sensor 1. *)
Theorem C2_ratio_of_sensor2_uses_counts_of_sensor1 :
  let out := fst (Forced2GasRatio.main_loop 0 Inputs.ratio_run (Forced2GasRatio.init 0)) in
  Forced2GasRatio.ratios_of Forced2GasRatio.ADDR1 out
  = [Forced2GasRatio.spec_ratio 0 Forced2GasRatio.drv1 Inputs.ratio_run]
  /\ Forced2GasRatio.spec_ratio 0 Forced2GasRatio.drv1 Inputs.ratio_run = of_int 2
  /\ Forced2GasRatio.ratios_of Forced2GasRatio.ADDR2 out = [of_int 5]
  /\ Forced2GasRatio.spec_ratio 0 Forced2GasRatio.drv2 Inputs.ratio_run = of_int 2
  /\ PrimFloat.eqb (of_int 5) (of_int 2) = false.
Proof.
  cbv zeta; repeat split; vm_compute; reflexivity.
Qed.

(* ------------------------------------------------------------------ *)
(** ** forced_sweep_2: every segment ends, and the output is framed *)

Module SweepFraming.
Import ForcedSweep2.
Section AnyDouble.
Context {F : Type} {DO : DoubleOps F}.

Lemma run_ms_small : forall half_ms,
    0 <= half_ms < 2 ^ 31 -> run_ms half_ms = total_cycles * period_ms half_ms.
Proof.
  intros h Hh; unfold run_ms, total_cycles, period_ms, WARMUP_CYCLES, CYCLES_PER_FREQ.
  rewrite (u64_small (3 + 15)) by lia.
  rewrite (u64_small (2 * h)) by lia.
  apply u64_small; lia.
Qed.

Lemma markers_app : forall (a b : list (Line (F := F))),
    markers (a ++ b) = markers a ++ markers b.
Proof. intros; unfold markers; apply flat_map_app. Qed.

Lemma markers_tick_lines : forall t_ms heater (e : TickEnv (F := F)),
    markers (tick_lines t_ms heater e) = [].
Proof.
  intros; unfold tick_lines.
  destruct (fst (sample_once (drv1 e) (of_int 0)) =? BME69X_OK);
    destruct (fst (sample_once (drv2 e) (of_int 0)) =? BME69X_OK); reflexivity.
Qed.

Section Environment.
Variable E : Env (F := F).
Variable J : Z.
Hypothesis E_bounded : env_bounded E J.

(** One pass, made while the segment is running and far from the end of the
    range of the clock: the deadline advances by [TS_MS], the pass ends at
    or after the deadline, and it takes at most [3 * J + TS_MS]. *)
Lemma tick_state : forall t0 half_ms seg_start st,
    0 <= next st <= clock st ->
    clock st + 3 * J + TS_MS < 2 ^ 64 ->
    let st' := snd (tick E t0 half_ms seg_start st) in
    next st' = next st + TS_MS
    /\ next st' <= clock st'
    /\ clock st <= clock st' <= clock st + 3 * J + TS_MS
    /\ passes st' = S (passes st)
    /\ markers (fst (tick E t0 half_ms seg_start st)) = [].
Proof.
  intros t0 half_ms seg_start st Hnext Hfar.
  destruct E_bounded as [_ Htick].
  destruct (Htick (passes st)) as (Hrel & Hmeas & Hwake).
  unfold TS_MS in *; cbv zeta; unfold tick; cbn [snd fst next clock passes].
  rewrite markers_tick_lines.
  assert (Hn : u64_add (next st) TS_MS = next st + 10)
    by (unfold u64_add, TS_MS; apply u64_small; lia).
  rewrite Hn; unfold sleep_until_ms.
  rewrite (u64_small (clock st + dt_rel (tick_env E (passes st))
                      + dt_meas (tick_env E (passes st)))) by lia.
  destruct (_ >=? _) eqn:Hcmp; repeat split; lia.
Qed.

(** The loop of a segment ends: [k] passes suffice when the deadline is
    within [TS_MS * k] of the end of the segment. *)
Lemma segment_terminates : forall t0 half_ms c_start (k : nat) st,
    0 <= half_ms < 2 ^ 31 ->
    0 <= c_start ->
    c_start + run_ms half_ms + 3 * J + TS_MS < 2 ^ 64 ->
    0 <= next st <= clock st ->
    c_start <= clock st <= c_start + run_ms half_ms + 3 * J + TS_MS ->
    c_start + run_ms half_ms - next st <= TS_MS * Z.of_nat k ->
    exists out st',
      (forall fuel, (k <= fuel)%nat ->
                    segment_loop fuel E t0 half_ms (u64 c_start) st = (out, Some st'))
      /\ markers out = []
      /\ 0 <= next st' <= clock st'
      /\ clock st <= clock st' <= c_start + run_ms half_ms + 3 * J + TS_MS.
Proof.
  intros t0 half_ms c_start k st Hh Hc0 Hfar.
  assert (HJ : 0 <= J) by (destruct E_bounded as [Hs _]; destruct (Hs 0%nat); lia).
  assert (Hrun : 0 <= run_ms half_ms)
    by (rewrite run_ms_small by lia;
        unfold total_cycles, period_ms, WARMUP_CYCLES, CYCLES_PER_FREQ; lia).
  rewrite (u64_small c_start) by (unfold TS_MS in *; lia).
  revert st; induction k as [|k IH]; intros st Hnext Hclock Hmeasure.
  - exists [], st; repeat split; try lia.
    intros fuel _; apply ForcedSweep2Facts.segment_loop_done.
    unfold u64_sub; rewrite (u64_small (clock st)) by (unfold TS_MS in *; lia).
    rewrite u64_small by (unfold TS_MS in *; lia).
    unfold TS_MS in *; lia.
  - assert (Hguard : u64_sub (u64 (clock st)) c_start = clock st - c_start).
    { unfold u64_sub; rewrite (u64_small (clock st)) by (unfold TS_MS in *; lia).
      apply u64_small; unfold TS_MS in *; lia. }
    destruct (Z_lt_ge_dec (clock st - c_start) (run_ms half_ms)) as [Hin|Hout].
    + destruct (tick_state t0 half_ms c_start st Hnext) as (Hn & Hnc & Hc & _ & Hm).
      { unfold TS_MS in *; lia. }
      destruct (IH (snd (tick E t0 half_ms c_start st))) as (out & st' & Hloop & Hmk & Hn' & Hc').
      * unfold TS_MS in *; lia.
      * unfold TS_MS in *; lia.
      * unfold TS_MS in *; lia.
      * exists (fst (tick E t0 half_ms c_start st) ++ out), st'.
        split; [|split; [|split]].
        -- intros [|fuel] Hfuel; [lia|].
           rewrite ForcedSweep2Facts.segment_loop_pass by lia.
           rewrite Hloop by lia; reflexivity.
        -- now rewrite markers_app, Hm, Hmk.
        -- exact Hn'.
        -- lia.
    + exists [], st; repeat split; try lia.
      intros fuel _; apply ForcedSweep2Facts.segment_loop_done; lia.
Qed.

Lemma horizon_cons : forall h rest,
    horizon J (h :: rest) = segment_budget J h + horizon J rest.
Proof. reflexivity. Qed.

Lemma horizon_nonneg : forall halves,
    0 <= J -> (forall h, In h halves -> 0 <= h < 2 ^ 31) -> 0 <= horizon J halves.
Proof.
  intros halves HJ; induction halves as [|h rest IH]; intros Hh; [reflexivity|].
  rewrite horizon_cons.
  assert (0 <= h < 2 ^ 31) by (apply Hh; now left).
  assert (0 <= horizon J rest) by (apply IH; intros; apply Hh; now right).
  unfold segment_budget, total_cycles, period_ms, WARMUP_CYCLES, CYCLES_PER_FREQ, TS_MS.
  lia.
Qed.

(** The sweep ends, with one pair of markers per list entry, in order. *)
Lemma sweep_terminates : forall t0 halves i st,
    (forall h, In h halves -> 0 <= h < 2 ^ 31) ->
    0 <= next st <= clock st ->
    clock st + horizon J halves < 2 ^ 64 ->
    exists K out st',
      (forall fuel, (K <= fuel)%nat -> sweep fuel E t0 halves i st = (out, Some st'))
      /\ markers out = flat_map (fun h => [M_SWEEP h; M_ENDSWEEP h]) halves.
Proof.
  intros t0 halves.
  assert (HJ : 0 <= J) by (destruct E_bounded as [Hs _]; destruct (Hs 0%nat); lia).
  induction halves as [|h rest IH]; intros i st Hh Hnext Hfar.
  - exists 0%nat, [], st; split; [reflexivity|reflexivity].
  - assert (Hhr : 0 <= h < 2 ^ 31) by (apply Hh; now left).
    assert (Hrest : forall h', In h' rest -> 0 <= h' < 2 ^ 31)
      by (intros; apply Hh; now right).
    pose proof (horizon_nonneg rest HJ Hrest) as Hhz.
    rewrite horizon_cons in Hfar; unfold segment_budget in Hfar.
    rewrite <- run_ms_small in Hfar by exact Hhr.
    assert (Hrun : 0 <= run_ms h)
      by (rewrite run_ms_small by lia;
          unfold total_cycles, period_ms, WARMUP_CYCLES, CYCLES_PER_FREQ; lia).
    destruct E_bounded as [Hseg _]; destruct (Hseg i) as [Hds Hdg].
    set (c_start := clock st + dt_start (seg_env E i)).
    set (st0 := mk_state (c_start + dt_guard (seg_env E i)) (next st) (passes st)).
    destruct (segment_terminates t0 h c_start
                (Z.to_nat (c_start + run_ms h - next st)) st0)
      as (o1 & st1 & Hloop & Hmk & Hn1 & Hc1);
      try (subst st0 c_start; unfold TS_MS in *; cbn [clock next]; lia).
    destruct (IH (S i) st1 Hrest Hn1) as (K & o2 & st2 & Hsweep & Hmk2).
    { subst st0 c_start; unfold TS_MS in *; cbn [clock next] in Hc1; lia. }
    exists (Nat.max (Z.to_nat (c_start + run_ms h - next st)) K),
           (sweep_line h :: o1 ++ ENDSWEEP h :: o2), st2.
    split.
    + intros fuel Hfuel; simpl; fold c_start; fold st0.
      rewrite Hloop by lia; simpl.
      rewrite Hsweep by lia; reflexivity.
    + change (sweep_line h :: o1 ++ ENDSWEEP h :: o2)
        with ([sweep_line h] ++ o1 ++ [ENDSWEEP h] ++ o2).
      rewrite !markers_app, Hmk, Hmk2; reflexivity.
Qed.
End Environment.
End AnyDouble.
End SweepFraming.




(** The sweep of the program's own list, run in that environment, ends with
    7740 passes made; its markers are the ten pairs. *)
Example sweep_of_main_completes :
  option_map (fun st => Z.of_nat (ForcedSweep2.passes st))
             (snd (ForcedSweep2.main 1800 Inputs.prompt_env 0))
  = Some 7740
  /\ ForcedSweep2.markers (fst (ForcedSweep2.main 1800 Inputs.prompt_env 0))
     = flat_map (fun h => [ForcedSweep2.M_SWEEP h; ForcedSweep2.M_ENDSWEEP h])
                ForcedSweep2.half_list_ms.
Proof. split; vm_compute; reflexivity. Qed.

(* ------------------------------------------------------------------ *)
(** ** forced_2_gas_ratio: what the accumulators hold *)

Module RatioAccumulators.
Import Forced2GasRatio.
Section AnyDouble.
Context {F : Type} {DO : DoubleOps F}.
Variable t0 : Z.

Lemma heater_at_cases : forall rel,
    (heater_at rel =? T_LOW_C) = true /\ (heater_at rel =? T_HIGH_C) = false
    \/ (heater_at rel =? T_LOW_C) = false /\ (heater_at rel =? T_HIGH_C) = true.
Proof.
  intros rel; unfold heater_at; cbv zeta.
  destruct (rel mod SQ_PERIOD_MS <? HALF_MS); [left|right]; split; reflexivity.
Qed.

Lemma accepted_cons : forall chan heater (i : TickIn (F := F)) ins,
    accepted t0 chan heater (i :: ins)
    = (if (heater_at (u64_sub (now i) t0) =? heater)
          && (fst (sample_once (chan i) (of_int 0)) =? 0)
       then [snd (sample_once (chan i) (of_int 0))] else [])
        ++ accepted t0 chan heater ins.
Proof. reflexivity. Qed.

Lemma accepted_app : forall chan heater (a b : list (TickIn (F := F))),
    accepted t0 chan heater (a ++ b)
    = accepted t0 chan heater a ++ accepted t0 chan heater b.
Proof. intros; unfold accepted; apply flat_map_app. Qed.

(** The accumulators and the counts after one pass, in terms of the values
    accepted during the pass. *)
Lemma accumulate_accepted : forall (st : State) (i : TickIn (F := F)),
    let s1 := sample_once (drv1 i) (of_int 0) in
    let s2 := sample_once (drv2 i) (of_int 0) in
    let acc := accumulate st (heater_at (u64_sub (now i) t0))
                          (fst s1 =? 0) (fst s2 =? 0) (snd s1) (snd s2) in
    low1 acc = fold_left dadd (accepted t0 drv1 T_LOW_C [i]) (low1 st)
    /\ high1 acc = fold_left dadd (accepted t0 drv1 T_HIGH_C [i]) (high1 st)
    /\ low2 acc = fold_left dadd (accepted t0 drv2 T_LOW_C [i]) (low2 st)
    /\ high2 acc = fold_left dadd (accepted t0 drv2 T_HIGH_C [i]) (high2 st)
    /\ lowc acc = lowc st + Z.of_nat (length (accepted t0 drv1 T_LOW_C [i]))
    /\ highc acc = highc st + Z.of_nat (length (accepted t0 drv1 T_HIGH_C [i]))
    /\ last_cycle acc = last_cycle st.
Proof.
  intros st i s1 s2 acc; subst acc; unfold accumulate, accepted; simpl flat_map.
  fold s1; fold s2.
  destruct (heater_at_cases (u64_sub (now i) t0)) as [[-> ->]|[-> ->]];
    destruct (fst s1 =? 0); destruct (fst s2 =? 0); simpl;
      repeat split; lia.
Qed.

(** A run without rollover prints nothing and accumulates, per sensor and
    per phase, the sum of the accepted values; the counts are those of
    sensor 1. *)
Lemma run_without_rollover : forall (ins : list (TickIn (F := F))) (st : State),
    (forall i, In i ins -> u64_sub (now i) t0 / SQ_PERIOD_MS = last_cycle st) ->
    exists st',
      main_loop t0 ins st = ([], inr st')
      /\ low1 st' = fold_left dadd (accepted t0 drv1 T_LOW_C ins) (low1 st)
      /\ high1 st' = fold_left dadd (accepted t0 drv1 T_HIGH_C ins) (high1 st)
      /\ low2 st' = fold_left dadd (accepted t0 drv2 T_LOW_C ins) (low2 st)
      /\ high2 st' = fold_left dadd (accepted t0 drv2 T_HIGH_C ins) (high2 st)
      /\ lowc st' = lowc st + Z.of_nat (length (accepted t0 drv1 T_LOW_C ins))
      /\ highc st' = highc st + Z.of_nat (length (accepted t0 drv1 T_HIGH_C ins))
      /\ last_cycle st' = last_cycle st.
Proof.
  induction ins as [|i ins IH]; intros st Hsame.
  - exists st; simpl; repeat split; lia.
  - destruct (accumulate_accepted st i) as (Hl1 & Hh1 & Hl2 & Hh2 & Hlc & Hhc & Hlast).
    set (acc := accumulate st (heater_at (u64_sub (now i) t0))
                           (fst (sample_once (drv1 i) (of_int 0)) =? 0)
                           (fst (sample_once (drv2 i) (of_int 0)) =? 0)
                           (snd (sample_once (drv1 i) (of_int 0)))
                           (snd (sample_once (drv2 i) (of_int 0)))) in *.
    set (st1 := mk_state (low1 acc) (high1 acc) (low2 acc) (high2 acc)
                         (lowc acc) (highc acc) (last_cycle st)
                         (u64_add (next st) TS_MS)).
    assert (Htick : main_tick t0 st i = Continue st1 []).
    { unfold main_tick; fold acc.
      rewrite (Hsame i) by now left.
      rewrite Z.eqb_refl; reflexivity. }
    destruct (IH st1) as (st' & Hrun & Il1 & Ih1 & Il2 & Ih2 & Ilc & Ihc & Ilast).
    { intros j Hj; simpl; apply Hsame; now right. }
    exists st'; unfold main_loop in *; simpl run_loop; rewrite Htick, Hrun.
    split; [reflexivity|].
    change (i :: ins) with ([i] ++ ins).
    rewrite !accepted_app, !fold_left_app, !length_app, !Nat2Z.inj_add.
    simpl in Il1, Ih1, Il2, Ih2, Ilc, Ihc, Ilast.
    rewrite Il1, Ih1, Il2, Ih2, Ilc, Ihc, Ilast, Hl1, Hh1, Hl2, Hh2, Hlc, Hhc.
    repeat split; lia.
Qed.

(** Sensor 1: over a period that starts with empty accumulators, the ratio
    printed at the rollover is the quotient of the mean of the values
    accepted at the high set-point by the mean of those accepted at the low
    set-point.  Sensor 2: the sums are those of its own accepted values, but
    they are divided by the counts of sensor 1. *)
Lemma ratios_at_rollover : forall (pre : list (TickIn (F := F))) last (st : State),
    low1 st = of_int 0 -> high1 st = of_int 0 ->
    low2 st = of_int 0 -> high2 st = of_int 0 ->
    lowc st = 0 -> highc st = 0 ->
    (forall i, In i pre -> u64_sub (now i) t0 / SQ_PERIOD_MS = last_cycle st) ->
    u64_sub (now last) t0 / SQ_PERIOD_MS <> last_cycle st ->
    accepted t0 drv1 T_LOW_C (pre ++ [last]) <> [] ->
    accepted t0 drv1 T_HIGH_C (pre ++ [last]) <> [] ->
    let out := fst (main_loop t0 (pre ++ [last]) st) in
    ratios_of ADDR1 out = [spec_ratio t0 drv1 (pre ++ [last])]
    /\ ratios_of ADDR2 out
       = [ratio_of (sum_of (accepted t0 drv2 T_HIGH_C (pre ++ [last])))
                   (Z.of_nat (length (accepted t0 drv1 T_HIGH_C (pre ++ [last]))))
                   (sum_of (accepted t0 drv2 T_LOW_C (pre ++ [last])))
                   (Z.of_nat (length (accepted t0 drv1 T_LOW_C (pre ++ [last]))))].
Proof.
  intros pre last st Zl1 Zh1 Zl2 Zh2 Zlc Zhc Hsame Hroll Hlow Hhigh out.
  destruct (run_without_rollover pre st Hsame)
    as (st1 & Hrun & Il1 & Ih1 & Il2 & Ih2 & Ilc & Ihc & Ilast).
  destruct (accumulate_accepted st1 last) as (Hl1 & Hh1 & Hl2 & Hh2 & Hlc & Hhc & _).
  set (acc := accumulate st1 (heater_at (u64_sub (now last) t0))
                         (fst (sample_once (drv1 last) (of_int 0)) =? 0)
                         (fst (sample_once (drv2 last) (of_int 0)) =? 0)
                         (snd (sample_once (drv1 last) (of_int 0)))
                         (snd (sample_once (drv2 last) (of_int 0)))) in *.
  assert (Al1 : low1 acc = sum_of (accepted t0 drv1 T_LOW_C (pre ++ [last])))
    by (unfold sum_of; rewrite accepted_app, fold_left_app, Hl1, Il1, Zl1; reflexivity).
  assert (Ah1 : high1 acc = sum_of (accepted t0 drv1 T_HIGH_C (pre ++ [last])))
    by (unfold sum_of; rewrite accepted_app, fold_left_app, Hh1, Ih1, Zh1; reflexivity).
  assert (Al2 : low2 acc = sum_of (accepted t0 drv2 T_LOW_C (pre ++ [last])))
    by (unfold sum_of; rewrite accepted_app, fold_left_app, Hl2, Il2, Zl2; reflexivity).
  assert (Ah2 : high2 acc = sum_of (accepted t0 drv2 T_HIGH_C (pre ++ [last])))
    by (unfold sum_of; rewrite accepted_app, fold_left_app, Hh2, Ih2, Zh2; reflexivity).
  assert (Alc : lowc acc = Z.of_nat (length (accepted t0 drv1 T_LOW_C (pre ++ [last]))))
    by (rewrite accepted_app, length_app, Nat2Z.inj_add, Hlc, Ilc, Zlc; lia).
  assert (Ahc : highc acc = Z.of_nat (length (accepted t0 drv1 T_HIGH_C (pre ++ [last]))))
    by (rewrite accepted_app, length_app, Nat2Z.inj_add, Hhc, Ihc, Zhc; lia).
  destruct (Forced2GasRatioFacts.main_tick_rollover t0 st1 last) as [st2 Htick].
  - now rewrite Ilast.
  - fold acc; rewrite Alc.
    destruct (accepted t0 drv1 T_LOW_C (pre ++ [last])); [congruence|simpl; lia].
  - fold acc; rewrite Ahc.
    destruct (accepted t0 drv1 T_HIGH_C (pre ++ [last])); [congruence|simpl; lia].
  - fold acc in Htick.
    subst out; unfold main_loop in *.
    rewrite run_loop_app, Hrun; simpl run_loop; rewrite Htick.
    cbn [fst app ratios_of flat_map]; unfold ADDR1, ADDR2; simpl Z.eqb; cbn [app].
    rewrite Al1, Ah1, Al2, Ah2, Alc, Ahc; split; reflexivity.
Qed.
End AnyDouble.
End RatioAccumulators.

(* ------------------------------------------------------------------ *)
(** ** The deadline of forced_sweep_2 over a whole run *)

Module SweepDeadline.
Import ForcedSweep2.
Section AnyDouble.
Context {F : Type} {DO : DoubleOps F}.

(** The deadline counts the passes made, whatever the clock shows. *)
Lemma segment_loop_next : forall fuel (E : Env (F := F)) t0 half_ms seg_start st out st',
    segment_loop fuel E t0 half_ms seg_start st = (out, Some st') ->
    (passes st <= passes st')%nat
    /\ u64 (next st')
       = u64 (next st + (Z.of_nat (passes st') - Z.of_nat (passes st)) * TS_MS)
    /\ (passes st' = passes st -> next st' = next st)
    /\ (passes st' <> passes st -> u64 (next st') = next st').
Proof.
  induction fuel as [|fuel IH]; intros E t0 half_ms seg_start st out st';
    cbn [segment_loop].
  - destruct (_ <? _); [discriminate|].
    intros [= _ <-]; repeat split; try lia; try congruence.
    f_equal; lia.
  - destruct (_ <? _).
    + cbv zeta.
      destruct (segment_loop fuel E t0 half_ms seg_start
                             (snd (tick E t0 half_ms seg_start st)))
        as [o [s|]] eqn:Hrec; cbn [fst snd]; [|discriminate].
      intros [= _ <-].
      apply IH in Hrec; cbn [tick snd next passes] in Hrec.
      destruct Hrec as (Hle & Hnext & Hsame & Hother).
      split; [lia|]; split; [|split].
      * rewrite Hnext; unfold u64_add, u64.
        rewrite Zplus_mod_idemp_l; f_equal; lia.
      * intros Heq; lia.
      * intros _.
        destruct (Nat.eq_dec (passes s) (Datatypes.S (passes st))) as [Heq|Hne].
        -- rewrite (Hsame Heq); unfold u64_add, u64; apply Zmod_mod.
        -- apply Hother; exact Hne.
    + intros [= _ <-]; repeat split; try lia; try congruence.
      f_equal; lia.
Qed.

Lemma sweep_next : forall halves fuel (E : Env (F := F)) t0 i st out st',
    u64 (next st) = next st ->
    sweep fuel E t0 halves i st = (out, Some st') ->
    (passes st <= passes st')%nat
    /\ next st'
       = u64 (next st + (Z.of_nat (passes st') - Z.of_nat (passes st)) * TS_MS).
Proof.
  induction halves as [|h rest IH]; intros fuel E t0 i st out st' Hn; simpl.
  - intros [= _ <-]; split; [lia|].
    rewrite <- Hn at 1; f_equal; lia.
  - destruct (segment_loop fuel E t0 h _ _) as [o [s|]] eqn:Hseg;
      cbn [fst snd]; [|discriminate].
    destruct (sweep fuel E t0 rest (Datatypes.S i) s) as [o' [s'|]] eqn:Hrest;
      cbn [fst snd]; [|discriminate].
    intros [= _ <-].
    apply segment_loop_next in Hseg; cbn [next passes] in Hseg.
    destruct Hseg as (Hle & Hnext & Hsame & Hother).
    assert (Hs : u64 (next s) = next s).
    { destruct (Nat.eq_dec (passes s) (passes st)) as [Heq|Hne];
        [rewrite (Hsame Heq); exact Hn | exact (Hother Hne)]. }
    apply IH in Hrest; [|exact Hs].
    destruct Hrest as (Hle' & Hnext').
    split; [lia|].
    rewrite Hnext', <- Hs, Hnext; unfold u64.
    rewrite Zplus_mod_idemp_l; f_equal; lia.
Qed.

Lemma main_over_next : forall halves fuel (E : Env (F := F)) c0 out st',
    main_over halves fuel E c0 = (out, Some st') ->
    next st' = u64 (u64 c0 + Z.of_nat (passes st') * TS_MS).
Proof.
  intros halves fuel E c0 out st'; unfold main_over.
  destruct (sweep fuel E (u64 c0) halves 0 _) as [o r] eqn:Hrun; cbn [fst snd].
  intros [= _ ->].
  apply sweep_next in Hrun; [|cbn [next]; unfold u64; apply Zmod_mod].
  cbn [next passes] in Hrun; destruct Hrun as [_ ->]; f_equal; lia.
Qed.
End AnyDouble.
End SweepDeadline.

(** C9, as stated, fails on the rolling hysteresis program: its deadline is
    set to the current clock reading at the top of every pass of
    [while (1)].  With a first pass started at clock reading 0 and the
    second one at 2007 (7 ms after the last deadline of the first), the
    deadline after the 80 ticks of the two passes is 4007, not
    [0 + 80 * SUB_MS = 4000]. *)
Lemma C9_counterexample :
  match snd (HystFFT.main_loop [Inputs.good_cycle] HystFFT.init) with
  | inr st1 =>
      match HystFFT.sample_steps st1 Inputs.late_cycle with
      | inr (_, _, next) =>
          next = 4007
          /\ next <> HystFFT.t_start Inputs.good_cycle + 80 * HystFFT.SUB_MS
      | inl _ => False
      end
  | inl _ => False
  end.
Proof. vm_compute; split; [reflexivity|discriminate]. Qed.

(** C9, amended.  In forced_2_gas, forced_2_fft, forced_2_gas_ratio and
    forced_sweep_2 the deadline is set once, to the clock reading [t0] taken
    before the loop, and every pass replaces it by the previous deadline plus
    the tick interval, whatever the clock shows and whatever the driver
    answers; so after any number of passes the deadline is [t0] plus that
    number times the interval (in [uint64_t] milliseconds: below 2^64 for
    the first three, modulo 2^64 for the sweep, whose deadline runs on
    through all its segments).  In the rolling hysteresis program every
    accepted sample advances the deadline by [SUB_MS] as well, but the
    deadline is set anew from the clock at the top of every pass of
    [while (1)]: after the [2 * S] ticks of a pass it is the clock reading
    taken at the top of that pass plus [2 * S * SUB_MS], whatever the passes
    before did. *)
Theorem C9_deadline_is_start_plus_ticks :
  forall (F : Type) (DO : DoubleOps F) (MO : MathOps F) (t0 : Z)
         (gas_ticks : list (Forced2Gas.TickIn (F := F)))
         (fft_ticks : list (Forced2FFT.TickIn (F := F)))
         (ratio_ticks : list (Forced2GasRatio.TickIn (F := F))),
    0 <= t0 ->
    t0 + Z.of_nat (length gas_ticks) * Forced2Gas.SAMPLE_MS < 2 ^ 64 ->
    t0 + Z.of_nat (length fft_ticks) * Forced2FFT.TS_MS < 2 ^ 64 ->
    t0 + Z.of_nat (length ratio_ticks) * Forced2GasRatio.TS_MS < 2 ^ 64 ->
    (forall st (i : Forced2Gas.TickIn (F := F)), exists st' out,
          Forced2Gas.main_tick t0 st i = Continue st' out
          /\ Forced2Gas.next st' = u64_add (Forced2Gas.next st) Forced2Gas.SAMPLE_MS)
    /\ (forall st (i : Forced2FFT.TickIn (F := F)), exists st' out,
           Forced2FFT.main_tick t0 st i = Continue st' out
           /\ Forced2FFT.next_tick st'
              = u64_add (Forced2FFT.next_tick st) Forced2FFT.TS_MS)
    /\ (forall st (i : Forced2GasRatio.TickIn (F := F)), exists st' out,
           Forced2GasRatio.main_tick t0 st i = Continue st' out
           /\ Forced2GasRatio.next st'
              = u64_add (Forced2GasRatio.next st) Forced2GasRatio.TS_MS)
    /\ (exists out st',
           Forced2Gas.main_loop t0 gas_ticks (Forced2Gas.init t0) = (out, inr st')
           /\ Forced2Gas.next st'
              = t0 + Z.of_nat (length gas_ticks) * Forced2Gas.SAMPLE_MS)
    /\ (exists out st',
           Forced2FFT.main_loop t0 fft_ticks (Forced2FFT.init t0) = (out, inr st')
           /\ Forced2FFT.next_tick st'
              = t0 + Z.of_nat (length fft_ticks) * Forced2FFT.TS_MS)
    /\ (exists out st',
           Forced2GasRatio.main_loop t0 ratio_ticks (Forced2GasRatio.init t0)
           = (out, inr st')
           /\ Forced2GasRatio.next st'
              = t0 + Z.of_nat (length ratio_ticks) * Forced2GasRatio.TS_MS)
    /\ (forall (E : ForcedSweep2.Env (F := F)) half_ms seg_start st,
           ForcedSweep2.next (snd (ForcedSweep2.tick E t0 half_ms seg_start st))
           = u64_add (ForcedSweep2.next st) ForcedSweep2.TS_MS)
    /\ (forall halves fuel (E : ForcedSweep2.Env (F := F)) c0 out st',
           ForcedSweep2.main_over halves fuel E c0 = (out, Some st') ->
           ForcedSweep2.next st'
           = u64 (u64 c0 + Z.of_nat (ForcedSweep2.passes st') * ForcedSweep2.TS_MS))
    /\ (forall (st : HystFFT.State (F := F)) (c : HystFFT.CycleIn (F := F)),
           0 <= HystFFT.t_start c < 2 ^ 64 ->
           HystFFTSpec.cycle_ok c ->
           exists low' high',
             HystFFT.sample_steps st c
             = inr (low', high',
                    u64 (HystFFT.t_start c + 2 * HystFFT.S * HystFFT.SUB_MS))).
Proof.
  intros F DO MO t0 gas_ticks fft_ticks ratio_ticks Ht0 Hgas Hfft Hratio.
  assert (Hg0 : 0 <= Z.of_nat (length gas_ticks) * Forced2Gas.SAMPLE_MS)
    by (unfold Forced2Gas.SAMPLE_MS; lia).
  assert (Hf0 : 0 <= Z.of_nat (length fft_ticks) * Forced2FFT.TS_MS)
    by (unfold Forced2FFT.TS_MS; lia).
  assert (Hr0 : 0 <= Z.of_nat (length ratio_ticks) * Forced2GasRatio.TS_MS)
    by (unfold Forced2GasRatio.TS_MS; lia).
  repeat apply conj.
  - intros st i.
    destruct (Forced2GasFacts.gas_tick_continues t0 st i) as [out ->].
    do 2 eexists; split; reflexivity.
  - intros st i.
    destruct (Forced2FFTFacts.fft_tick_continues t0 st i)
      as (st' & out & -> & Hnx & _).
    do 2 eexists; split; [reflexivity|exact Hnx].
  - intros st i.
    destruct (Forced2GasRatioFacts.ratio_tick_continues t0 st i)
      as (st' & out & -> & Hnx).
    do 2 eexists; split; [reflexivity|exact Hnx].
  - destruct (Forced2GasFacts.gas_loop_deadline t0 gas_ticks)
      as (out & st' & Hrun & Hnx & _); [lia|].
    exists out, st'; split; [exact Hrun|].
    rewrite Hnx; apply u64_small; lia.
  - destruct (Forced2FFTFacts.fft_loop_deadline t0 fft_ticks)
      as (out & st' & Hrun & Hnx); [lia|].
    exists out, st'; split; [exact Hrun|].
    rewrite Hnx; apply u64_small; lia.
  - destruct (Forced2GasRatioFacts.ratio_loop_deadline t0 ratio_ticks)
      as (out & st' & Hrun & Hnx); [lia|].
    exists out, st'; split; [exact Hrun|].
    rewrite Hnx; apply u64_small; lia.
  - intros E half_ms seg_start st; reflexivity.
  - intros halves fuel E c0 out st' Hrun.
    exact (SweepDeadline.main_over_next halves fuel E c0 out st' Hrun).
  - intros st c Ht Hok.
    destruct (HystFFTFacts.step_loop_all_ok (HystFFT.low_drv c) (HystFFT.low st)
                                            (HystFFT.t_start c))
      as [[low' n1] Hlow]; [intros i Hi; apply (Hok i Hi)|].
    destruct (HystFFTFacts.step_loop_all_ok (HystFFT.high_drv c) (HystFFT.high st) n1)
      as [[high' n2] Hhigh]; [intros i Hi; apply (Hok i Hi)|].
    assert (Hrun : HystFFT.sample_steps st c = inr (low', high', n2))
      by (unfold HystFFT.sample_steps; rewrite Hlow, Hhigh; reflexivity).
    exists low', high'; rewrite Hrun; do 2 f_equal.
    exact (HystFFTFacts.sample_steps_deadline st c low' high' n2 Ht Hrun).
Qed.

Lemma C9_deadline_is_start_plus_ticks_witness :
  0 <= 1000
  /\ exists out st',
      Forced2Gas.main_loop 1000 [Forced2Gas.mk_tick (reading 5%R) no_fields 1020]
                           (Forced2Gas.init 1000) = (out, inr st')
      /\ Forced2Gas.next st' = 1000 + 1 * 200.
Proof.
  split; [lia|].
  destruct (C9_deadline_is_start_plus_ticks R RealOps RealMath 1000
              [Forced2Gas.mk_tick (reading 5%R) no_fields 1020] [] [])
    as (_ & _ & _ & H & _).
  - lia.
  - vm_compute; reflexivity.
  - vm_compute; reflexivity.
  - vm_compute; reflexivity.
  - exact H.
Defined.

(* ------------------------------------------------------------------ *)
(** ** The spectrum of a constant window in binary64

    In IEEE arithmetic the mean computed for a window of equal samples need
    not be their common value.  When it is, every mean-subtracted sample is
    [+0], and so are [re], [im] and the magnitude of every bin, for any
    [cos] and [sin] whose values at the angles of the bin are finite. *)

Module Binary64Spectrum.
Import Spectral.
Import SpecFloat FloatOps FloatAxioms.

Lemma Prim2SF_inj : forall x y, Prim2SF x = Prim2SF y -> x = y.
Proof.
  intros x y H; rewrite <- (SF2Prim_Prim2SF x), <- (SF2Prim_Prim2SF y); now f_equal.
Qed.

Lemma sub_self : forall c, Binary64.finite c -> PrimFloat.sub c c = of_int 0.
Proof.
  intros c Hc; apply Prim2SF_inj; rewrite sub_spec.
  unfold Binary64.finite in Hc.
  destruct (Prim2SF c) as [s|s| |s m e]; try contradiction.
  - destruct s; reflexivity.
  - unfold SF64sub, SFsub; cbv zeta; rewrite Z.sub_diag; reflexivity.
Qed.

Lemma add_zero_mul_zero : forall y,
    Binary64.finite y ->
    PrimFloat.add (of_int 0) (PrimFloat.mul (of_int 0) y) = of_int 0.
Proof.
  intros y Hy; apply Prim2SF_inj; rewrite add_spec, mul_spec.
  unfold Binary64.finite in Hy.
  destruct (Prim2SF y) as [s|s| |s m e]; try contradiction; destruct s; reflexivity.
Qed.

(** [(double)N] for an integer [0 < N < 2^53]: the conversion shifts the
    mantissa to 53 digits and rounds nothing. *)
Lemma digits2_shift : forall d p,
    digits2_pos (Pos.iter xO p d) = (digits2_pos p + d)%positive.
Proof.
  intros d p; apply Pos.iter_ind.
  - simpl; now rewrite Pos.add_1_r.
  - intros q a IH; simpl; now rewrite IH, Pos.add_succ_r.
Qed.

Lemma digits2_size : forall p, digits2_pos p = Pos.size p.
Proof. induction p; simpl; now rewrite ?IHp. Qed.

Lemma digits2_bound : forall p, Z.pos p < 2 ^ 53 -> Z.pos (digits2_pos p) <= 53.
Proof.
  intros p Hp; rewrite digits2_size.
  pose proof (Pos.size_le p) as Hle.
  assert (H : 2 ^ Z.pos (Pos.size p) <= 2 * Z.pos p).
  { rewrite <- Pos2Z.inj_pow. change (2 * Z.pos p) with (Z.pos p~0).
    now apply Pos2Z.pos_le_pos. }
  assert (Hlt : 2 ^ Z.pos (Pos.size p) < 2 ^ 54)
    by (change (2 ^ 54) with (2 * 2 ^ 53); lia).
  apply Z.pow_lt_mono_r_iff in Hlt; lia.
Qed.

Lemma round_aux_exact : forall mz ez,
    digits2_pos mz = 53%positive -> -52 <= ez <= 0 ->
    binary_round_aux prec emax false (Z.pos mz) ez loc_Exact = S754_finite false mz ez.
Proof.
  intros mz ez Hd He.
  unfold binary_round_aux, shr_fexp, Zdigits2; rewrite Hd.
  assert (Hf : fexp prec emax (53 + ez) - ez = 0)
    by (unfold fexp, emin, prec, emax; lia).
  rewrite Hf; cbn [shr shr_record_of_loc shr_m loc_of_shr_record round_nearest_even].
  unfold Zdigits2; rewrite Hd, Hf; cbn [shr shr_record_of_loc shr_m].
  replace (ez <=? emax - prec) with true; [reflexivity|].
  symmetry; apply Z.leb_le; unfold emax, prec; lia.
Qed.

Lemma of_int_positive : forall N,
    0 < N < 2 ^ 53 ->
    exists m e, Prim2SF (float_of_int N) = S754_finite false m e.
Proof.
  intros N HN; unfold float_of_int.
  rewrite (proj2 (Z.ltb_ge N 0)) by lia.
  rewrite of_uint63_spec, Uint63.of_Z_spec.
  rewrite Z.mod_small by (change Uint63.wB with (2 ^ 63); lia).
  destruct N as [|p|p]; try lia.
  unfold binary_normalize, binary_round.
  pose proof (digits2_bound p ltac:(lia)) as Hd.
  assert (Hf : fexp prec emax (Z.pos (digits2_pos p) + 0) = Z.pos (digits2_pos p) - 53)
    by (unfold fexp, emin, prec, emax; lia).
  rewrite Hf; unfold shl_align.
  destruct (Z.pos (digits2_pos p) - 53 - 0) as [|q|q] eqn:Hq; try lia.
  - do 2 eexists; apply round_aux_exact; lia.
  - do 2 eexists; apply round_aux_exact; [|lia].
    rewrite digits2_shift; lia.
Qed.

(** [0.0 / (double)N] is [+0.0]. *)
Lemma zero_over_int : forall N,
    0 < N < 2 ^ 53 -> PrimFloat.div (of_int 0) (of_int N) = of_int 0.
Proof.
  intros N HN.
  destruct (of_int_positive N HN) as (m & e & Hm).
  rewrite <- (SF2Prim_Prim2SF (PrimFloat.div _ _)), div_spec.
  cbn [of_int FloatOps]; rewrite Hm.
  vm_compute; reflexivity.
Qed.

Section ConstantWindow.
Variables cos sin : PrimFloat.float -> PrimFloat.float.
Variable x : list PrimFloat.float.
Variable N : Z.
Variable c : PrimFloat.float.
Variable k : Z.
Hypothesis N_range : 0 < N < 2 ^ 53.
Hypothesis c_finite : Binary64.finite c.
Hypothesis x_const : forall n, 0 <= n < N -> aget (of_int 0) x n = c.
Hypothesis mean_exact : dft_mean x N = c.
Hypothesis trig_finite : forall n,
    0 <= n < N ->
    Binary64.finite (cos (SpectralSpec.angle (MO := Binary64.math_ops cos sin) N k n))
    /\ Binary64.finite (sin (SpectralSpec.angle (MO := Binary64.math_ops cos sin) N k n)).

Lemma dft_acc_binary64 :
  dft_acc (MO := Binary64.math_ops cos sin) x N (dft_mean x N) k
  = (of_int 0, of_int 0).
Proof.
  unfold dft_acc; apply for_range_ind.
  - reflexivity.
  - intros n acc Hn ->.
    destruct (trig_finite n Hn) as [Hcos Hsin].
    unfold SpectralSpec.angle in Hcos, Hsin.
    cbn [fst snd dadd dsub dmul dcos dsin FloatOps Binary64.math_ops] in *.
    rewrite x_const, mean_exact, sub_self by (exact Hn || exact c_finite).
    now rewrite !add_zero_mul_zero.
Qed.

Lemma dft_bin_binary64 :
  dft_bin (MO := Binary64.math_ops cos sin) x N (dft_mean x N) k = of_int 0.
Proof.
  unfold dft_bin; rewrite dft_acc_binary64.
  cbn [fst snd ddiv dadd dmul dsqrt FloatOps Binary64.math_ops].
  change (PrimFloat.div (float_of_int 0) (float_of_int N))
    with (PrimFloat.div (of_int 0) (of_int N)).
  rewrite zero_over_int by exact N_range; vm_compute; reflexivity.
Qed.
End ConstantWindow.

(** The angles of the forty-sample window of forced_2_fft are finite. *)
Lemma angles_finite_40 : forall cos sin k n,
    1 <= k <= 20 -> 0 <= n < 40 ->
    Binary64.finite (SpectralSpec.angle (MO := Binary64.math_ops cos sin) 40 k n).
Proof.
  intros cos sin k n Hk Hn.
  assert (Hk' : In k (zrange 1 20)) by (apply zrange_In; simpl; lia).
  assert (Hn' : In n (zrange 0 40)) by (apply zrange_In; simpl; lia).
  revert n Hn' Hn; revert k Hk' Hk.
  refine (proj1 (Forall_forall _ _) _).
  repeat (apply Forall_cons; [intros _; refine (proj1 (Forall_forall _ _) _);
      repeat (apply Forall_cons; [intros _; vm_compute; exact I|]); apply Forall_nil|]).
  apply Forall_nil.
Qed.

(** The window of forty samples at the largest resistance: its mean is
    computed exactly, so its spectrum is null in binary64 for any libm whose
    [cos] and [sin] are finite at finite arguments. *)
Example flat_window_null : forall cos sin,
    (forall a, Binary64.finite a -> Binary64.finite (cos a)) ->
    (forall a, Binary64.finite a -> Binary64.finite (sin a)) ->
    forall k, 1 <= k <= 20 ->
      aget (of_int 0)
           (dft_mags_dc_removed (MO := Binary64.math_ops cos sin) Inputs.flat_window 40) k
      = of_int 0.
Proof.
  intros cos sin Hcos Hsin k Hk.
  rewrite SpectralFacts.dft_mags_dc_removed_nth
    by (change (Z.quot 40 2) with 20; lia).
  apply (dft_bin_binary64 cos sin Inputs.flat_window 40 (of_int 4294967295) k).
  - lia.
  - vm_compute; exact I.
  - intros n Hn; unfold aget, Inputs.flat_window.
    rewrite nth_indep with (d' := of_int 4294967295) by (rewrite repeat_length; lia).
    apply nth_repeat.
  - vm_compute; reflexivity.
  - intros n Hn; split; [apply Hcos|apply Hsin]; now apply angles_finite_40.
Qed.
End Binary64Spectrum.

Section Binary64Literals.
Import PrimFloat.

(** C8, as stated, fails in the arithmetic of the programs: the mean computed
    for the window [0.1, 0.1, 0.1] is 0.10000000000000002 (the sum rounds to
    0.30000000000000004), every mean-subtracted sample is [-2^-56], and with
    the values that a correctly rounding [cos] and [sin] return at the three
    angles of bin 1 the magnitude of that bin is 0x1.33ac782eb914dp-109,
    about 1.85e-33, not 0. *)
Lemma C8_counterexample :
  let x := [0x1.999999999999ap-4; 0x1.999999999999ap-4; 0x1.999999999999ap-4]%float in
  (forall n, 0 <= n < 3 -> aget (of_int 0) x n = 0x1.999999999999ap-4%float)
  /\ Spectral.dft_mean x 3 = 0x1.999999999999bp-4%float
  /\ forall cos sin : PrimFloat.float -> PrimFloat.float,
      cos (-0)%float = 1%float ->
      sin (-0)%float = (-0)%float ->
      cos (-0x1.0c152382d7365p+1)%float = (-0x1.ffffffffffffcp-2)%float ->
      sin (-0x1.0c152382d7365p+1)%float = (-0x1.bb67ae8584cabp-1)%float ->
      cos (-0x1.0c152382d7365p+2)%float = (-0x1.0000000000004p-1)%float ->
      sin (-0x1.0c152382d7365p+2)%float = 0x1.bb67ae8584ca8p-1%float ->
      aget (of_int 0)
           (Spectral.dft_mags_dc_removed (MO := Binary64.math_ops cos sin) x 3) 1
      = 0x1.33ac782eb914dp-109%float
      /\ aget (of_int 0)
              (Spectral.dft_print_mags (MO := Binary64.math_ops cos sin) x 3) 0
         = 0x1.33ac782eb914dp-109%float
      /\ 0x1.33ac782eb914dp-109%float <> of_int 0.
Proof.
  cbv zeta; split; [|split].
  - intros n Hn.
    assert (H : n = 0 \/ n = 1 \/ n = 2) by lia.
    destruct H as [-> | [-> | ->]]; reflexivity.
  - vm_compute; reflexivity.
  - intros cos sin C0 S0 C1 S1 C2 S2.
    vm_compute in C0, S0, C1, S1, C2, S2.
    split; [|split].
    + vm_compute; rewrite C0, S0, C1, S1, C2, S2; vm_compute; reflexivity.
    + vm_compute; rewrite C0, S0, C1, S1, C2, S2; vm_compute; reflexivity.
    + intros H; apply (f_equal (fun f => PrimFloat.eqb f 0%float)) in H.
      vm_compute in H; discriminate.
Qed.
End Binary64Literals.

(** C8, amended.  In binary64, for a window of [N] samples ([N] an [int])
    that are all equal to a finite value [c] and whose mean, computed as the
    programs compute it, is again [c]: the magnitude is 0 at every non-DC
    bin [k = 1 .. N/2], in the spectrum filled by [dft_mags_dc_removed] and
    in the one printed by [dft_print], for any [cos] and [sin] that return
    finite values at the angles of the bin. *)
Theorem C8_constant_window_null_when_mean_exact :
  forall (cos sin : PrimFloat.float -> PrimFloat.float)
         (x : list PrimFloat.float) (N : Z) (c : PrimFloat.float) (k : Z),
    0 < N < 2 ^ 31 ->
    1 <= k <= N / 2 ->
    Binary64.finite c ->
    (forall n, 0 <= n < N -> aget (of_int 0) x n = c) ->
    Spectral.dft_mean x N = c ->
    (forall n, 0 <= n < N ->
       Binary64.finite
         (cos (SpectralSpec.angle (MO := Binary64.math_ops cos sin) N k n))
       /\ Binary64.finite
            (sin (SpectralSpec.angle (MO := Binary64.math_ops cos sin) N k n))) ->
    aget (of_int 0)
         (Spectral.dft_mags_dc_removed (MO := Binary64.math_ops cos sin) x N) k
    = of_int 0
    /\ aget (of_int 0)
            (Spectral.dft_print_mags (MO := Binary64.math_ops cos sin) x N) (k - 1)
       = of_int 0.
Proof.
  intros cos sin x N c k HN Hk Hc Hx Hmean Htrig.
  assert (Hq : Z.quot N 2 = N / 2) by (apply Z.quot_div_nonneg; lia).
  rewrite SpectralFacts.dft_mags_dc_removed_nth by lia.
  rewrite SpectralFacts.dft_print_mags_nth by lia.
  assert (Hbin : Spectral.dft_bin (MO := Binary64.math_ops cos sin) x N
                                  (Spectral.dft_mean x N) k = of_int 0).
  { apply (Binary64Spectrum.dft_bin_binary64 cos sin x N c k); try assumption; lia. }
  split; exact Hbin.
Qed.

Lemma C8_constant_window_null_when_mean_exact_witness :
  aget (of_int 0)
       (Spectral.dft_mags_dc_removed
          (MO := Binary64.math_ops (fun _ => of_int 1) (fun _ => of_int 0))
          Inputs.flat_window 40) 1
  = of_int 0.
Proof.
  refine (proj1 (C8_constant_window_null_when_mean_exact
                   (fun _ => of_int 1) (fun _ => of_int 0)
                   Inputs.flat_window 40 (of_int 4294967295) 1 _ _ _ _ _ _)).
  - lia.
  - change (40 / 2) with 20; lia.
  - vm_compute; exact I.
  - intros n Hn; unfold aget, Inputs.flat_window.
    rewrite nth_indep with (d' := of_int 4294967295) by (rewrite repeat_length; lia).
    apply nth_repeat.
  - vm_compute; reflexivity.
  - intros n Hn; split; vm_compute; exact I.
Defined.

(* ------------------------------------------------------------------ *)
(** ** Time: the clock in milliseconds and the waits *)

Module ClockFacts.
Import Clock.

Lemma monotonic_ms_floor : forall t,
    normalized t -> ns_of t / 1000000 < 2 ^ 64 ->
    monotonic_ms t = ns_of t / 1000000.
Proof.
  intros [s n] [Hs Hn]; unfold ns_of, monotonic_ms; simpl in *; intros Hlt.
  assert (Hsplit : (s * 1000000000 + n) / 1000000 = s * 1000 + n / 1000000).
  { replace (s * 1000000000 + n) with (s * 1000 * 1000000 + n) by lia.
    rewrite Z.div_add_l by lia; reflexivity. }
  rewrite Hsplit in *.
  assert (Hq : 0 <= n / 1000000) by (apply Z.div_pos; lia).
  rewrite (u64_small s) by lia.
  rewrite (u64_small (s * 1000)) by lia.
  rewrite (u64_small n) by lia.
  apply u64_small; lia.
Qed.

Lemma clock_gettime_normalized : forall ns, 0 <= ns -> normalized (clock_gettime ns).
Proof.
  intros ns Hns; unfold normalized, clock_gettime; simpl; split.
  - apply Z.div_pos; lia.
  - apply Z.mod_pos_bound; lia.
Qed.

Lemma ns_of_clock_gettime : forall ns, ns_of (clock_gettime ns) = ns.
Proof.
  intros ns; unfold ns_of, clock_gettime; simpl.
  rewrite (Z.div_mod ns 1000000000) at 3 by lia; lia.
Qed.

Lemma monotonic_ms_clock : forall ns,
    0 <= ns -> ns / 1000000 < 2 ^ 64 ->
    monotonic_ms (clock_gettime ns) = ns / 1000000.
Proof.
  intros ns Hns Hlt.
  rewrite monotonic_ms_floor; rewrite ?ns_of_clock_gettime; auto.
  now apply clock_gettime_normalized.
Qed.

Lemma sleep_request_ns : forall target now,
    0 <= now < target -> target < 2 ^ 64 ->
    normalized (sleep_request target now)
    /\ ns_of (sleep_request target now) = (target - now) * 1000000.
Proof.
  intros target now Hnow Ht; unfold sleep_request, normalized, ns_of; cbv zeta.
  cbn [tv_sec tv_nsec].
  assert (Hd : u64_sub target now = target - now)
    by (unfold u64_sub; apply u64_small; lia).
  rewrite Hd.
  pose proof (Z.mod_pos_bound (target - now) 1000 ltac:(lia)) as Hm.
  assert (Hq : 0 <= (target - now) / 1000) by (apply Z.div_pos; lia).
  rewrite u64_small by lia.
  pose proof (Z.div_mod (target - now) 1000 ltac:(lia)) as Hdm.
  repeat split; lia.
Qed.

End ClockFacts.

(** X1.  [monotonic_ms] counts whole milliseconds: on a reading of the
    clock in normal form (seconds not negative, nanoseconds below 10^9) that
    stands for [ns] nanoseconds it returns [floor (ns / 10^6)], as long as
    this fits [uint64_t]; so of two readings the later one never gives the
    smaller value. *)
Theorem monotonic_ms_counts_whole_milliseconds :
  forall t t' : Clock.timespec,
    Clock.normalized t -> Clock.normalized t' ->
    Clock.ns_of t <= Clock.ns_of t' ->
    Clock.ns_of t' / 1000000 < 2 ^ 64 ->
    Clock.monotonic_ms t = Clock.ns_of t / 1000000
    /\ Clock.monotonic_ms t' = Clock.ns_of t' / 1000000
    /\ Clock.monotonic_ms t <= Clock.monotonic_ms t'.
Proof.
  intros t t' Ht Ht' Hle Hlt.
  assert (Hdiv : Clock.ns_of t / 1000000 <= Clock.ns_of t' / 1000000)
    by (apply Z.div_le_mono; lia).
  rewrite !ClockFacts.monotonic_ms_floor by (auto; lia).
  auto.
Qed.

Lemma monotonic_ms_counts_whole_milliseconds_witness :
  Clock.monotonic_ms (Clock.mk_timespec 12 345678901) = 12345
  /\ Clock.monotonic_ms (Clock.mk_timespec 12 999999999) = 12999.
Proof.
  destruct (monotonic_ms_counts_whole_milliseconds
              (Clock.mk_timespec 12 345678901) (Clock.mk_timespec 12 999999999))
    as (H1 & H2 & _).
  - unfold Clock.normalized; simpl; lia.
  - unfold Clock.normalized; simpl; lia.
  - vm_compute; discriminate.
  - vm_compute; reflexivity.
  - split; [exact H1 | exact H2].
Defined.

(** X2.  The request that [sleep_until_ms] hands to [nanosleep] when the
    deadline lies ahead is a valid [timespec] (nanoseconds below 10^9) and it
    stands for exactly the milliseconds that remain: split into seconds and
    nanoseconds and read back as milliseconds, it gives [target_ms - now]. *)
Theorem sleep_request_encodes_remaining_time :
  forall target_ms now : Z,
    0 <= now < target_ms -> target_ms < 2 ^ 64 ->
    let ts := Clock.sleep_request target_ms now in
    0 <= Clock.tv_sec ts
    /\ 0 <= Clock.tv_nsec ts < 1000000000
    /\ Clock.ns_of ts = (target_ms - now) * 1000000
    /\ Clock.monotonic_ms ts = target_ms - now.
Proof.
  intros target now Hnow Ht ts.
  destruct (ClockFacts.sleep_request_ns target now Hnow Ht) as [[Hs Hn] Hns].
  fold ts in Hs, Hn, Hns.
  repeat split; try lia.
  rewrite ClockFacts.monotonic_ms_floor; rewrite ?Hns.
  - apply Z.div_mul; lia.
  - split; assumption.
  - rewrite Z.div_mul by lia; lia.
Qed.

Lemma sleep_request_encodes_remaining_time_witness :
  Clock.ns_of (Clock.sleep_request 5250 1000) = (5250 - 1000) * 1000000
  /\ Clock.monotonic_ms (Clock.sleep_request 5250 1000) = 5250 - 1000.
Proof.
  destruct (sleep_request_encodes_remaining_time 5250 1000) as (_ & _ & H1 & H2);
    [lia | lia | split; [exact H1 | exact H2]].
Defined.

(** X3.  [sleep_until_ms] returns at a clock reading that is not below the
    deadline.  If the deadline has been reached when it is called it returns
    at once, without calling [nanosleep]; otherwise, provided the nap lasts at
    least as long as requested, it returns after that single nap. *)
Theorem sleep_until_ms_returns_at_deadline :
  forall (fuel : nat) (nap : nat -> Clock.timespec -> Z) (target_ms ns : Z) (j : nat),
    0 <= ns -> ns / 1000000 < 2 ^ 64 -> 0 <= target_ms < 2 ^ 64 ->
    let now := Clock.monotonic_ms (Clock.clock_gettime ns) in
    let d := nap j (Clock.sleep_request target_ms now) in
    (now < target_ms ->
     Clock.ns_of (Clock.sleep_request target_ms now) <= d
     /\ (ns + d) / 1000000 < 2 ^ 64) ->
    exists ns' j',
      Clock.sleep_until_ms (S (S fuel)) nap target_ms ns j = Some (ns', j')
      /\ target_ms <= Clock.monotonic_ms (Clock.clock_gettime ns')
      /\ (target_ms <= now -> ns' = ns /\ j' = j)
      /\ (now < target_ms -> ns' = ns + d /\ j' = S j).
Proof.
  intros fuel nap target ns j Hns Hrange Ht now d Hnap.
  assert (Hnow : now = ns / 1000000)
    by (apply ClockFacts.monotonic_ms_clock; assumption).
  assert (H0 : 0 <= ns / 1000000) by (apply Z.div_pos; lia).
  cbn [Clock.sleep_until_ms]; fold now.
  destruct (now >=? target) eqn:Hcmp.
  - exists ns, j; fold now; repeat split; try lia.
  - assert (Hlt : now < target) by lia.
    destruct (Hnap Hlt) as [Hd Hfar]; fold d.
    destruct (ClockFacts.sleep_request_ns target now ltac:(lia) ltac:(lia)) as [_ Hreq].
    rewrite Hreq in Hd.
    assert (Hafter : target <= (ns + d) / 1000000).
    { apply Z.div_le_lower_bound; [lia|].
      pose proof (Z.mul_div_le ns 1000000 ltac:(lia)); lia. }
    assert (Hms : Clock.monotonic_ms (Clock.clock_gettime (ns + d)) = (ns + d) / 1000000)
      by (apply ClockFacts.monotonic_ms_clock; lia).
    rewrite Hms.
    destruct ((ns + d) / 1000000 >=? target) eqn:Hcmp2; [|lia].
    exists (ns + d), (S j); rewrite Hms; repeat split; lia.
Qed.

Lemma sleep_until_ms_returns_at_deadline_witness :
  exists ns' j',
    Clock.sleep_until_ms 2 (fun _ ts => Clock.ns_of ts + 70000) 5250 1000400000 0
    = Some (ns', j')
    /\ 5250 <= Clock.monotonic_ms (Clock.clock_gettime ns').
Proof.
  destruct (sleep_until_ms_returns_at_deadline
              0 (fun _ ts => Clock.ns_of ts + 70000) 5250 1000400000 0)
    as (ns' & j' & Hrun & Hms & _).
  - lia.
  - vm_compute; reflexivity.
  - lia.
  - intros _; vm_compute; split; [discriminate | reflexivity].
  - exists ns', j'; split; [exact Hrun | exact Hms].
Defined.

Module PollingFacts.
Import Clock.

Section Naps.
Variable nap : nat -> timespec -> Z.
Variable B : Z.
Variable target : Z.
Hypothesis nap_bounds : forall j, 500000 <= nap j Polling.nap_request <= B.
Hypothesis target_range : 0 <= target /\ target * 1000000 + B <= 2 ^ 64 * 1000000.

Lemma polling_terminates : forall (k : nat) ns j,
    0 <= ns -> ns / 1000000 < 2 ^ 64 ->
    target * 1000000 - ns <= 500000 * Z.of_nat k ->
    exists ns' j',
      (forall fuel, (k < fuel)%nat ->
                    Polling.sleep_until_ms fuel nap target ns j = Some (ns', j'))
      /\ target <= monotonic_ms (clock_gettime ns')
      /\ (j <= j' <= j + k)%nat
      /\ ns <= ns'
      /\ (ns < target * 1000000 -> ns' < target * 1000000 + B)
      /\ (target * 1000000 <= ns -> ns' = ns /\ j' = j).
Proof.
  induction k as [|k IH]; intros ns j Hns Hrange Hk.
  - assert (Hms : monotonic_ms (clock_gettime ns) = ns / 1000000)
      by (apply ClockFacts.monotonic_ms_clock; assumption).
    assert (Hge : target <= ns / 1000000)
      by (apply Z.div_le_lower_bound; lia).
    exists ns, j; repeat split; try lia.
    intros [|fuel] Hfuel; [lia|]; simpl.
    rewrite Hms; destruct (ns / 1000000 <? target) eqn:Hc; [lia|reflexivity].
  - assert (Hms : monotonic_ms (clock_gettime ns) = ns / 1000000)
      by (apply ClockFacts.monotonic_ms_clock; assumption).
    destruct (Z_lt_ge_dec (ns / 1000000) target) as [Hlt|Hge].
    + pose proof (nap_bounds j) as Hnap.
      assert (Hns_lt : ns < target * 1000000).
      { destruct (Z_lt_ge_dec ns (target * 1000000)) as [H|H]; [exact H|].
        assert (target <= ns / 1000000) by (apply Z.div_le_lower_bound; lia); lia. }
      destruct (IH (ns + nap j Polling.nap_request) (S j))
        as (ns' & j' & Hrun & Hdone & Hj & Hmono & Hover & Hsame); try lia.
      { apply Z.div_lt_upper_bound; lia. }
      exists ns', j'; repeat split; try lia.
      intros [|fuel] Hfuel; [lia|]; simpl.
      rewrite Hms; destruct (ns / 1000000 <? target) eqn:Hc; [|lia].
      apply Hrun; lia.
    + exists ns, j; repeat split; try lia.
      * intros [|fuel] Hfuel; [lia|]; simpl.
        rewrite Hms; destruct (ns / 1000000 <? target) eqn:Hc; [lia|reflexivity].
      * intros Hlt.
        assert (ns / 1000000 < target) by (apply Z.div_lt_upper_bound; lia); lia.
Qed.
End Naps.
End PollingFacts.

(** X4.  The polling [sleep_until_ms] of forced_2_gas_ratio.c: if every nap
    of 500 us lasts at least 500 us and at most [B] ns, the function returns,
    at a reading that is not below the target, after no more than two naps per
    millisecond that remained, and less than [B] ns after the target was
    reached; it does not nap at all when the target is reached already. *)
Theorem polling_sleep_until_ms_returns :
  forall (nap : nat -> Clock.timespec -> Z) (B target ns : Z) (j : nat),
    (forall j, 500000 <= nap j Clock.Polling.nap_request <= B) ->
    0 <= target -> target * 1000000 + B <= 2 ^ 64 * 1000000 ->
    0 <= ns -> ns / 1000000 < 2 ^ 64 ->
    let now := Clock.monotonic_ms (Clock.clock_gettime ns) in
    exists ns' j',
      (forall fuel, (Z.to_nat (2 * (target - now)) < fuel)%nat ->
                    Clock.Polling.sleep_until_ms fuel nap target ns j = Some (ns', j'))
      /\ target <= Clock.monotonic_ms (Clock.clock_gettime ns')
      /\ (target <= now -> ns' = ns /\ j' = j)
      /\ (now < target ->
          ns' < target * 1000000 + B
          /\ Z.of_nat j' - Z.of_nat j <= 2 * (target - now)).
Proof.
  intros nap B target ns j Hnap Ht HB Hns Hrange now.
  assert (Hnow : now = ns / 1000000)
    by (apply ClockFacts.monotonic_ms_clock; assumption).
  pose proof (Z.mul_div_le ns 1000000 ltac:(lia)) as Hlow.
  pose proof (Z.mod_pos_bound ns 1000000 ltac:(lia)) as Hmod.
  pose proof (Z.div_mod ns 1000000 ltac:(lia)) as Hdm.
  destruct (PollingFacts.polling_terminates nap B target Hnap (conj Ht HB)
              (Z.to_nat (2 * (target - now))) ns j Hns Hrange)
    as (ns' & j' & Hrun & Hdone & Hj & Hmono & Hover & Hsame).
  { lia. }
  exists ns', j'; repeat split; try assumption.
  - apply Hsame; lia.
  - apply Hsame; lia.
  - apply Hover; lia.
  - lia.
Qed.

Lemma polling_sleep_until_ms_returns_witness :
  exists ns' j',
    Clock.Polling.sleep_until_ms 5 (fun _ _ => 600000) 12 10200000 0 = Some (ns', j')
    /\ 12 <= Clock.monotonic_ms (Clock.clock_gettime ns').
Proof.
  destruct (polling_sleep_until_ms_returns (fun _ _ => 600000) 600000 12 10200000 0)
    as (ns' & j' & Hrun & Hdone & _); try lia.
  - vm_compute; reflexivity.
  - exists ns', j'; split; [|exact Hdone].
    apply Hrun; vm_compute; lia.
Defined.

Module MillisFacts.
Import Clock.

(** Truncation toward zero, as linear facts. *)
Lemma quot_million : forall n,
    exists q r, Z.quot n 1000000 = q /\ n = 1000000 * q + r
                /\ (0 <= n -> 0 <= r < 1000000)
                /\ (n <= 0 -> -1000000 < r <= 0).
Proof.
  intros n; exists (Z.quot n 1000000), (Z.rem n 1000000).
  split; [reflexivity|]; split; [apply Z.quot_rem'|]; split; intros Hn.
  - apply Z.rem_bound_pos; lia.
  - pose proof (Z.rem_nonpos n 1000000 ltac:(lia) Hn).
    pose proof (Z.rem_bound_abs n 1000000 ltac:(lia)); lia.
Qed.

(** The value returned by a call after the baseline is set. *)
Lemma millis_value : forall b t,
    normalized b -> normalized t ->
    0 <= ns_of t - ns_of b < 4294967295 * 1000000 ->
    millis_since_start (mk_statics b true) t
    = ((tv_sec t - tv_sec b) * 1000 + Z.quot (tv_nsec t - tv_nsec b) 1000000,
       mk_statics b true)
    /\ 0 <= (tv_sec t - tv_sec b) * 1000 + Z.quot (tv_nsec t - tv_nsec b) 1000000
       < 2 ^ 32.
Proof.
  intros [s0 n0] [s n] [Hs0 Hn0] [Hs Hn]; unfold ns_of, millis_since_start.
  cbn [tv_sec tv_nsec initialized t0 negb] in *; intros HE.
  destruct (quot_million (n - n0)) as (q & r & Hq & Hqr & Hpos & Hneg).
  rewrite Hq.
  assert (Hds : 0 <= s - s0 < 4294969) by lia.
  assert (Hr : 0 <= (s - s0) * 1000 + q < 2 ^ 32) by lia.
  split; [|exact Hr].
  f_equal.
  rewrite (u64_small (s - s0)) by lia.
  rewrite (u64_small ((s - s0) * 1000)) by lia.
  unfold u64 at 1 2; rewrite Zplus_mod_idemp_r.
  rewrite Z.mod_small by lia.
  unfold u32; apply Z.mod_small; lia.
Qed.

End MillisFacts.

(** X5.  [millis_since_start], once its baseline [b] is set: for a reading
    [t] taken [E >= 0] nanoseconds later (less than 2^32 - 1 ms), the value
    returned is [floor (E / 10^6)] when the nanosecond field of [t] is not
    below that of [b], and [ceil (E / 10^6)] otherwise (the division of the
    nanosecond difference truncates toward zero); it differs from the elapsed
    time by less than one millisecond, and the baseline is left as it was. *)
Theorem millis_since_start_accuracy :
  forall b t : Clock.timespec,
    Clock.normalized b -> Clock.normalized t ->
    let E := Clock.ns_of t - Clock.ns_of b in
    0 <= E < 4294967295 * 1000000 ->
    let r := fst (Clock.millis_since_start (Clock.mk_statics b true) t) in
    r = (if Clock.tv_nsec b <=? Clock.tv_nsec t
         then E / 1000000 else (E + 999999) / 1000000)
    /\ E - 1000000 < r * 1000000 < E + 1000000
    /\ snd (Clock.millis_since_start (Clock.mk_statics b true) t)
       = Clock.mk_statics b true.
Proof.
  intros b t Hb Ht E HE r.
  destruct (MillisFacts.millis_value b t Hb Ht HE) as [Hval Hrange].
  subst r; rewrite Hval; cbn [fst snd].
  destruct (MillisFacts.quot_million (Clock.tv_nsec t - Clock.tv_nsec b))
    as (q & rm & Hq & Hqr & Hpos & Hneg).
  rewrite Hq in *.
  assert (HEeq : E = ((Clock.tv_sec t - Clock.tv_sec b) * 1000 + q) * 1000000 + rm)
    by (subst E; unfold Clock.ns_of; lia).
  split; [|split; [|reflexivity]].
  - destruct (Clock.tv_nsec b <=? Clock.tv_nsec t) eqn:Hcmp.
    + apply Z.div_unique with (r := rm); lia.
    + apply Z.div_unique with (r := rm + 999999); lia.
  - destruct (Z_le_gt_dec 0 (Clock.tv_nsec t - Clock.tv_nsec b)); lia.
Qed.

Lemma millis_since_start_accuracy_witness :
  fst (Clock.millis_since_start
         (Clock.mk_statics (Clock.mk_timespec 0 999999999) true)
         (Clock.mk_timespec 1 0))
  = (1 + 999999) / 1000000.
Proof.
  destruct (millis_since_start_accuracy
              (Clock.mk_timespec 0 999999999) (Clock.mk_timespec 1 0))
    as (H & _).
  - unfold Clock.normalized; simpl; lia.
  - unfold Clock.normalized; simpl; lia.
  - vm_compute; split; [discriminate | reflexivity].
  - exact H.
Defined.

(** X6.  [millis_since_start] over three calls, the last less than
    2^32 - 1 ms after the first: the first one returns 0 and records its
    reading as the baseline, which later calls never move; the values
    returned afterwards are not negative and do not decrease as the clock
    advances. *)
Theorem millis_since_start_monotone :
  forall b t1 t2 : Clock.timespec,
    Clock.normalized b -> Clock.normalized t1 -> Clock.normalized t2 ->
    Clock.ns_of b <= Clock.ns_of t1 -> Clock.ns_of t1 <= Clock.ns_of t2 ->
    Clock.ns_of t2 - Clock.ns_of b < 4294967295 * 1000000 ->
    let c0 := Clock.millis_since_start Clock.statics_init b in
    let c1 := Clock.millis_since_start (snd c0) t1 in
    let c2 := Clock.millis_since_start (snd c1) t2 in
    fst c0 = 0
    /\ Clock.t0 (snd c2) = b
    /\ 0 <= fst c1 <= fst c2.
Proof.
  intros b t1 t2 Hb H1 H2 Hle1 Hle2 Hfar c0 c1 c2.
  subst c0 c1 c2.
  change (Clock.millis_since_start Clock.statics_init b)
    with (0, Clock.mk_statics b true).
  cbn [fst snd].
  destruct (MillisFacts.millis_value b t1 Hb H1 ltac:(lia)) as [V1 R1].
  rewrite V1; cbn [fst snd].
  destruct (MillisFacts.millis_value b t2 Hb H2 ltac:(lia)) as [V2 R2].
  rewrite V2; cbn [fst snd Clock.t0].
  split; [reflexivity|]; split; [reflexivity|].
  destruct (MillisFacts.quot_million (Clock.tv_nsec t1 - Clock.tv_nsec b))
    as (q1 & r1 & Hq1 & Hqr1 & Hpos1 & Hneg1).
  destruct (MillisFacts.quot_million (Clock.tv_nsec t2 - Clock.tv_nsec b))
    as (q2 & r2 & Hq2 & Hqr2 & Hpos2 & Hneg2).
  rewrite Hq1, Hq2 in *.
  destruct Hb as [Hb1 Hb2], H1 as [H11 H12], H2 as [H21 H22].
  unfold Clock.ns_of in *.
  destruct (Z_le_gt_dec 0 (Clock.tv_nsec t1 - Clock.tv_nsec b));
    destruct (Z_le_gt_dec 0 (Clock.tv_nsec t2 - Clock.tv_nsec b)); lia.
Qed.

Lemma millis_since_start_monotone_witness :
  let c0 := Clock.millis_since_start Clock.statics_init (Clock.mk_timespec 5 900000000) in
  let c1 := Clock.millis_since_start (snd c0) (Clock.mk_timespec 6 100000000) in
  let c2 := Clock.millis_since_start (snd c1) (Clock.mk_timespec 6 950000000) in
  fst c0 = 0 /\ 0 <= fst c1 <= fst c2.
Proof.
  destruct (millis_since_start_monotone
              (Clock.mk_timespec 5 900000000) (Clock.mk_timespec 6 100000000)
              (Clock.mk_timespec 6 950000000))
    as (H0 & _ & H12).
  - unfold Clock.normalized; simpl; lia.
  - unfold Clock.normalized; simpl; lia.
  - unfold Clock.normalized; simpl; lia.
  - vm_compute; discriminate.
  - vm_compute; discriminate.
  - vm_compute; reflexivity.
  - split; [exact H0 | exact H12].
Defined.

(* ------------------------------------------------------------------ *)
(** ** common.c: the I2C interface *)

Module CommonFacts.
Import Common.

Lemma select_addr_valid : forall c b,
    0 <= fd c ->
    select_addr (Some c) b
    = if ioctl_rslt b <? 0
      then (-1, [SYS_ioctl_I2C_SLAVE (fd c) (addr c); SYS_perror "ioctl(I2C_SLAVE)"])
      else (0, [SYS_ioctl_I2C_SLAVE (fd c) (addr c)]).
Proof.
  intros c b Hfd; unfold select_addr.
  destruct (fd c <? 0) eqn:H; [lia|reflexivity].
Qed.

(** [memcpy] writes [src[0 .. n-1]] at [off .. off+n-1] and nothing else. *)
Lemma memcpy_length : forall buf off src n, length (memcpy buf off src n) = length buf.
Proof.
  intros; unfold memcpy; apply for_range_ind; [reflexivity|].
  intros k acc _ Hacc; now rewrite aset_length.
Qed.

Lemma memcpy_get : forall buf off src (n : nat) j,
    0 <= off -> off + Z.of_nat n <= Z.of_nat (length buf) -> 0 <= j ->
    aget 0 (memcpy buf off src (Z.of_nat n)) j
    = if (off <=? j) && (j <? off + Z.of_nat n) then aget 0 src (j - off)
      else aget 0 buf j.
Proof.
  intros buf off src n j Hoff; induction n as [|n IH]; intros Hfit Hj.
  - unfold memcpy; rewrite for_range_empty by lia.
    change (Z.of_nat 0) with 0; rewrite Z.add_0_r.
    destruct (off <=? j) eqn:H1; destruct (j <? off) eqn:H2;
      simpl; try reflexivity; lia.
  - unfold memcpy in *.
    replace (Z.of_nat (S n)) with (Z.of_nat n + 1) by lia.
    rewrite for_range_last by lia.
    destruct (Z.eq_dec j (off + Z.of_nat n)) as [->|Hne].
    + rewrite aget_aset_same.
      * destruct (off <=? off + Z.of_nat n) eqn:H1;
          destruct (off + Z.of_nat n <? off + (Z.of_nat n + 1)) eqn:H2; try lia.
        simpl; f_equal; lia.
      * pose proof (memcpy_length buf off src (Z.of_nat n)) as Hl.
        unfold memcpy in Hl; rewrite Hl; lia.
    + rewrite aget_aset_other by lia.
      rewrite IH by lia.
      destruct (off <=? j) eqn:H1; destruct (j <? off + Z.of_nat n) eqn:H2;
        destruct (j <? off + (Z.of_nat n + 1)) eqn:H3; simpl; try reflexivity; lia.
Qed.

(** The frame assembled in [buf]. *)
Lemma frame_eq : forall junk reg_addr d (len : nat),
    length junk = 257%nat -> (len <= 256)%nat -> (len <= length d)%nat ->
    firstn (S len)
           (if negb (Z.of_nat len =? 0)
            then memcpy (aset junk 0 reg_addr) 1 d (Z.of_nat len)
            else aset junk 0 reg_addr)
    = reg_addr :: firstn len d.
Proof.
  intros junk reg_addr d len Hjunk Hlen Hd.
  apply nth_ext with (d := 0) (d' := 0).
  - destruct (negb (Z.of_nat len =? 0));
      rewrite length_firstn, ?memcpy_length, aset_length, Hjunk;
      simpl; rewrite length_firstn; lia.
  - intros n Hn.
    assert (Hn' : (n < S len)%nat).
    { revert Hn; destruct (negb (Z.of_nat len =? 0));
        rewrite length_firstn, ?memcpy_length, aset_length, Hjunk; lia. }
    rewrite nth_firstn.
    destruct (n <? S len)%nat eqn:Hlt; [|apply Nat.ltb_ge in Hlt; lia].
    assert (Hget : forall l, nth n l 0 = aget 0 l (Z.of_nat n))
      by (intros l; unfold aget; now rewrite Nat2Z.id).
    destruct n as [|m].
    + destruct (negb (Z.of_nat len =? 0)) eqn:Hz; rewrite Hget.
      * rewrite memcpy_get by (rewrite ?aset_length, ?Hjunk; lia).
        simpl; apply aget_aset_same; rewrite Hjunk; lia.
      * simpl; apply aget_aset_same; rewrite Hjunk; lia.
    + simpl nth at 2; rewrite nth_firstn.
      destruct (m <? len)%nat eqn:Hm; [|apply Nat.ltb_ge in Hm; lia].
      destruct (negb (Z.of_nat len =? 0)) eqn:Hz.
      * rewrite Hget, memcpy_get by (rewrite ?aset_length, ?Hjunk; lia).
        rewrite (proj2 (Z.leb_le 1 (Z.of_nat (S m)))) by lia.
        rewrite (proj2 (Z.ltb_lt (Z.of_nat (S m)) (1 + Z.of_nat len))) by lia.
        simpl andb; cbv iota; unfold aget; f_equal; lia.
      * apply negb_false_iff, Z.eqb_eq in Hz; lia.
Qed.

End CommonFacts.

(** X7.  [i2c_read_pi] returns [BME69X_OK] exactly when its arguments are
    usable (a context with a descriptor that is not negative, a buffer, a
    length other than 0), the slave address is selected, the write of the
    register address transfers 1 byte and the read transfers [len] bytes; the
    calls made are then, in order, the [ioctl], the write of the single byte
    [reg_addr] and the read of [len] bytes.  It returns [BME69X_E_NULL_PTR]
    exactly when it makes no call at all, and every other failure is
    [BME69X_E_COM_FAIL]. *)
Theorem i2c_read_pi_result :
  forall (reg_addr : Z) (reg_data : bool) (len : Z)
         (intf_ptr : option Common.pi_i2c_ctx) (b : Common.Bus),
    let r := Common.i2c_read_pi reg_addr reg_data len intf_ptr b in
    (fst r = BME69X_OK
     <-> exists c, intf_ptr = Some c /\ 0 <= Common.fd c /\ reg_data = true /\ len <> 0
                   /\ 0 <= Common.ioctl_rslt b
                   /\ Common.write_rslt b = 1 /\ Common.read_rslt b = len)
    /\ (forall c, fst r = BME69X_OK -> intf_ptr = Some c ->
                  snd r = [ Common.SYS_ioctl_I2C_SLAVE (Common.fd c) (Common.addr c);
                            Common.SYS_write (Common.fd c) [reg_addr];
                            Common.SYS_read (Common.fd c) len ])
    /\ (fst r = Common.BME69X_E_NULL_PTR <-> snd r = [])
    /\ (fst r = BME69X_OK \/ fst r = Common.BME69X_E_NULL_PTR
        \/ fst r = BME69X_E_COM_FAIL).
Proof.
  intros reg_addr reg_data len intf_ptr b r; subst r.
  unfold Common.i2c_read_pi.
  destruct intf_ptr as [c|].
  2:{ cbn [fst snd]; repeat split; try discriminate; auto.
      intros (c & H & _); discriminate. }
  destruct (Common.fd c <? 0) eqn:Hfd; cbn [orb].
  { cbn [fst snd]; repeat split; try discriminate; auto.
    intros (c' & [= <-] & H & _); lia. }
  destruct reg_data; cbn [negb orb].
  2:{ cbn [fst snd]; repeat split; try discriminate; auto.
      intros (c' & _ & _ & H & _); discriminate. }
  destruct (len =? 0) eqn:Hlen.
  { cbn [fst snd]; repeat split; try discriminate; auto.
    intros (c' & _ & _ & _ & H & _); lia. }
  rewrite CommonFacts.select_addr_valid by lia.
  destruct (Common.ioctl_rslt b <? 0) eqn:Hio; cbn [fst snd];
    [change (-1 <? 0) with true | change (0 <? 0) with false]; cbv iota.
  { cbn [fst snd]; repeat split; try discriminate; auto.
    intros (c' & _ & _ & _ & _ & H & _); lia. }
  destruct (Common.write_rslt b =? 1) eqn:Hw; cbn [negb].
  2:{ cbn [fst snd app]; repeat split; try discriminate; auto.
      intros (c' & _ & _ & _ & _ & _ & H & _); lia. }
  destruct (Common.read_rslt b =? len) eqn:Hr; cbn [negb].
  2:{ cbn [fst snd app]; repeat split; try discriminate; auto.
      intros (c' & _ & _ & _ & _ & _ & _ & H); lia. }
  cbn [fst snd app]; repeat split; try discriminate; auto.
  - intros _; exists c; repeat split; auto; lia.
  - intros c' _ [= <-]; reflexivity.
Qed.

(** X8.  [i2c_write_pi], given a usable context, a selectable address and
    [len] bytes of data: if [len] exceeds 256 it returns
    [BME69X_E_INVALID_LENGTH] after the [ioctl], without writing; otherwise it
    makes one write of exactly [1 + len] bytes (never more than the 257 bytes
    of its buffer), the register address followed by the first [len] bytes of
    the data and nothing of what the buffer held before, and it returns
    [BME69X_OK] exactly when the write transfers [1 + len] bytes. *)
Theorem i2c_write_pi_frame :
  forall (reg_addr : Z) (d : list Z) (len : Z) (c : Common.pi_i2c_ctx)
         (junk : list Z) (b : Common.Bus),
    0 <= Common.fd c -> 0 <= Common.ioctl_rslt b ->
    0 <= len -> len <= Z.of_nat (length d) -> length junk = 257%nat ->
    Common.i2c_write_pi reg_addr (Some d) len (Some c) junk b
    = if len >? 256
      then (Common.BME69X_E_INVALID_LENGTH,
            [Common.SYS_ioctl_I2C_SLAVE (Common.fd c) (Common.addr c)])
      else (if Common.write_rslt b =? 1 + len then BME69X_OK else BME69X_E_COM_FAIL,
            [ Common.SYS_ioctl_I2C_SLAVE (Common.fd c) (Common.addr c);
              Common.SYS_write (Common.fd c) (reg_addr :: firstn (Z.to_nat len) d) ]).
Proof.
  intros reg_addr d len c junk b Hfd Hio Hlen Hd Hjunk.
  unfold Common.i2c_write_pi.
  destruct (Common.fd c <? 0) eqn:Hfd'; [lia|].
  rewrite CommonFacts.select_addr_valid by lia.
  destruct (Common.ioctl_rslt b <? 0) eqn:Hio'; [lia|].
  cbn [fst snd]; change (0 <? 0) with false; cbv iota.
  destruct (len >? 256) eqn:Hbig; [reflexivity|].
  assert (Hn : exists n : nat, len = Z.of_nat n) by (exists (Z.to_nat len); lia).
  destruct Hn as [n ->].
  replace (Z.to_nat (1 + Z.of_nat n)) with (S n) by lia.
  rewrite Nat2Z.id, CommonFacts.frame_eq by lia.
  destruct (Common.write_rslt b =? 1 + Z.of_nat n); reflexivity.
Qed.

Lemma i2c_write_pi_frame_witness :
  Common.i2c_write_pi 116 (Some [16; 32; 48]) 2 (Some (Common.mk_ctx 3 118))
                      (repeat 255 257) (Common.mk_bus 0 3 0)
  = (BME69X_OK, [Common.SYS_ioctl_I2C_SLAVE 3 118; Common.SYS_write 3 [116; 16; 32]]).
Proof.
  apply (i2c_write_pi_frame 116 [16; 32; 48] 2 (Common.mk_ctx 3 118)
                            (repeat 255 257) (Common.mk_bus 0 3 0));
    simpl; try lia; reflexivity.
Defined.

(** X9.  [bme69x_interface_init] for two sensors in turn, the bus being
    closed at first: the first call succeeds exactly when [open] and [malloc]
    do, and on failure it leaves the device structure as it found it; once
    the bus is open the second call does not open it again (its only call is
    [malloc]) and keeps the descriptor; when both calls succeed the two
    contexts hold the same descriptor and each its own address. *)
Theorem interface_init_opens_the_bus_once :
  forall (dev1 dev2 : Common.bme69x_dev) (addr1 addr2 : Z) (e1 e2 : Common.InitEnv),
    let r1 := Common.bme69x_interface_init (-1) (Some dev1) Common.BME69X_I2C_INTF addr1 e1 in
    let r2 := Common.bme69x_interface_init (Common.init_shared_fd r1) (Some dev2)
                                           Common.BME69X_I2C_INTF addr2 e2 in
    (Common.init_rslt r1 = BME69X_OK
     <-> 0 <= Common.open_rslt e1 /\ Common.malloc_ok e1 = true)
    /\ (Common.init_rslt r1 <> BME69X_OK -> Common.init_dev r1 = Some dev1)
    /\ (0 <= Common.open_rslt e1 ->
        Common.init_shared_fd r2 = Common.open_rslt e1
        /\ Common.init_calls r2 = [Common.SYS_malloc]
        /\ (Common.init_rslt r2 = BME69X_OK <-> Common.malloc_ok e2 = true))
    /\ (Common.init_rslt r1 = BME69X_OK -> Common.init_rslt r2 = BME69X_OK ->
        exists d1 d2,
          Common.init_dev r1 = Some d1 /\ Common.init_dev r2 = Some d2
          /\ Common.intf_ptr d1
             = Some (Common.mk_ctx (Common.open_rslt e1) (addr1 mod 2 ^ 8))
          /\ Common.intf_ptr d2
             = Some (Common.mk_ctx (Common.open_rslt e1) (addr2 mod 2 ^ 8))).
Proof.
  intros dev1 dev2 addr1 addr2 e1 e2 r1 r2; subst r2 r1.
  unfold Common.bme69x_interface_init.
  rewrite Z.eqb_refl; cbn [negb].
  change (-1 <? 0) with true; cbv iota; cbn [andb].
  destruct (Common.open_rslt e1 <? 0) eqn:Hopen.
  - cbn [Common.init_rslt Common.init_dev Common.init_shared_fd].
    repeat split; try discriminate; try lia.
  - destruct (Common.malloc_ok e1) eqn:Hm1; cbn [negb];
      cbn [Common.init_rslt Common.init_dev Common.init_shared_fd];
      rewrite Hopen; cbn [andb app];
      destruct (Common.malloc_ok e2) eqn:Hm2; cbn [negb];
      cbn [Common.init_rslt Common.init_dev Common.init_shared_fd Common.init_calls];
      repeat split; intros; try discriminate; try lia; try congruence;
      try (do 2 eexists; repeat split; reflexivity).
Qed.

(** X10.  After a successful [bme69x_interface_init],
    [bme69x_interface_deinit] frees exactly the context allocated for the
    device and clears the pointer to it; a second call frees nothing and
    changes nothing. *)
Theorem interface_deinit_releases_once :
  forall (shared_fd : Z) (dev : Common.bme69x_dev) (addr : Z) (e : Common.InitEnv),
    let r := Common.bme69x_interface_init shared_fd (Some dev)
                                          Common.BME69X_I2C_INTF addr e in
    Common.init_rslt r = BME69X_OK ->
    let once := Common.bme69x_interface_deinit (Common.init_dev r) in
    let twice := Common.bme69x_interface_deinit (fst once) in
    snd once = [Common.SYS_free (Common.mk_ctx (Common.init_shared_fd r) (addr mod 2 ^ 8))]
    /\ (exists d, fst once = Some d /\ Common.intf_ptr d = None)
    /\ twice = (fst once, []).
Proof.
  intros shared_fd dev addr e r; subst r.
  unfold Common.bme69x_interface_init.
  rewrite Z.eqb_refl; cbn [negb].
  destruct ((shared_fd <? 0) && _); [discriminate|].
  destruct (negb (Common.malloc_ok e)); [discriminate|].
  intros _.
  cbn [Common.init_dev Common.init_shared_fd Common.bme69x_interface_deinit
       Common.intf_ptr fst snd].
  repeat split; eexists; split; reflexivity.
Qed.

Lemma interface_deinit_releases_once_witness :
  snd (Common.bme69x_interface_deinit
         (Common.init_dev
            (Common.bme69x_interface_init
               (-1) (Some (Common.mk_dev 0 Common.CB_unset Common.CB_unset
                                         Common.CB_unset None 0))
               Common.BME69X_I2C_INTF 118 (Common.mk_init_env 3 true))))
  = [Common.SYS_free (Common.mk_ctx 3 118)].
Proof.
  refine (proj1 (interface_deinit_releases_once
                   (-1) (Common.mk_dev 0 Common.CB_unset Common.CB_unset
                                       Common.CB_unset None 0)
                   118 (Common.mk_init_env 3 true) _)).
  reflexivity.
Defined.

(* ------------------------------------------------------------------ *)
(** ** forced_2_gas.c: initialisation and output *)

Module Forced2GasStartupFacts.
Import Forced2GasStartup.
Section AnyDouble.
Context {F : Type} {DO : DoubleOps F}.

Lemma check_rslt_ok : forall name, Common.bme69x_check_rslt name BME69X_OK = [].
Proof. reflexivity. Qed.

Lemma check_rslt_failed : forall name r,
    r <> BME69X_OK ->
    Common.bme69x_check_rslt name r = [Common.SYS_fprintf_stderr name r].
Proof.
  intros name r Hr; unfold Common.bme69x_check_rslt.
  apply Z.eqb_neq in Hr; rewrite Hr; reflexivity.
Qed.

Lemma init_sensor_ok : forall addr a,
    all_ok a = true ->
    init_sensor addr a
    = mk_effects BME69X_OK
                 [CALL_interface_init addr; CALL_init addr; CALL_set_conf addr;
                  CALL_set_heatr_conf addr]
                 [].
Proof.
  intros addr [r1 r2 r3 r4]; unfold all_ok, init_sensor; simpl.
  rewrite !andb_true_iff, !Z.eqb_eq; intros [[[-> ->] ->] ->]; reflexivity.
Qed.

Lemma init_sensor_failed : forall addr a,
    all_ok a = false ->
    rslt (init_sensor addr a) <> BME69X_OK
    /\ (exists name, stderr (init_sensor addr a)
                     = [Common.SYS_fprintf_stderr name (rslt (init_sensor addr a))])
    /\ (forall c, In c (calls (init_sensor addr a)) -> addr_of c = addr).
Proof.
  intros addr [r1 r2 r3 r4].
  unfold all_ok, init_sensor, Common.bme69x_check_rslt.
  cbn [interface_init_rslt init_rslt set_conf_rslt set_heatr_conf_rslt].
  destruct (r1 =? BME69X_OK) eqn:H1; destruct (r2 =? BME69X_OK) eqn:H2;
    destruct (r3 =? BME69X_OK) eqn:H3; destruct (r4 =? BME69X_OK) eqn:H4;
    cbn [negb andb app rslt calls stderr]; intros Hf; try discriminate Hf;
    (split; [apply Z.eqb_neq; assumption|]);
    (split; [eexists; reflexivity|]);
    intros c Hc; repeat (destruct Hc as [<-|Hc]; [reflexivity|]); contradiction.
Qed.

(** What the loop prints: nothing during the first [WARMUP_SAMPLES] passes,
    then the records of every pass. *)
Lemma gas_loop_output : forall t0 (ins : list (Forced2Gas.TickIn (F := F))) st,
    fst (Forced2Gas.main_loop t0 ins st)
    = flat_map (tick_records t0)
               (skipn (Z.to_nat (Forced2Gas.WARMUP_SAMPLES - Forced2Gas.sample st)) ins).
Proof.
  intros t0; unfold Forced2Gas.main_loop.
  induction ins as [|i ins IH]; intros st.
  - now rewrite skipn_nil.
  - cbn [run_loop]; unfold Forced2Gas.main_tick at 1; cbv zeta.
    match goal with |- context [run_loop ?b ins ?s] =>
      specialize (IH s); destruct (run_loop b ins s) as [o res] end.
    cbn [fst] in *; cbn [Forced2Gas.sample] in IH; rewrite IH.
    unfold Forced2Gas.WARMUP_SAMPLES in *.
    destruct (Forced2Gas.sample st + 1 >? 10) eqn:Hw.
    + replace (Z.to_nat (10 - Forced2Gas.sample st)) with 0%nat by lia.
      replace (Z.to_nat (10 - (Forced2Gas.sample st + 1))) with 0%nat by lia.
      reflexivity.
    + replace (Z.to_nat (10 - Forced2Gas.sample st))
        with (S (Z.to_nat (10 - (Forced2Gas.sample st + 1)))) by lia.
      reflexivity.
Qed.
End AnyDouble.
End Forced2GasStartupFacts.






(* ------------------------------------------------------------------ *)
(** ** Spectral analysis over the reals *)

(** Loop invariant rule for [for_range], the invariant knowing the index. *)
Lemma for_range_ind_idx : forall (St : Type) (P : Z -> St -> Prop) lo hi
                                 (body : Z -> St -> St) s,
    lo <= hi ->
    P lo s ->
    (forall k acc, lo <= k < hi -> P k acc -> P (k + 1) (body k acc)) ->
    P hi (for_range lo hi body s).
Proof.
  intros St P lo hi body s Hle Hs Hstep.
  assert (Hn : exists n : nat, hi = lo + Z.of_nat n) by (exists (Z.to_nat (hi - lo)); lia).
  destruct Hn as [n ->].
  induction n as [|n IH].
  - rewrite for_range_empty by lia; now rewrite Z.add_0_r.
  - replace (lo + Z.of_nat (S n)) with (lo + Z.of_nat n + 1) in * by lia.
    rewrite for_range_last by lia.
    apply Hstep; [lia|].
    apply IH; [lia|].
    intros k acc Hk; apply Hstep; lia.
Qed.

Module RealPeaks.
Import Spectral SpectralSpec.
Local Open Scope R_scope.

Lemma dgt_true : forall a b : R, dgt a b = true -> a > b.
Proof. intros a b; simpl; destruct (Rgt_dec a b); [auto|discriminate]. Qed.

Lemma dgt_false : forall a b : R, dgt a b = false -> a <= b.
Proof. intros a b; simpl; destruct (Rgt_dec a b); [discriminate|lra]. Qed.

Lemma top3_step_scanned : forall mags j s,
    (1 <= j)%Z -> scanned mags j s -> scanned mags (j + 1) (top3_step mags j s).
Proof.
  intros mags j s Hj (H32 & H21 & Hall); unfold top3_step.
  destruct (dgt (aget (of_int 0) mags j) (a1 s)) eqn:D1;
    [apply dgt_true in D1|apply dgt_false in D1;
     destruct (dgt (aget (of_int 0) mags j) (a2 s)) eqn:D2;
     [apply dgt_true in D2|apply dgt_false in D2;
      destruct (dgt (aget (of_int 0) mags j) (a3 s)) eqn:D3;
      [apply dgt_true in D3|apply dgt_false in D3]]];
    simpl in *; unfold scanned; cbn [k1 k2 k3 a1 a2 a3];
    (split; [lra|]); (split; [lra|]); intros k Hk;
    (destruct (Z.eq_dec k j) as [->|Hne];
     [|destruct (Hall k ltac:(lia)) as [H|[[-> H]|[-> H]]]]);
    try (left; lra); try (right; left; split; [reflexivity|lra]);
    try (right; right; split; [reflexivity|lra]); auto.
Qed.

Lemma top3_scan_scanned : forall mags bins,
    (1 <= bins)%Z -> scanned mags bins (top3_scan mags bins).
Proof.
  intros mags bins Hb; unfold top3_scan.
  apply for_range_ind_idx with (P := scanned mags); [exact Hb| |].
  - unfold scanned, top3_init; simpl; repeat split; try lra.
    intros k Hk; lia.
  - intros k acc Hk; apply top3_step_scanned; lia.
Qed.

End RealPeaks.

(** X14.  Over the reals, the magnitudes that [top3_peaks] returns are in
    decreasing order, the first one bounds every candidate bin
    [1 <= k < bins], the second one every candidate other than the bin of the
    first, and the third one every candidate other than the bins of the first
    two: they are the three largest candidates. *)
Theorem top3_peaks_are_the_three_largest :
  forall (mags : list R) (bins : Z) (fs : R) (N : Z),
    let s := Spectral.top3_scan mags bins in
    let p := Spectral.top3_peaks mags bins fs N in
    let m1 := snd (fst (fst p)) in
    let m2 := snd (snd (fst p)) in
    let m3 := snd (snd p) in
    (m3 <= m2 <= m1)%R
    /\ (forall k, 1 <= k < bins -> (aget 0%R mags k <= m1)%R)
    /\ (forall k, 1 <= k < bins -> k <> Spectral.k1 s -> (aget 0%R mags k <= m2)%R)
    /\ (forall k, 1 <= k < bins -> k <> Spectral.k1 s -> k <> Spectral.k2 s ->
                  (aget 0%R mags k <= m3)%R).
Proof.
  intros mags bins fs N s p m1 m2 m3; subst m1 m2 m3 p; cbn [Spectral.top3_peaks fst snd].
  fold s.
  destruct (Z_lt_ge_dec bins 1) as [Hsmall|Hbig].
  - subst s; unfold Spectral.top3_scan; rewrite for_range_empty by lia.
    simpl; repeat split; try lra; intros; lia.
  - destruct (RealPeaks.top3_scan_scanned mags bins ltac:(lia)) as (H32 & H21 & Hall).
    fold s in H32, H21, Hall.
    repeat split; try assumption; intros k Hk.
    + destruct (Hall k Hk) as [H|[[_ H]|[_ H]]]; lra.
    + intros Hk1; destruct (Hall k Hk) as [H|[[E _]|[_ H]]]; try lra; contradiction.
    + intros Hk1 Hk2; destruct (Hall k Hk) as [H|[[E _]|[E _]]]; try lra; contradiction.
Qed.

Module RealDft.
Import Spectral SpectralSpec.
Local Open Scope R_scope.

Lemma dft_bin_nonneg : forall x N mean k, 0 <= dft_bin x N mean k.
Proof. intros; unfold dft_bin; cbv zeta; simpl dsqrt; apply sqrt_pos. Qed.

End RealDft.

(** X17.  Over the reals, a peak record of forced_2_fft never carries the
    initial marker (magnitude -1): its three magnitudes are in decreasing
    order and not negative, and each pair is the frequency and the magnitude
    of one bin [1 .. 20] of the spectrum of the window of the sensor it is
    printed for. *)
Theorem peak_lines_report_three_bins_of_the_spectrum :
  forall (t_ms : Z) (x1 x2 : list R) (t a : Z) (p : (R * R) * (R * R) * (R * R)),
    In (Forced2FFT.PEAK t a p) (Forced2FFT.window_lines t_ms x1 x2) ->
    let x := if a =? Forced2FFT.ADDR1 then x1 else x2 in
    let mags := Spectral.dft_mags_dc_removed x Forced2FFT.FFT_N in
    (0 <= snd (snd p) <= snd (snd (fst p)))%R
    /\ (snd (snd (fst p)) <= snd (fst (fst p)))%R
    /\ exists k1 k2 k3,
        1 <= k1 <= 20 /\ 1 <= k2 <= 20 /\ 1 <= k3 <= 20
        /\ p = ((Spectral.bin_freq Forced2FFT.FS_HZ Forced2FFT.FFT_N k1, aget 0%R mags k1),
                (Spectral.bin_freq Forced2FFT.FS_HZ Forced2FFT.FFT_N k2, aget 0%R mags k2),
                (Spectral.bin_freq Forced2FFT.FS_HZ Forced2FFT.FFT_N k3, aget 0%R mags k3)).
Proof.
  assert (Hmain : forall x : list R,
             let mags := Spectral.dft_mags_dc_removed x Forced2FFT.FFT_N in
             let p := Spectral.top3_peaks mags Forced2FFT.FFT_BINS
                                          Forced2FFT.FS_HZ Forced2FFT.FFT_N in
             (0 <= snd (snd p) <= snd (snd (fst p)))%R
             /\ (snd (snd (fst p)) <= snd (fst (fst p)))%R
             /\ exists k1 k2 k3,
                 1 <= k1 <= 20 /\ 1 <= k2 <= 20 /\ 1 <= k3 <= 20
                 /\ p = ((Spectral.bin_freq Forced2FFT.FS_HZ Forced2FFT.FFT_N k1,
                          aget 0%R mags k1),
                         (Spectral.bin_freq Forced2FFT.FS_HZ Forced2FFT.FFT_N k2,
                          aget 0%R mags k2),
                         (Spectral.bin_freq Forced2FFT.FS_HZ Forced2FFT.FFT_N k3,
                          aget 0%R mags k3))).
  { intros x mags p.
    assert (Hpos : forall k, 1 <= k < 21 -> (0 <= aget 0%R mags k)%R).
    { intros k Hk; subst mags.
      change 0%R with (of_int (F := R) 0) at 2.
      rewrite SpectralFacts.dft_mags_dc_removed_nth
        by (change (Z.quot Forced2FFT.FFT_N 2) with 20; lia).
      apply RealDft.dft_bin_nonneg. }
    change Forced2FFT.FFT_BINS with 21 in *.
    destruct (RealPeaks.top3_scan_scanned mags 21 ltac:(lia)) as (H32 & H21 & Hall).
    destruct (SpectralFacts.top3_scan_slots mags 21) as (S1 & S2 & S3).
    cbv zeta in S1, S2, S3.
    set (s := Spectral.top3_scan mags 21) in *.
    assert (H3 : (0 <= Spectral.a3 s)%R).
    { assert (Hex : exists k, 1 <= k < 21 /\ k <> Spectral.k1 s /\ k <> Spectral.k2 s).
      { destruct (Z.eq_dec (Spectral.k1 s) 1), (Z.eq_dec (Spectral.k2 s) 1),
          (Z.eq_dec (Spectral.k1 s) 2), (Z.eq_dec (Spectral.k2 s) 2);
          try (exists 1; lia); try (exists 2; lia); exists 3; lia. }
      destruct Hex as (k & Hk & Hk1 & Hk2).
      specialize (Hpos k Hk).
      destruct (Hall k Hk) as [H|[[E _]|[E _]]]; try contradiction; lra. }
    subst p; cbn [Spectral.top3_peaks fst snd]; fold s.
    split; [lra|]; split; [lra|].
    assert (Hreal : forall k a, Spectral.slot_ok mags 21 k a -> (0 <= a)%R ->
                                1 <= k <= 20 /\ a = aget 0%R mags k).
    { intros k a [[_ Ha]|[Hk Ha]] Hge; [simpl in Ha; lra|split; [lia|exact Ha]]. }
    destruct (Hreal _ _ S1 ltac:(lra)) as [K1 E1].
    destruct (Hreal _ _ S2 ltac:(lra)) as [K2 E2].
    destruct (Hreal _ _ S3 ltac:(lra)) as [K3 E3].
    exists (Spectral.k1 s), (Spectral.k2 s), (Spectral.k3 s).
    repeat (split; [assumption|]).
    unfold Spectral.top3_peaks; fold s; rewrite <- E1, <- E2, <- E3; reflexivity. }
  intros t_ms x1 x2 t a p Hin.
  unfold Forced2FFT.window_lines in Hin; cbn [In] in Hin.
  destruct Hin as [H|[H|[H|[H|[]]]]]; try discriminate;
    injection H as _ <- <-; cbv zeta.
  - change (Forced2FFT.ADDR1 =? Forced2FFT.ADDR1) with true; cbv iota; apply Hmain.
  - change (Forced2FFT.ADDR2 =? Forced2FFT.ADDR1) with false; cbv iota; apply Hmain.
Qed.

Lemma peak_lines_report_three_bins_of_the_spectrum_witness :
  let p := Spectral.top3_peaks
             (Spectral.dft_mags_dc_removed (repeat 7%R 40) Forced2FFT.FFT_N)
             Forced2FFT.FFT_BINS Forced2FFT.FS_HZ Forced2FFT.FFT_N in
  (0 <= snd (snd p) <= snd (snd (fst p)))%R.
Proof.
  refine (proj1 (peak_lines_report_three_bins_of_the_spectrum
                   0 (repeat 7%R 40) (repeat 7%R 40) 0 Forced2FFT.ADDR1 _ _)).
  unfold Forced2FFT.window_lines; cbn [In]; right; right; left; reflexivity.
Defined.

(* ------------------------------------------------------------------ *)
(** ** The rolling hysteresis program: cycles and window *)

Lemma zrange_cons : forall lo n, zrange lo (S n) = lo :: zrange (lo + 1) n.
Proof.
  intros lo n; unfold zrange; simpl; rewrite Z.add_0_r; f_equal.
  rewrite <- seq_shift, map_map; apply map_ext; intros; lia.
Qed.

Lemma nth_map_zrange : forall (A : Type) (f : Z -> A) lo n i d,
    (i < n)%nat -> nth i (map f (zrange lo n)) d = f (lo + Z.of_nat i).
Proof.
  intros A f lo n i d Hi.
  rewrite nth_indep with (d' := f 0) by (rewrite length_map, zrange_length; exact Hi).
  rewrite map_nth, zrange_nth by exact Hi; reflexivity.
Qed.

(** Invariant rule for a loop with an early exit, the invariant knowing the
    index. *)
Lemma for_range_exit_ind : forall (St E : Type) (P : Z -> St -> Prop)
                                  (body : Z -> St -> E + St) hi (n : nat) lo s s',
    hi = lo + Z.of_nat n ->
    P lo s ->
    (forall k s1 s2, lo <= k < hi -> P k s1 -> body k s1 = inr s2 -> P (k + 1) s2) ->
    for_each_exit (zrange lo n) body s = inr s' ->
    P hi s'.
Proof.
  intros St E P body hi; induction n as [|n IH]; intros lo s s' Hhi Hs Hstep.
  - simpl; intros [= <-]; subst hi; now rewrite Z.add_0_r.
  - rewrite zrange_cons; simpl.
    destruct (body lo s) as [e|s1] eqn:Hb; [discriminate|].
    apply IH; [lia| |].
    + apply (Hstep lo s s1); [lia|exact Hs|exact Hb].
    + intros k a b Hk; apply Hstep; lia.
Qed.

Module HystCycle.
Import HystFFT HystFFTSpec.
Section AnyDouble.
Context {F : Type} {DO : DoubleOps F} {MO : MathOps F}.

Lemma sample_gas_once_ok : forall (d : Driver F) g,
    sample_ok d = true ->
    sample_gas_once d g = (BME69X_OK, gas_resistance (data d)).
Proof.
  intros d g; unfold sample_ok, sample_gas_once.
  destruct (negb (set_heatr_conf_rslt d =? BME69X_OK)) eqn:H1;
    [simpl; rewrite Z.eqb_eq; intros E; rewrite E in H1; discriminate|].
  destruct (negb (set_op_mode_rslt d =? BME69X_OK)) eqn:H2;
    [simpl; rewrite Z.eqb_eq; intros E; rewrite E in H2; discriminate|].
  destruct (negb (get_data_rslt d =? BME69X_OK)) eqn:H3;
    [simpl; rewrite Z.eqb_eq; intros E; rewrite E in H3; discriminate|].
  destruct (negb (n_fields d =? 0)); [reflexivity|].
  simpl; intros E; discriminate.
Qed.

(** A step whose samples are all accepted stores them in order. *)
Lemma step_loop_result : forall drv (buf : list F) next,
    Z.of_nat (length buf) = S ->
    (forall i, 0 <= i < S -> sample_ok (drv i) = true) ->
    exists buf' next',
      step_loop drv buf next = inr (buf', next')
      /\ Z.of_nat (length buf') = S
      /\ forall i, 0 <= i < S ->
                   aget (of_int 0) buf' i = gas_resistance (data (drv i)).
Proof.
  intros drv buf next Hlen Hok.
  destruct (HystFFTFacts.step_loop_all_ok drv buf next Hok) as [[buf' next'] Hrun].
  exists buf', next'; split; [exact Hrun|].
  unfold step_loop, for_range_exit in Hrun.
  apply for_range_exit_ind
    with (P := fun k (s : list F * Z) =>
                 Z.of_nat (length (fst s)) = S
                 /\ forall i, 0 <= i < k ->
                              aget (of_int 0) (fst s) i = gas_resistance (data (drv i)))
         (hi := S) in Hrun.
  - exact Hrun.
  - reflexivity.
  - split; [exact Hlen|]; intros i Hi; lia.
  - intros k s1 s2 Hk [Hl Hget]; cbv zeta.
    rewrite sample_gas_once_ok by (apply Hok; lia).
    cbn [fst snd negb]; rewrite Z.eqb_refl; cbn [negb].
    intros [= <-]; cbn [fst]; split; [now rewrite aset_length|].
    intros i Hi; destruct (Z.eq_dec i k) as [->|Hne].
    + apply aget_aset_same; lia.
    + rewrite aget_aset_other by lia; apply Hget; lia.
Qed.

(** [y_cycle] after the loop that fills it. *)
Lemma hysteresis_result : forall (lo hi y : list F),
    Z.of_nat (length y) = S ->
    Z.of_nat (length (hysteresis lo hi y)) = S
    /\ forall i, 0 <= i < S ->
                 aget (of_int 0) (hysteresis lo hi y) i
                 = dsub (aget (of_int 0) hi i) (aget (of_int 0) lo i).
Proof.
  intros lo hi y Hlen; unfold hysteresis.
  apply for_range_ind_idx
    with (P := fun k (y' : list F) =>
                 Z.of_nat (length y') = S
                 /\ forall i, 0 <= i < k ->
                              aget (of_int 0) y' i
                              = dsub (aget (of_int 0) hi i) (aget (of_int 0) lo i)).
  - vm_compute; discriminate.
  - split; [exact Hlen|]; intros i Hi; lia.
  - intros k acc Hk [Hl Hget]; split; [now rewrite aset_length|].
    intros i Hi; destruct (Z.eq_dec i k) as [->|Hne].
    + apply aget_aset_same; lia.
    + rewrite aget_aset_other by lia; apply Hget; lia.
Qed.

(** The rolling buffer after [y_cycle] is appended at [pos]. *)
Lemma append_rolling_result : forall (y buf : list F) pos filled,
    Z.of_nat (length buf) = FFT_N -> 0 <= pos < FFT_N ->
    let r := append_rolling y (buf, pos, filled) in
    Z.of_nat (length (fst (fst r))) = FFT_N
    /\ snd (fst r) = (pos + S) mod FFT_N
    /\ snd r = (filled || (FFT_N <=? pos + S))
    /\ forall m, 0 <= m < FFT_N ->
                 aget (of_int 0) (fst (fst r)) m
                 = if (m - pos) mod FFT_N <? S
                   then aget (of_int 0) y ((m - pos) mod FFT_N)
                   else aget (of_int 0) buf m.
Proof.
  intros y buf pos filled Hlen Hpos r; subst r; unfold append_rolling.
  change S with 20 in *; change FFT_N with 320 in *.
  apply for_range_ind_idx
    with (P := fun k (s : list F * Z * bool) =>
                 Z.of_nat (length (fst (fst s))) = 320
                 /\ snd (fst s) = (pos + k) mod 320
                 /\ snd s = (filled || (320 <=? pos + k))
                 /\ forall m, 0 <= m < 320 ->
                              aget (of_int 0) (fst (fst s)) m
                              = if (m - pos) mod 320 <? k
                                then aget (of_int 0) y ((m - pos) mod 320)
                                else aget (of_int 0) buf m).
  - lia.
  - cbn [fst snd]; split; [exact Hlen|]; split; [|split].
    + rewrite Z.add_0_r, Z.mod_small; lia.
    + destruct (320 <=? pos + 0) eqn:H; [lia|]; now rewrite orb_false_r.
    + intros m Hm.
      pose proof (Z.mod_pos_bound (m - pos) 320 ltac:(lia)).
      destruct ((m - pos) mod 320 <? 0) eqn:H0; [lia|reflexivity].
  - intros k [[b p] f] Hk (Hl & Hp & Hf & Hget); cbn [fst snd] in *.
    assert (Hprange : 0 <= p < 320) by (subst p; apply Z.mod_pos_bound; lia).
    split; [now rewrite aset_length|]; split; [|split].
    + rewrite Z.rem_mod_nonneg by lia; subst p.
      rewrite Zplus_mod_idemp_l; f_equal; lia.
    + rewrite Z.rem_mod_nonneg by lia; subst p f.
      rewrite Zplus_mod_idemp_l.
      replace (pos + k + 1) with (pos + (k + 1)) by lia.
      destruct (Z_lt_ge_dec (pos + (k + 1)) 320) as [Hlt|Hge].
      * rewrite Z.mod_small by lia.
        destruct (320 <=? pos + k) eqn:H1; [lia|].
        destruct (320 <=? pos + (k + 1)) eqn:H2; [lia|].
        destruct (pos + (k + 1) =? 0) eqn:H3; [lia|].
        rewrite !orb_false_r, andb_false_r; reflexivity.
      * destruct (320 <=? pos + (k + 1)) eqn:H2; [|lia].
        rewrite !orb_true_r.
        destruct (filled || (320 <=? pos + k)) eqn:H1; [now destruct (_ && _)|].
        apply orb_false_iff in H1; destruct H1 as [_ H1].
        assert (Heq : pos + (k + 1) = 320) by lia.
        rewrite Heq, Z.mod_same by lia; reflexivity.
    + intros m Hm.
      assert (Hk' : (pos + k) mod 320 = if pos + k <? 320 then pos + k else pos + k - 320).
      { destruct (pos + k <? 320) eqn:H; [apply Z.mod_small; lia|].
        replace (pos + k) with (pos + k - 320 + 1 * 320) at 1 by lia.
        rewrite Z.mod_add by lia; apply Z.mod_small; lia. }
      assert (Hm' : (m - pos) mod 320 = if 0 <=? m - pos then m - pos else m - pos + 320).
      { destruct (0 <=? m - pos) eqn:H; [apply Z.mod_small; lia|].
        replace (m - pos) with (m - pos + 320 + (-1) * 320) at 1 by lia.
        rewrite Z.mod_add by lia; apply Z.mod_small; lia. }
      destruct (Z.eq_dec m p) as [->|Hne].
      * rewrite aget_aset_same by lia.
        rewrite Hm'; subst p; rewrite Hk'.
        destruct (pos + k <? 320) eqn:H1;
          match goal with |- context [0 <=? ?e] => destruct (0 <=? e) eqn:H2 end;
          try lia;
          match goal with |- context [?e <? k + 1] => destruct (e <? k + 1) eqn:H3 end;
          try lia; f_equal; lia.
      * rewrite aget_aset_other by lia.
        rewrite Hget by lia.
        rewrite Hm'; subst p; rewrite Hk' in Hne.
        destruct (pos + k <? 320) eqn:H1;
          destruct (0 <=? m - pos) eqn:H2;
          match goal with |- context [?e <? k] => destruct (e <? k) eqn:H3 end;
          match goal with |- context [?e <? k + 1] => destruct (e <? k + 1) eqn:H4 end;
          try reflexivity; lia.
Qed.

(** Appending the vector of a cycle slides the window by one cycle. *)
Lemma snapshot_slides : forall (y buf : list F) pos filled,
    Z.of_nat (length buf) = FFT_N -> 0 <= pos < FFT_N ->
    let r := append_rolling y (buf, pos, filled) in
    snapshot (fst (fst r)) (snd (fst r))
    = skipn (Z.to_nat S) (snapshot buf pos)
      ++ map (aget (of_int 0) y) (zrange 0 (Z.to_nat S)).
Proof.
  intros y buf pos filled Hlen Hpos r.
  destruct (append_rolling_result y buf pos filled Hlen Hpos) as (Hl & Hp & _ & Hget).
  fold r in Hl, Hp, Hget.
  destruct r as [[buf' pos'] filled']; cbn [fst snd] in *.
  change S with 20 in *; change FFT_N with 320 in *.
  unfold snapshot; change FFT_N with 320.
  change (Z.to_nat 320) with 320%nat; change (Z.to_nat 20) with 20%nat.
  apply nth_ext with (d := of_int 0) (d' := of_int 0).
  - rewrite length_app, length_skipn, !length_map, !zrange_length; reflexivity.
  - rewrite length_map, zrange_length; intros n Hn.
    rewrite nth_map_zrange by exact Hn.
    assert (Hrange : 0 <= (pos' + (0 + Z.of_nat n)) mod 320 < 320)
      by (apply Z.mod_pos_bound; lia).
    assert (Hp' : 0 <= pos' < 320) by (subst pos'; apply Z.mod_pos_bound; lia).
    rewrite Z.rem_mod_nonneg by lia.
    rewrite Hget by exact Hrange.
    assert (Hdiff : ((pos' + (0 + Z.of_nat n)) mod 320 - pos) mod 320
                    = (20 + Z.of_nat n) mod 320).
    { rewrite Zminus_mod_idemp_l; subst pos'.
      replace ((pos + 20) mod 320 + (0 + Z.of_nat n) - pos)
        with ((pos + 20) mod 320 + (Z.of_nat n - pos)) by lia.
      rewrite Zplus_mod_idemp_l; f_equal; lia. }
    rewrite Hdiff.
    destruct (Nat.lt_ge_cases n 300) as [Hlow|Hhigh].
    + rewrite Z.mod_small by lia.
      destruct (20 + Z.of_nat n <? 20) eqn:H; [lia|].
      rewrite app_nth1 by (rewrite length_skipn, length_map, zrange_length; lia).
      rewrite nth_skipn, nth_map_zrange by lia.
      rewrite Z.rem_mod_nonneg by lia.
      f_equal; subst pos'; rewrite Zplus_mod_idemp_l; f_equal; lia.
    + assert (Hm : (20 + Z.of_nat n) mod 320 = Z.of_nat n - 300).
      { replace (20 + Z.of_nat n) with (Z.of_nat n - 300 + 1 * 320) by lia.
        rewrite Z.mod_add by lia; apply Z.mod_small; lia. }
      rewrite Hm.
      destruct (Z.of_nat n - 300 <? 20) eqn:H; [|lia].
      rewrite app_nth2 by (rewrite length_skipn, length_map, zrange_length; lia).
      rewrite length_skipn, length_map, zrange_length.
      rewrite nth_map_zrange by lia.
      f_equal; lia.
Qed.

(** The feature vector printed by a pass and the window after the pass. *)
Lemma main_cycle_effect : forall (st : State) (c : CycleIn (F := F)),
    buffers_ok st -> cycle_ok c ->
    exists st',
      main_cycle st c
      = Continue st'
          (FEATURE_CYCLE (u32 (cycle_id st + 1)) (cycle_feature c)
           :: (if fft_due (u32 (cycle_id st + 1)) (fft_filled st')
               then [dft_print (u32 (cycle_id st + 1)) (window st') FFT_N Fs]
               else []))
      /\ buffers_ok st'
      /\ cycle_id st' = u32 (cycle_id st + 1)
      /\ fft_pos st' = (fft_pos st + S) mod FFT_N
      /\ fft_filled st' = (fft_filled st || (FFT_N <=? fft_pos st + S))
      /\ window st' = skipn (Z.to_nat S) (window st) ++ cycle_feature c.
Proof.
  intros st c (Hlow & Hhigh & Hy & Hbuf & Hpos) Hok.
  unfold main_cycle, sample_steps.
  destruct (step_loop_result (low_drv c) (low st) (t_start c) Hlow)
    as (low' & next & -> & Hlow' & Hgl); [intros i Hi; apply Hok; exact Hi|].
  destruct (step_loop_result (high_drv c) (high st) next Hhigh)
    as (high' & next' & -> & Hhigh' & Hgh); [intros i Hi; apply Hok; exact Hi|].
  destruct (hysteresis_result low' high' (y_cycle st) Hy) as [Hy' Hgy].
  set (y := hysteresis low' high' (y_cycle st)) in *.
  assert (Hfeat : map (aget (of_int 0) y) (zrange 0 (Z.to_nat S)) = cycle_feature c).
  { unfold cycle_feature; apply map_ext_in; intros i Hi.
    apply zrange_In in Hi.
    assert (Hi' : 0 <= i < S) by (change S with 20 in *; simpl in Hi; lia).
    rewrite Hgy, Hgh, Hgl by exact Hi'; reflexivity. }
  pose proof (append_rolling_result y (fft_buf st) (fft_pos st) (fft_filled st) Hbuf Hpos)
    as Happ.
  pose proof (snapshot_slides y (fft_buf st) (fft_pos st) (fft_filled st) Hbuf Hpos)
    as Hslide.
  cbv zeta in Happ, Hslide.
  destruct (append_rolling y (fft_buf st, fft_pos st, fft_filled st))
    as [[buf pos] filled]; cbn [fst snd] in *.
  destruct Happ as (Hl & Hp & Hf & _).
  exists (mk_state low' high' y buf pos filled (u32 (cycle_id st + 1))).
  split; [rewrite Hfeat; reflexivity|].
  unfold buffers_ok, window; cbn [low high y_cycle fft_buf fft_pos fft_filled cycle_id].
  rewrite Hslide, Hfeat.
  repeat split; try assumption; try lia.
  - subst pos; apply Z.mod_pos_bound; vm_compute; reflexivity.
  - subst pos; apply Z.mod_pos_bound; vm_compute; reflexivity.
Qed.
End AnyDouble.
End HystCycle.

(** An invariant of a loop that may depend on the inputs consumed and on
    the lines printed so far. *)
Lemma run_loop_history : forall (St I L : Type) (body : St -> I -> Outcome St L)
                                (Q : I -> Prop) (P : list I -> St -> list L -> Prop),
    (forall hist st out i,
        P hist st out -> Q i ->
        exists st' o, body st i = Continue st' o /\ P (hist ++ [i]) st' (out ++ o)) ->
    forall ins st0,
      P [] st0 [] -> Forall Q ins ->
      exists out st', run_loop body ins st0 = (out, inr st') /\ P ins st' out.
Proof.
  intros St I L body Q P Hstep ins st0 H0.
  induction ins as [|i ins IH] using rev_ind; intros HQ.
  - exists [], st0; split; [reflexivity|exact H0].
  - apply Forall_app in HQ; destruct HQ as [HQ Hi].
    destruct (IH HQ) as (out & st & Hrun & HP).
    destruct (Hstep ins st out i HP) as (st' & o & Hb & HP').
    { now inversion Hi. }
    exists (out ++ o), st'; split; [|exact HP'].
    rewrite run_loop_app, Hrun; simpl; rewrite Hb; simpl.
    now rewrite app_nil_r.
Qed.

Module HystRun.
Import HystFFT HystFFTSpec.
Section AnyDouble.
Context {F : Type} {DO : DoubleOps F} {MO : MathOps F}.

Lemma buffers_ok_init : buffers_ok (init (F := F)).
Proof.
  unfold buffers_ok, init; cbn [low high y_cycle fft_buf fft_pos].
  rewrite !repeat_length; vm_compute; repeat split; congruence.
Qed.

Lemma cycle_feature_length : forall c : CycleIn (F := F),
    length (cycle_feature c) = 20%nat.
Proof. intros; unfold cycle_feature; now rewrite length_map, zrange_length. Qed.

Lemma features_length : forall hist : list (CycleIn (F := F)),
    length (flat_map cycle_feature hist) = (20 * length hist)%nat.
Proof.
  induction hist as [|c hist IH]; [reflexivity|].
  cbn [flat_map length]; rewrite length_app, cycle_feature_length, IH; lia.
Qed.

Lemma skipn_features : forall (hist : list (CycleIn (F := F))) k,
    skipn (20 * k) (flat_map cycle_feature hist) = flat_map cycle_feature (skipn k hist).
Proof.
  induction hist as [|c hist IH]; intros k.
  - now rewrite !skipn_nil.
  - destruct k as [|k]; [reflexivity|].
    cbn [flat_map]; rewrite skipn_app, cycle_feature_length.
    rewrite skipn_all2 by (rewrite cycle_feature_length; lia).
    replace (20 * Datatypes.S k - 20)%nat with (20 * k)%nat by lia.
    simpl; apply IH.
Qed.

Lemma hyst_feature_ids_app : forall a b : list (Line (F := F)),
    feature_ids (a ++ b) = feature_ids a ++ feature_ids b.
Proof. intros; unfold feature_ids; apply flat_map_app. Qed.

Lemma spectrum_ids_app : forall a b : list (Line (F := F)),
    spectrum_ids (a ++ b) = spectrum_ids a ++ spectrum_ids b.
Proof. intros; unfold spectrum_ids; apply flat_map_app. Qed.

Lemma filter_zrange_snoc : forall (p : Z -> bool) lo n,
    filter p (zrange lo (Datatypes.S n))
    = filter p (zrange lo n) ++ (if p (lo + Z.of_nat n) then [lo + Z.of_nat n] else []).
Proof. intros p lo n; rewrite zrange_S, filter_app; reflexivity. Qed.

(** The spectrum is due exactly at the cycles 20, 30, 40, ... *)
Lemma fft_due_from_start : forall n,
    0 <= n ->
    fft_due (n + 1) (16 <=? n + 1) = (20 <=? n + 1) && ((n + 1) mod FFT_STRIDE =? 0).
Proof.
  intros n Hn; unfold fft_due, WARMUP_CYCLES, FFT_STRIDE.
  pose proof (Z.div_mod (n + 1) 10 ltac:(lia)) as Hdm.
  destruct (n + 1 >? 2) eqn:H1; destruct (16 <=? n + 1) eqn:H2;
    destruct (20 <=? n + 1) eqn:H3; destruct ((n + 1) mod 10 =? 0) eqn:H4;
    simpl; try reflexivity; lia.
Qed.

Lemma after_init : after [] (init (F := F)) [].
Proof.
  unfold after; cbv zeta; split; [apply buffers_ok_init|].
  repeat split.
Qed.

Lemma after_step : forall hist (st : State (F := F)) out i,
    after hist st out -> cycle_ok i ->
    exists st' o, main_cycle st i = Continue st' o /\ after (hist ++ [i]) st' (out ++ o).
Proof.
  intros hist st out i (Hbuf & Hpos & Hfill & Hwin & Hids) Hok.
  destruct (HystCycle.main_cycle_effect st i Hbuf Hok)
    as (st' & Hrun & Hbuf' & Hid' & Hpos' & Hfill' & Hwin').
  eexists; eexists; split; [exact Hrun|].
  unfold after; cbv zeta; rewrite length_app; cbn [length].
  replace (Z.of_nat (length hist + 1)) with (Z.of_nat (length hist) + 1) by lia.
  set (n := Z.of_nat (length hist)) in *.
  assert (Hn : 0 <= n) by (subst n; lia).
  change S with 20 in *; change FFT_N with 320 in *; change FFT_CYCLES with 16 in *.
  assert (Hfilled : fft_filled st' = (16 <=? n + 1)).
  { rewrite Hfill', Hfill, Hpos.
    destruct (Z_lt_ge_dec n 16) as [Hlt|Hge].
    - rewrite Z.mod_small by lia.
      destruct (16 <=? n) eqn:H1; [lia|].
      destruct (320 <=? 20 * n + 20) eqn:H2; destruct (16 <=? n + 1) eqn:H3;
        simpl; try reflexivity; lia.
    - destruct (16 <=? n) eqn:H1; [|lia].
      destruct (16 <=? n + 1) eqn:H3; [reflexivity|lia]. }
  split; [exact Hbuf'|]; split; [|split; [exact Hfilled|split]].
  - rewrite Hpos', Hpos, Zplus_mod_idemp_l; f_equal; lia.
  - rewrite Hwin', Hwin, skipn_skipn, flat_map_app; cbn [flat_map].
    rewrite app_nil_r, app_assoc.
    change (Z.to_nat 20) with 20%nat.
    rewrite (skipn_app (20 * (length hist + 1))).
    rewrite length_app, repeat_length, features_length.
    replace (20 * (length hist + 1) - (Z.to_nat 320 + 20 * length hist))%nat
      with 0%nat by (change (Z.to_nat 320) with 320%nat; lia).
    simpl skipn at 2; f_equal; f_equal; lia.
  - intros Hsmall.
    destruct (Hids ltac:(lia)) as (Hid & Hfeat & Hspec).
    assert (Hu32 : u32 (cycle_id st + 1) = n + 1)
      by (rewrite Hid; unfold u32; apply Z.mod_small; lia).
    rewrite Hu32 in *.
    split; [exact Hid'|].
    replace (length hist + 1)%nat with (Datatypes.S (length hist)) by lia.
    rewrite hyst_feature_ids_app, spectrum_ids_app, Hfeat, Hspec, filter_zrange_snoc, zrange_S.
    fold n; replace (1 + n) with (n + 1) by lia.
    rewrite Hfilled, fft_due_from_start by exact Hn.
    destruct ((20 <=? n + 1) && ((n + 1) mod FFT_STRIDE =? 0)); split; reflexivity.
Qed.
End AnyDouble.
End HystRun.

Lemma skipn_repeat : forall (A : Type) (a : A) k m,
    skipn k (repeat a m) = repeat a (m - k).
Proof.
  intros A a; induction k as [|k IH]; intros [|m]; simpl; auto.
Qed.

(** X18.  A pass of the rolling hysteresis program in which all samples are
    accepted prints, as its hysteresis record, the resistance of the high
    step minus that of the low step, subsample by subsample, of the samples
    taken in this very pass; the window from which a spectrum is computed
    then is the window before with its oldest [S] values dropped and this
    vector appended, and the arrays keep their sizes. *)
Theorem hysteresis_record_holds_the_samples_of_its_cycle :
  forall (F : Type) (DO : DoubleOps F) (MO : MathOps F)
         (st : HystFFT.State) (c : HystFFT.CycleIn (F := F)),
    HystFFTSpec.buffers_ok st -> HystFFTSpec.cycle_ok c ->
    exists st',
      HystFFT.main_cycle st c
      = Continue st'
          (HystFFT.FEATURE_CYCLE (u32 (HystFFT.cycle_id st + 1))
                                 (HystFFTSpec.cycle_feature c)
           :: (if HystFFT.fft_due (u32 (HystFFT.cycle_id st + 1)) (HystFFT.fft_filled st')
               then [HystFFT.FFT (u32 (HystFFT.cycle_id st + 1)) HystFFT.Fs
                                 (Spectral.dft_print_mags (HystFFTSpec.window st')
                                                          HystFFT.FFT_N)]
               else []))
      /\ HystFFTSpec.buffers_ok st'
      /\ HystFFTSpec.window st'
         = skipn (Z.to_nat HystFFT.S) (HystFFTSpec.window st)
           ++ HystFFTSpec.cycle_feature c.
Proof.
  intros F DO MO st c Hbuf Hok.
  destruct (HystCycle.main_cycle_effect st c Hbuf Hok)
    as (st' & Hrun & Hbuf' & _ & _ & _ & Hwin).
  exists st'; split; [exact Hrun|split; assumption].
Qed.

Lemma hysteresis_record_holds_the_samples_of_its_cycle_witness :
  exists st' spectrum,
    HystFFT.main_cycle HystFFT.init Inputs.good_cycle
    = Continue st' (HystFFT.FEATURE_CYCLE (u32 (0 + 1))
                                          (HystFFTSpec.cycle_feature Inputs.good_cycle)
                    :: spectrum).
Proof.
  destruct (hysteresis_record_holds_the_samples_of_its_cycle
              R RealOps RealMath HystFFT.init Inputs.good_cycle)
    as (st' & Hrun & _).
  - apply HystRun.buffers_ok_init.
  - intros i Hi; split; reflexivity.
  - exists st'; eexists; exact Hrun.
Defined.

(** X19.  The rolling hysteresis program, started afresh and run over
    passes whose samples are all accepted (fewer than 2^32 of them): the
    passes are numbered 1, 2, ..., a hysteresis record is printed for each one
    of them, the rolling buffer is full from pass [FFT_CYCLES] on, and
    spectrum records are printed at the passes 20, 30, 40, ... only. *)
Theorem first_spectrum_at_cycle_twenty_then_every_ten :
  forall (F : Type) (DO : DoubleOps F) (MO : MathOps F)
         (ins : list (HystFFT.CycleIn (F := F))),
    Forall HystFFTSpec.cycle_ok ins ->
    Z.of_nat (length ins) < 2 ^ 32 ->
    exists out st,
      HystFFT.main_loop ins HystFFT.init = (out, inr st)
      /\ HystFFT.cycle_id st = Z.of_nat (length ins)
      /\ HystFFT.fft_filled st = (HystFFT.FFT_CYCLES <=? Z.of_nat (length ins))
      /\ HystFFT.feature_ids out = zrange 1 (length ins)
      /\ HystFFTSpec.spectrum_ids out
         = filter (fun id => (20 <=? id) && (id mod HystFFT.FFT_STRIDE =? 0))
                  (zrange 1 (length ins)).
Proof.
  intros F DO MO ins Hok Hlen.
  destruct (run_loop_history _ _ _ HystFFT.main_cycle HystFFTSpec.cycle_ok
                             HystFFTSpec.after HystRun.after_step
                             ins HystFFT.init HystRun.after_init Hok)
    as (out & st & Hrun & _ & _ & Hfill & _ & Hids).
  destruct (Hids Hlen) as (Hid & Hfeat & Hspec).
  exists out, st; repeat split; assumption.
Qed.

Lemma first_spectrum_at_cycle_twenty_then_every_ten_witness :
  exists out st,
    HystFFT.main_loop [Inputs.good_cycle; Inputs.late_cycle] HystFFT.init = (out, inr st)
    /\ HystFFT.cycle_id st = 2
    /\ HystFFTSpec.spectrum_ids out = [].
Proof.
  destruct (first_spectrum_at_cycle_twenty_then_every_ten
              R RealOps RealMath [Inputs.good_cycle; Inputs.late_cycle])
    as (out & st & Hrun & Hid & _ & _ & Hspec).
  - repeat constructor; intros i Hi; split; reflexivity.
  - vm_compute; reflexivity.
  - exists out, st; repeat split; assumption.
Defined.

(** X20.  The window of the rolling hysteresis program after a run of
    complete passes: from 16 passes on it is the sequence of the hysteresis
    vectors of the last 16 passes, oldest first; before that, the vectors of
    all the passes made, preceded by the zeros the buffer started with. *)
Theorem rolling_window_spans_the_last_sixteen_cycles :
  forall (F : Type) (DO : DoubleOps F) (MO : MathOps F)
         (ins : list (HystFFT.CycleIn (F := F))),
    Forall HystFFTSpec.cycle_ok ins ->
    exists out st,
      HystFFT.main_loop ins HystFFT.init = (out, inr st)
      /\ ((16 <= length ins)%nat ->
          HystFFTSpec.window st
          = flat_map HystFFTSpec.cycle_feature (skipn (length ins - 16) ins))
      /\ ((length ins < 16)%nat ->
          HystFFTSpec.window st
          = repeat (of_int 0) (320 - 20 * length ins)
            ++ flat_map HystFFTSpec.cycle_feature ins).
Proof.
  intros F DO MO ins Hok.
  destruct (run_loop_history _ _ _ HystFFT.main_cycle HystFFTSpec.cycle_ok
                             HystFFTSpec.after HystRun.after_step
                             ins HystFFT.init HystRun.after_init Hok)
    as (out & st & Hrun & _ & _ & _ & Hwin & _).
  exists out, st; split; [exact Hrun|].
  change (Z.to_nat HystFFT.S) with 20%nat in Hwin.
  change (Z.to_nat HystFFT.FFT_N) with 320%nat in Hwin.
  rewrite skipn_app, repeat_length, skipn_repeat in Hwin.
  split; intros Hn; rewrite Hwin.
  - replace (320 - 20 * length ins)%nat with 0%nat by lia.
    replace (20 * length ins - 320)%nat with (20 * (length ins - 16))%nat by lia.
    simpl repeat; simpl app; apply HystRun.skipn_features.
  - replace (20 * length ins - 320)%nat with 0%nat by lia; reflexivity.
Qed.

Lemma rolling_window_spans_the_last_sixteen_cycles_witness :
  exists out st,
    HystFFT.main_loop [Inputs.good_cycle] HystFFT.init = (out, inr st)
    /\ HystFFTSpec.window st
       = repeat 0%R 300 ++ HystFFTSpec.cycle_feature Inputs.good_cycle.
Proof.
  destruct (rolling_window_spans_the_last_sixteen_cycles
              R RealOps RealMath [Inputs.good_cycle])
    as (out & st & Hrun & _ & Hwin).
  - repeat constructor; intros i Hi; split; reflexivity.
  - exists out, st; split; [exact Hrun|].
    rewrite Hwin by (simpl; lia).
    cbn [flat_map]; rewrite app_nil_r; reflexivity.
Defined.

(* ------------------------------------------------------------------ *)
(** ** forced_2_fft: windows and heater *)

Module Forced2FFTRun.
Import Forced2FFT.
Section AnyDouble.
Context {F : Type} {DO : DoubleOps F} {MO : MathOps F}.

Lemma store_length : forall (x : list F) idx ok d, length (store x idx ok d) = length x.
Proof. intros; unfold store; destruct ok; apply aset_length. Qed.

Lemma window_lines_length : forall t_ms (x1 x2 : list F),
    length (window_lines t_ms x1 x2) = 4%nat.
Proof. reflexivity. Qed.

(** Passing from [n] to [n + 1] samples. *)
Lemma next_sample : forall n,
    0 <= n ->
    (n mod 40 + 1 >=? 40) = ((n + 1) mod 40 =? 0)
    /\ ((n mod 40 + 1 >=? 40) = true -> (n + 1) / 40 = n / 40 + 1)
    /\ ((n mod 40 + 1 >=? 40) = false ->
        (n + 1) / 40 = n / 40 /\ (n + 1) mod 40 = n mod 40 + 1).
Proof.
  intros n Hn.
  pose proof (Z.div_mod n 40 ltac:(lia)) as D1.
  pose proof (Z.div_mod (n + 1) 40 ltac:(lia)) as D2.
  pose proof (Z.mod_pos_bound n 40 ltac:(lia)) as B1.
  pose proof (Z.mod_pos_bound (n + 1) 40 ltac:(lia)) as B2.
  destruct (n mod 40 + 1 >=? 40) eqn:H1; destruct ((n + 1) mod 40 =? 0) eqn:H2;
    repeat split; try discriminate; intros; lia.
Qed.
End AnyDouble.
End Forced2FFTRun.

(** X21.  forced_2_fft after [n] passes from the start, whatever the
    driver answered: the index is [n mod FFT_N] and so lies inside the two
    buffers, which keep their [FFT_N] elements; the window counter is
    [n / FFT_N] (modulo 2^32); and as long as that has not wrapped, the
    number of lines printed is 4 for each completed window beyond the first
    [WARMUP_WINDOWS]. *)
Theorem forced_2_fft_window_bookkeeping :
  forall (F : Type) (DO : DoubleOps F) (MO : MathOps F) (t0 : Z)
         (ins : list (Forced2FFT.TickIn (F := F))),
    let n := Z.of_nat (length ins) in
    exists out st,
      Forced2FFT.main_loop t0 ins (Forced2FFT.init t0) = (out, inr st)
      /\ Forced2FFT.idx st = n mod Forced2FFT.FFT_N
      /\ 0 <= Forced2FFT.idx st < Forced2FFT.FFT_N
      /\ Z.of_nat (length (Forced2FFT.x1 st)) = Forced2FFT.FFT_N
      /\ Z.of_nat (length (Forced2FFT.x2 st)) = Forced2FFT.FFT_N
      /\ Forced2FFT.window_id st = u32 (n / Forced2FFT.FFT_N)
      /\ (n / Forced2FFT.FFT_N < 2 ^ 32 ->
          Z.of_nat (length out)
          = 4 * Z.max 0 (n / Forced2FFT.FFT_N - Forced2FFT.WARMUP_WINDOWS)).
Proof.
  intros F DO MO t0 ins n; subst n.
  change Forced2FFT.FFT_N with 40; change Forced2FFT.WARMUP_WINDOWS with 2.
  destruct (run_loop_history
              _ _ _ (Forced2FFT.main_tick t0) (fun _ => True)
              (fun hist st out =>
                 let n := Z.of_nat (length hist) in
                 Forced2FFT.idx st = n mod 40
                 /\ Z.of_nat (length (Forced2FFT.x1 st)) = 40
                 /\ Z.of_nat (length (Forced2FFT.x2 st)) = 40
                 /\ Forced2FFT.window_id st = u32 (n / 40)
                 /\ (n / 40 < 2 ^ 32 ->
                     Z.of_nat (length out) = 4 * Z.max 0 (n / 40 - 2))))
    with (ins := ins) (st0 := Forced2FFT.init t0)
    as (out & st & Hrun & Hidx & Hx1 & Hx2 & Hw & Hout).
  - intros hist st out i (Hidx & Hx1 & Hx2 & Hw & Hout) _; cbv zeta.
    rewrite length_app; cbn [length].
    replace (Z.of_nat (length hist + 1)) with (Z.of_nat (length hist) + 1) by lia.
    set (n := Z.of_nat (length hist)) in *.
    assert (Hn : 0 <= n) by (subst n; lia).
    destruct (Forced2FFTRun.next_sample n Hn) as (Hcmp & Hfull & Hpart).
    unfold Forced2FFT.main_tick; change Forced2FFT.FFT_N with 40.
    rewrite Hidx.
    destruct (n mod 40 + 1 >=? 40) eqn:Hc.
    + do 2 eexists; split; [reflexivity|].
      cbn [Forced2FFT.idx Forced2FFT.x1 Forced2FFT.x2 Forced2FFT.window_id].
      rewrite !Forced2FFTRun.store_length, (Hfull eq_refl), Hw.
      symmetry in Hcmp; apply Z.eqb_eq in Hcmp.
      split; [now rewrite Hcmp|]; split; [exact Hx1|]; split; [exact Hx2|].
      split; [unfold u32; now rewrite Zplus_mod_idemp_l|].
      intros Hsmall.
      assert (Hq : 0 <= n / 40) by (apply Z.div_pos; lia).
      rewrite length_app, Nat2Z.inj_add, Hout by lia.
      unfold u32; rewrite Zplus_mod_idemp_l, Z.mod_small by lia.
      change Forced2FFT.WARMUP_WINDOWS with 2.
      destruct (n / 40 + 1 >? 2) eqn:Hwarm;
        [rewrite Forced2FFTRun.window_lines_length|]; simpl length; lia.
    + do 2 eexists; split; [reflexivity|].
      cbn [Forced2FFT.idx Forced2FFT.x1 Forced2FFT.x2 Forced2FFT.window_id].
      destruct (Hpart eq_refl) as [Hq Hm].
      rewrite !Forced2FFTRun.store_length, Hq, Hm, app_nil_r.
      repeat split; assumption.
  - cbv zeta; cbn [length Forced2FFT.init Forced2FFT.idx Forced2FFT.x1 Forced2FFT.x2
                     Forced2FFT.window_id].
    rewrite !repeat_length; repeat split.
  - apply Forall_forall; intros; exact I.
  - exists out, st; cbv zeta in *.
    split; [exact Hrun|].
    pose proof (Z.mod_pos_bound (Z.of_nat (length ins)) 40 ltac:(lia)).
    repeat split; try assumption; lia.
Qed.

(** X22.  The heater set-point as a function of the tick.  A pass of
    forced_2_fft that starts less than one sampling interval after its
    scheduled time [t0 + TS_MS * k] runs at the low temperature if
    [k mod 4 < 2] and at the high one otherwise: two samples per half-period.
    In forced_2_gas_ratio, at an elapsed time in the same position, it is the
    low temperature if [k mod 8 < 4]: four samples per half-period. *)
Theorem heater_set_point_by_tick :
  forall (F : Type) (DO : DoubleOps F)
         (t0 k j : Z) (i : Forced2FFT.TickIn (F := F)),
    0 <= t0 -> 0 <= k ->
    (0 <= j < Forced2FFT.TS_MS
     -> t0 + Forced2FFT.TS_MS * k + j < 2 ^ 64
     -> Forced2FFT.now_ms i = t0 + Forced2FFT.TS_MS * k + j
     -> Forced2FFT.heater_temp t0 i
        = if k mod 4 <? 2 then Forced2FFT.T_LOW_C else Forced2FFT.T_HIGH_C)
    /\ (0 <= j < Forced2GasRatio.TS_MS
        -> Forced2GasRatio.heater_at (Forced2GasRatio.TS_MS * k + j)
           = if k mod 8 <? 4 then Forced2GasRatio.T_LOW_C else Forced2GasRatio.T_HIGH_C).
Proof.
  intros F DO t0 k j i Ht0 Hk; split.
  - unfold Forced2FFT.TS_MS, Forced2FFT.heater_temp, Forced2FFT.T_SW_MS,
      Forced2FFT.T_HALF_MS; intros Hj Hfar ->; cbv zeta.
    replace (u64_sub (t0 + 50 * k + j) t0) with (50 * k + j)
      by (unfold u64_sub; rewrite u64_small by lia; lia).
    pose proof (Z.div_mod k 4 ltac:(lia)) as D1.
    pose proof (Z.mod_pos_bound k 4 ltac:(lia)) as B1.
    assert (Hm : (50 * k + j) mod 200 = 50 * (k mod 4) + j).
    { symmetry; apply Z.mod_unique with (q := k / 4); lia. }
    rewrite Hm.
    destruct (50 * (k mod 4) + j <? 100) eqn:H1; destruct (k mod 4 <? 2) eqn:H2;
      try reflexivity; lia.
  - unfold Forced2GasRatio.TS_MS, Forced2GasRatio.heater_at,
      Forced2GasRatio.SQ_PERIOD_MS, Forced2GasRatio.HALF_MS; intros Hj; cbv zeta.
    pose proof (Z.div_mod k 8 ltac:(lia)) as D1.
    pose proof (Z.mod_pos_bound k 8 ltac:(lia)) as B1.
    assert (Hm : (25 * k + j) mod 200 = 25 * (k mod 8) + j).
    { symmetry; apply Z.mod_unique with (q := k / 8); lia. }
    rewrite Hm.
    destruct (25 * (k mod 8) + j <? 100) eqn:H1; destruct (k mod 8 <? 4) eqn:H2;
      try reflexivity; lia.
Qed.

Lemma heater_set_point_by_tick_witness :
  Forced2FFT.heater_temp (F := R) 1000 (Forced2FFT.mk_tick 1317 no_fields no_fields 1320)
  = Forced2FFT.T_HIGH_C.
Proof.
  refine (proj1 (heater_set_point_by_tick
                   R RealOps 1000 6 17
                   (Forced2FFT.mk_tick 1317 no_fields no_fields 1320) _ _) _ _ _).
  - lia.
  - lia.
  - unfold Forced2FFT.TS_MS; lia.
  - unfold Forced2FFT.TS_MS; lia.
  - reflexivity.
Defined.

(* ------------------------------------------------------------------ *)
(** ** The stepped-profile program: cycles and termination *)

Lemma zrange_app : forall lo n m,
    zrange lo (n + m) = zrange lo n ++ zrange (lo + Z.of_nat n) m.
Proof.
  intros lo n; revert lo; induction n as [|n IH]; intros lo m.
  - simpl; f_equal; lia.
  - change (S n + m)%nat with (S (n + m)); rewrite !zrange_cons, IH; simpl.
    do 3 f_equal; lia.
Qed.

Module ProfileRun.
Import Profile ProfileSpec.
Section AnyDouble.
Context {F : Type} {DO : DoubleOps F}.

Lemma raw_index_app : forall a b : list (Line (F := F)),
    raw_index (a ++ b) = raw_index a ++ raw_index b.
Proof. intros; unfold raw_index; apply flat_map_app. Qed.

Lemma counters_cycles : forall st : State (F := F),
    counters_ok st -> cycles_at (sample_count st) = cycle_id st.
Proof.
  intros st (Hs & Hi & Hc & Heq); unfold cycles_at; change profile_len with 8 in *.
  symmetry; apply Z.div_unique with (r := cycle_index st); lia.
Qed.

(** An accepted pass: the raw record, the counter and the feature record. *)
Lemma main_iter_accepted : forall (st : State (F := F)) i,
    counters_ok st -> sample_count st <= SAMPLE_COUNT -> accepted i = true ->
    exists st' out,
      main_iter st i = Continue st' out
      /\ counters_ok st'
      /\ sample_count st' = sample_count st + 1
      /\ raw_index out = [(sample_count st, step_temp_of (sample_count st))]
      /\ feature_ids out
         = filter (fun id => id >? WARMUP_CYCLES)
                  (zrange (cycle_id st + 1)
                          (Z.to_nat (cycles_at (sample_count st + 1) - cycle_id st)))
      /\ cycle_id st' = cycles_at (sample_count st + 1).
Proof.
  intros st i Hinv Hle Hacc.
  pose proof Hinv as (Hs & Hi & Hc & Heq).
  unfold accepted, calls_ok in Hacc.
  rewrite !andb_true_iff in Hacc; destruct Hacc as [[[H1 H2] H3] H4].
  unfold SAMPLE_COUNT in *; change profile_len with 8 in *.
  assert (Hu16 : u16 (sample_count st + 1) = sample_count st + 1)
    by (unfold u16; apply Z.mod_small; lia).
  assert (Hu32 : u32 (cycle_id st + 1) = cycle_id st + 1)
    by (unfold u32; apply Z.mod_small; lia).
  unfold main_iter; rewrite H1, H2, H3, H4; cbn [negb].
  change profile_len with 8; rewrite Hu16, Hu32.
  destruct (cycle_index st + 1 >=? 8) eqn:Hfull.
  - assert (Hq : cycles_at (sample_count st + 1) = cycle_id st + 1).
    { unfold cycles_at; change profile_len with 8.
      symmetry; apply Z.div_unique with (r := 0); lia. }
    do 2 eexists; split; [reflexivity|].
    unfold counters_ok, SAMPLE_COUNT; change profile_len with 8.
    cbn [sample_count cycle_index cycle_id gas_cycle].
    rewrite Hq.
    replace (Z.to_nat (cycle_id st + 1 - cycle_id st)) with 1%nat by lia.
    split; [lia|]; split; [reflexivity|]; split.
    + destruct (cycle_id st + 1 >? WARMUP_CYCLES); reflexivity.
    + split; [|reflexivity].
      cbn [zrange seq map filter]; rewrite Z.add_0_r.
      destruct (cycle_id st + 1 >? WARMUP_CYCLES); reflexivity.
  - assert (Hq : cycles_at (sample_count st + 1) = cycle_id st).
    { unfold cycles_at; change profile_len with 8.
      symmetry; apply Z.div_unique with (r := cycle_index st + 1); lia. }
    do 2 eexists; split; [reflexivity|].
    unfold counters_ok, SAMPLE_COUNT; change profile_len with 8.
    cbn [sample_count cycle_index cycle_id gas_cycle].
    rewrite Hq, Z.sub_diag.
    split; [lia|]; repeat split.
Qed.

Lemma main_iter_skipped : forall (st : State (F := F)) i,
    calls_ok (drv i) = true -> accepted i = false -> main_iter st i = Continue st [].
Proof.
  intros st i Hcalls Hacc; apply ProfileFacts.main_iter_no_fields; [exact Hcalls|].
  unfold accepted in Hacc; rewrite Hcalls in Hacc; simpl in Hacc.
  apply negb_false_iff, Z.eqb_eq in Hacc; exact Hacc.
Qed.

(** The run of the loop over passes whose driver calls all succeed. *)
Lemma main_loop_run : forall ins (st : State (F := F)),
    counters_ok st ->
    (forall i, In i ins -> calls_ok (drv i) = true) ->
    let s := sample_count st in
    let s' := sample_after s (length (filter accepted ins)) in
    raw_index (fst (main_loop ins st))
    = map (fun n => (n, step_temp_of n)) (zrange s (Z.to_nat (s' - s)))
    /\ feature_ids (fst (main_loop ins st))
       = filter (fun id => id >? WARMUP_CYCLES)
                (zrange (cycle_id st + 1) (Z.to_nat (cycles_at s' - cycle_id st)))
    /\ (s' = SAMPLE_COUNT + 1 -> snd (main_loop ins st) = inl BME69X_OK)
    /\ (s' <= SAMPLE_COUNT ->
        exists st', snd (main_loop ins st) = inr st'
                    /\ sample_count st' = s' /\ counters_ok st').
Proof.
  induction ins as [|i ins IH]; intros st Hinv Hcalls; cbv zeta.
  - pose proof Hinv as (Hs & _).
    unfold sample_after, SAMPLE_COUNT in *; cbn [filter length].
    replace (Z.min (sample_count st + Z.of_nat 0) (600 + 1)) with (sample_count st) by lia.
    rewrite counters_cycles by exact Hinv.
    rewrite !Z.sub_diag; cbn [main_loop].
    unfold SAMPLE_COUNT.
    destruct (sample_count st <=? 600) eqn:Hle; cbn [fst snd];
      repeat split; try reflexivity; try lia; try discriminate.
    intros _; exists st; split; [reflexivity|]; split; [reflexivity|exact Hinv].
  - pose proof Hinv as (Hs & _).
    cbn [main_loop]; unfold SAMPLE_COUNT in *.
    destruct (sample_count st <=? 600) eqn:Hle.
    + destruct (accepted i) eqn:Hacc.
      * destruct (main_iter_accepted st i Hinv ltac:(unfold SAMPLE_COUNT; lia) Hacc)
          as (st1 & o1 & Hit & Hinv1 & Hsc & Hraw & Hfeat & Hcid).
        rewrite Hit.
        destruct (IH st1 Hinv1 ltac:(intros j Hj; apply Hcalls; now right))
          as (Rraw & Rfeat & Rend & Rrun).
        cbv zeta in Rraw, Rfeat, Rend, Rrun.
        destruct (main_loop ins st1) as [o res]; cbn [fst snd] in *.
        cbn [filter]; rewrite Hacc; cbn [length].
        assert (Hsame : sample_after (sample_count st1) (length (filter accepted ins))
                        = sample_after (sample_count st)
                                       (Datatypes.S (length (filter accepted ins))))
          by (unfold sample_after; rewrite Hsc; lia).
        rewrite Hsame in *.
        set (s' := sample_after (sample_count st)
                                (Datatypes.S (length (filter accepted ins)))) in *.
        assert (Hs' : sample_count st + 1 <= s' <= 601)
          by (subst s'; unfold sample_after, SAMPLE_COUNT; lia).
        split; [|split; [|split]].
        -- rewrite raw_index_app, Hraw, Rraw, Hsc.
           replace (Z.to_nat (s' - sample_count st))
             with (Datatypes.S (Z.to_nat (s' - (sample_count st + 1)))) by lia.
           rewrite zrange_cons; reflexivity.
        -- rewrite ProfileFacts.feature_ids_app, Hfeat, Rfeat, Hcid, <- filter_app.
           f_equal.
           assert (Hmono : cycle_id st <= cycles_at (sample_count st + 1) <= cycles_at s').
           { rewrite <- (counters_cycles st Hinv); unfold cycles_at.
             change profile_len with 8; split; apply Z.div_le_mono; lia. }
           set (a := cycles_at (sample_count st + 1)) in *.
           set (b := cycles_at s') in *.
           replace (Z.to_nat (b - cycle_id st))
             with (Z.to_nat (a - cycle_id st) + Z.to_nat (b - a))%nat by lia.
           rewrite zrange_app; do 2 f_equal; lia.
        -- exact Rend.
        -- exact Rrun.
      * rewrite (main_iter_skipped st i (Hcalls i (or_introl eq_refl)) Hacc).
        destruct (IH st Hinv ltac:(intros j Hj; apply Hcalls; now right))
          as (Rraw & Rfeat & Rend & Rrun).
        cbv zeta in Rraw, Rfeat, Rend, Rrun.
        destruct (main_loop ins st) as [o res]; cbn [fst snd app] in *.
        cbn [filter]; rewrite Hacc.
        repeat split; assumption.
    + assert (Hend : sample_count st = 601) by lia.
      unfold sample_after, SAMPLE_COUNT; rewrite Hend in *.
      replace (Z.min (601 + Z.of_nat (length (filter accepted (i :: ins)))) (600 + 1))
        with 601 by lia.
      rewrite <- (counters_cycles st Hinv), Hend, !Z.sub_diag.
      cbn [fst snd]; repeat split; try reflexivity; lia.
Qed.

(** An accepted pass, in full. *)
Lemma main_iter_accepted_eq : forall (st : State (F := F)) i,
    1 <= sample_count st <= SAMPLE_COUNT -> 0 <= cycle_id st < 2 ^ 31 ->
    accepted i = true ->
    main_iter st i
    = let raw := RAW (sample_count st) (step_temp_of (sample_count st)) (millis i)
                     (data (drv i)) in
      let gas_cycle' :=
        aset (gas_cycle st) (cycle_index st) (gas_resistance (data (drv i))) in
      if cycle_index st + 1 >=? profile_len
      then Continue (mk_state (sample_count st + 1) gas_cycle' 0 (cycle_id st + 1))
                    (raw :: (if cycle_id st + 1 >? WARMUP_CYCLES
                             then [print_feature_vector (cycle_id st + 1) gas_cycle'
                                                        profile_len]
                             else []))
      else Continue (mk_state (sample_count st + 1) gas_cycle' (cycle_index st + 1)
                              (cycle_id st))
                    [raw].
Proof.
  intros st i Hs Hc Hacc.
  unfold accepted, calls_ok in Hacc.
  rewrite !andb_true_iff in Hacc; destruct Hacc as [[[H1 H2] H3] H4].
  unfold SAMPLE_COUNT in *.
  assert (Hu16 : u16 (sample_count st + 1) = sample_count st + 1)
    by (unfold u16; apply Z.mod_small; lia).
  assert (Hu32 : u32 (cycle_id st + 1) = cycle_id st + 1)
    by (unfold u32; apply Z.mod_small; lia).
  unfold main_iter; rewrite H1, H2, H3, H4; cbn [negb].
  rewrite Hu16, Hu32; reflexivity.
Qed.

Lemma main_loop_cons : forall i ins (st : State (F := F)) st' out,
    sample_count st <= SAMPLE_COUNT ->
    main_iter st i = Continue st' out ->
    fst (main_loop (i :: ins) st) = out ++ fst (main_loop ins st').
Proof.
  intros i ins st st' out Hle Hit; cbn [main_loop].
  apply Z.leb_le in Hle; rewrite Hle, Hit.
  destruct (main_loop ins st'); reflexivity.
Qed.
End AnyDouble.
End ProfileRun.

Module ProfileCycle.
Lemma cycle_feature_vector :
  forall (F : Type) (DO : DoubleOps F) (st : Profile.State)
         (ins : list (Profile.IterIn (F := F))),
    1 <= Profile.sample_count st -> Profile.sample_count st + 7 <= Profile.SAMPLE_COUNT ->
    Profile.cycle_index st = 0 ->
    Profile.WARMUP_CYCLES <= Profile.cycle_id st < 2 ^ 31 ->
    length (Profile.gas_cycle st) = 8%nat ->
    length ins = 8%nat ->
    (forall i, In i ins -> ProfileSpec.accepted i = true) ->
    let gas := map (fun i => gas_resistance (data (Profile.drv i))) ins in
    last (fst (Profile.main_loop ins st)) Profile.HEADER
    = Profile.FEATURE_VEC
        (Profile.cycle_id st + 1)
        (map (fun j => dsub (aget (of_int 0) gas (7 - j)) (aget (of_int 0) gas j))
             (zrange 0 4)).
Proof.
  intros F DO st ins Hs1 Hs7 Hidx Hcid Hlen Hins Hacc gas; subst gas.
  destruct st as [s gc idx cid]; cbn [Profile.sample_count Profile.cycle_index
                                        Profile.cycle_id Profile.gas_cycle] in *.
  subst idx.
  destruct gc as [|a0 [|a1 [|a2 [|a3 [|a4 [|a5 [|a6 [|a7 [|]]]]]]]]]; try discriminate.
  destruct ins as [|i0 [|i1 [|i2 [|i3 [|i4 [|i5 [|i6 [|i7 [|]]]]]]]]]; try discriminate.
  unfold Profile.SAMPLE_COUNT, Profile.WARMUP_CYCLES in *.
  assert (Hwarm : (cid + 1 >? 2) = true) by lia.
  repeat
    (erewrite ProfileRun.main_loop_cons;
     [| cbn [Profile.sample_count]; unfold Profile.SAMPLE_COUNT; lia
      | rewrite ProfileRun.main_iter_accepted_eq;
        [ cbv zeta; cbn [Profile.sample_count Profile.cycle_index Profile.cycle_id
                         Profile.gas_cycle];
          change Profile.profile_len with 8;
          match goal with
          | |- context [?a + 1 >=? 8] =>
              let b := eval vm_compute in (a + 1 >=? 8) in
              change (a + 1 >=? 8) with b; cbv iota
          end;
          reflexivity
        | cbn [Profile.sample_count]; unfold Profile.SAMPLE_COUNT; lia
        | cbn [Profile.cycle_id]; lia
        | apply Hacc; simpl; tauto ] ]).
  unfold Profile.WARMUP_CYCLES; rewrite Hwarm.
  cbn [app].
  match goal with |- last (?x0 :: ?x1 :: ?x2 :: ?x3 :: ?x4 :: ?x5 :: ?x6 :: ?x7 :: ?f :: ?rest) _ = _ =>
    change (last (x0 :: x1 :: x2 :: x3 :: x4 :: x5 :: x6 :: x7 :: f :: rest) Profile.HEADER)
      with (last (f :: rest) Profile.HEADER) end.
  replace (fst (Profile.main_loop [] _)) with (@nil (Profile.Line (F := F)))
    by (cbn [Profile.main_loop]; destruct (_ <=? _); reflexivity).
  reflexivity.
Qed.

(** Where the profile stands at the samples of a cycle. *)
Lemma step_temp_in_cycle : forall q j,
    0 <= q < 75 -> 0 <= j < 8 ->
    Profile.step_temp_of (8 * q + 1 + j) = aget 0 Profile.profile j.
Proof.
  intros q j Hq Hj; unfold Profile.step_temp_of.
  change Profile.profile_len with 8.
  replace (8 * q + 1 + j - 1) with (j + q * 8) by lia.
  unfold u32, u16; rewrite (Z.mod_small (j + q * 8)) by lia.
  rewrite (Z.mod_small 8) by lia.
  now rewrite Z.mod_add, Z.mod_small by lia.
Qed.

Lemma profile_mirrored : forall j,
    0 <= j < 8 -> aget 0 Profile.profile (7 - j) = aget 0 Profile.profile j.
Proof.
  intros j Hj.
  assert (H : j = 0 \/ j = 1 \/ j = 2 \/ j = 3 \/ j = 4 \/ j = 5 \/ j = 6 \/ j = 7) by lia.
  destruct H as [->|[->|[->|[->|[->|[->|[->| ->]]]]]]]; reflexivity.
Qed.
End ProfileCycle.

(** X23.  The stepped-profile program, over the eight accepted passes of a
    cycle past the warm-up: the last line printed is the feature record of
    that cycle, and its entries are, for [j = 0 .. 3], the resistance of the
    sample [7 - j] of the cycle minus that of its sample [j]. *)
Theorem feature_vector_compares_the_two_sweeps_of_its_cycle :
  forall (F : Type) (DO : DoubleOps F) (st : Profile.State)
         (ins : list (Profile.IterIn (F := F))),
    1 <= Profile.sample_count st -> Profile.sample_count st + 7 <= Profile.SAMPLE_COUNT ->
    Profile.cycle_index st = 0 ->
    Profile.WARMUP_CYCLES <= Profile.cycle_id st < 2 ^ 31 ->
    length (Profile.gas_cycle st) = 8%nat ->
    length ins = 8%nat ->
    (forall i, In i ins -> ProfileSpec.accepted i = true) ->
    let gas := map (fun i => gas_resistance (data (Profile.drv i))) ins in
    last (fst (Profile.main_loop ins st)) Profile.HEADER
    = Profile.FEATURE_VEC
        (Profile.cycle_id st + 1)
        (map (fun j => dsub (aget (of_int 0) gas (7 - j)) (aget (of_int 0) gas j))
             (zrange 0 4)).
Proof. exact ProfileCycle.cycle_feature_vector. Qed.

Lemma feature_vector_compares_the_two_sweeps_of_its_cycle_witness :
  last (fst (Profile.main_loop
               (map (fun k => Profile.mk_iter (reading (IZR k)) 0) (zrange 1 8))
               (Profile.mk_state 17 (repeat 0%R 8) 0 2)))
       Profile.HEADER
  = Profile.FEATURE_VEC
      3 (map (fun j =>
                dsub (aget 0%R (map IZR (zrange 1 8)) (7 - j))
                     (aget 0%R (map IZR (zrange 1 8)) j))
             (zrange 0 4)).
Proof.
  apply (feature_vector_compares_the_two_sweeps_of_its_cycle
           R RealOps (Profile.mk_state 17 (repeat 0%R 8) 0 2)
           (map (fun k => Profile.mk_iter (reading (IZR k)) 0) (zrange 1 8))).
  - simpl; lia.
  - vm_compute; discriminate.
  - reflexivity.
  - vm_compute; split; [discriminate|reflexivity].
  - reflexivity.
  - reflexivity.
  - intros i Hi; simpl in Hi.
    repeat (destruct Hi as [<-|Hi]; [reflexivity|]); contradiction.
Defined.

(** X24.  The loop of the stepped-profile program, while no driver call
    fails: passes whose read-back delivers no field do not count; the loop
    ends, with [BME69X_OK], once 600 samples are accepted, having printed the
    raw records 1 .. 600, each with the step temperature of the profile at
    its number, and the feature records of the cycles 3 .. 75; with fewer
    accepted samples it is still running, the raw records printed being those
    accepted so far. *)
Theorem profile_loop_ends_after_600_accepted_samples :
  forall (F : Type) (DO : DoubleOps F) (ins : list (Profile.IterIn (F := F))),
    (forall i, In i ins -> Profile.calls_ok (Profile.drv i) = true) ->
    let k := length (filter ProfileSpec.accepted ins) in
    let run := Profile.main_loop ins Profile.init in
    ((600 <= k)%nat ->
     snd run = inl BME69X_OK
     /\ ProfileSpec.raw_index (fst run)
        = map (fun n => (n, Profile.step_temp_of n)) (zrange 1 600)
     /\ Profile.feature_ids (fst run) = zrange 3 73)
    /\ ((k < 600)%nat ->
        (exists st, snd run = inr st /\ Profile.sample_count st = 1 + Z.of_nat k)
        /\ ProfileSpec.raw_index (fst run)
           = map (fun n => (n, Profile.step_temp_of n)) (zrange 1 k)).
Proof.
  intros F DO ins Hcalls k run; subst run.
  destruct (ProfileRun.main_loop_run ins Profile.init ProfileFacts.counters_ok_init Hcalls)
    as (Hraw & Hfeat & Hend & Hrun).
  cbv zeta in Hraw, Hfeat, Hend, Hrun; fold k in Hraw, Hfeat, Hend, Hrun.
  change (Profile.sample_count Profile.init) with 1 in *.
  change (Profile.cycle_id Profile.init) with 0 in *.
  unfold ProfileSpec.sample_after, Profile.SAMPLE_COUNT in *.
  split; intros Hk.
  - replace (Z.min (1 + Z.of_nat k) (600 + 1)) with 601 in * by lia.
    split; [apply Hend; reflexivity|]; split; [exact Hraw|].
    rewrite Hfeat; vm_compute; reflexivity.
  - replace (Z.min (1 + Z.of_nat k) (600 + 1)) with (1 + Z.of_nat k) in * by lia.
    split.
    + destruct (Hrun ltac:(lia)) as (st & Hst & Hsc & _); exists st; auto.
    + rewrite Hraw; do 2 f_equal; lia.
Qed.

Lemma profile_loop_ends_after_600_accepted_samples_witness :
  exists st,
    snd (Profile.main_loop (Inputs.profile_run 24) Profile.init) = inr st
    /\ Profile.sample_count st = 1 + Z.of_nat 24.
Proof.
  destruct (profile_loop_ends_after_600_accepted_samples
              R RealOps (Inputs.profile_run 24)) as [_ Hrun].
  - intros i Hi; apply repeat_spec in Hi; subst i; reflexivity.
  - destruct Hrun as [Hst _]; [vm_compute; lia|exact Hst].
Defined.

(** X25.  Over the reals: if during a cycle of the stepped-profile program
    the resistance measured depends on the step temperature only, the feature
    record of the cycle is the zero vector (the profile being a palindrome,
    each entry compares two samples taken at the same temperature). *)
Theorem memoryless_response_gives_the_zero_feature_vector :
  forall (st : Profile.State (F := R)) (ins : list (Profile.IterIn (F := R)))
         (f : Z -> R),
    Profile.counters_ok st -> Profile.cycle_index st = 0 ->
    Profile.WARMUP_CYCLES <= Profile.cycle_id st ->
    Profile.sample_count st + 7 <= Profile.SAMPLE_COUNT ->
    length (Profile.gas_cycle st) = 8%nat ->
    length ins = 8%nat ->
    (forall i, In i ins -> ProfileSpec.accepted i = true) ->
    (forall j, 0 <= j < 8 ->
               aget 0%R (map (fun i => gas_resistance (data (Profile.drv i))) ins) j
               = f (Profile.step_temp_of (Profile.sample_count st + j))) ->
    last (fst (Profile.main_loop ins st)) Profile.HEADER
    = Profile.FEATURE_VEC (Profile.cycle_id st + 1) [0%R; 0%R; 0%R; 0%R].
Proof.
  intros st ins f Hinv Hidx Hwarm Hs7 Hlen Hins Hacc Hgas.
  pose proof Hinv as (Hs & Hi & Hc & Heq).
  unfold Profile.SAMPLE_COUNT, Profile.WARMUP_CYCLES in *.
  change Profile.profile_len with 8 in *.
  rewrite ProfileCycle.cycle_feature_vector; try assumption;
    try (unfold Profile.SAMPLE_COUNT, Profile.WARMUP_CYCLES; lia).
  f_equal.
  assert (Hsym : forall j, 0 <= j < 4 ->
                           dsub (aget 0%R (map (fun i => gas_resistance (data (Profile.drv i)))
                                               ins) (7 - j))
                                (aget 0%R (map (fun i => gas_resistance (data (Profile.drv i)))
                                               ins) j)
                           = 0%R).
  { intros j Hj.
    rewrite !Hgas by lia.
    replace (Profile.sample_count st + (7 - j))
      with (8 * Profile.cycle_id st + 1 + (7 - j)) by lia.
    replace (Profile.sample_count st + j)
      with (8 * Profile.cycle_id st + 1 + j) by lia.
    rewrite !ProfileCycle.step_temp_in_cycle by lia.
    rewrite ProfileCycle.profile_mirrored by lia.
    simpl; lra. }
  cbn [zrange seq map].
  change (of_int (F := R) 0) with 0%R.
  rewrite !Hsym by lia; reflexivity.
Qed.

Lemma memoryless_response_gives_the_zero_feature_vector_witness :
  last (fst (Profile.main_loop
               (map (fun n => Profile.mk_iter (reading (IZR (Profile.step_temp_of n))) 0)
                    (zrange 17 8))
               (Profile.mk_state 17 (repeat 0%R 8) 0 2)))
       Profile.HEADER
  = Profile.FEATURE_VEC 3 [0%R; 0%R; 0%R; 0%R].
Proof.
  apply (memoryless_response_gives_the_zero_feature_vector
           (Profile.mk_state 17 (repeat 0%R 8) 0 2)
           (map (fun n => Profile.mk_iter (reading (IZR (Profile.step_temp_of n))) 0)
                (zrange 17 8))
           IZR).
  - vm_compute; repeat split; discriminate.
  - reflexivity.
  - vm_compute; discriminate.
  - vm_compute; discriminate.
  - reflexivity.
  - reflexivity.
  - intros i Hi; simpl in Hi.
    repeat (destruct Hi as [<-|Hi]; [reflexivity|]); contradiction.
  - intros j Hj.
    assert (H : j = 0 \/ j = 1 \/ j = 2 \/ j = 3 \/ j = 4 \/ j = 5 \/ j = 6 \/ j = 7) by lia.
    destruct H as [->|[->|[->|[->|[->|[->|[->| ->]]]]]]]; reflexivity.
Defined.

(* ------------------------------------------------------------------ *)
(** ** Sweep timing, ratio accumulators, samplers *)

Module SweepTiming.
Import ForcedSweep2.
Section AnyDouble.
Context {F : Type} {DO : DoubleOps F}.

(** The loop of a segment is only left through its condition. *)
Lemma segment_loop_exit : forall fuel (E : Env (F := F)) t0 half_ms seg_start st out st',
    segment_loop fuel E t0 half_ms seg_start st = (out, Some st') ->
    run_ms half_ms <= u64_sub (u64 (clock st')) seg_start.
Proof.
  induction fuel as [|fuel IH]; intros E t0 half_ms seg_start st out st'; simpl.
  - destruct (_ <? _) eqn:Hg; [discriminate|].
    intros [= _ <-]; lia.
  - destruct (_ <? _) eqn:Hg.
    + intros [= _ Hrest].
      eapply IH; rewrite <- Hrest; apply surjective_pairing.
    + intros [= _ <-]; lia.
Qed.
End AnyDouble.
End SweepTiming.





(** X28.  forced_2_gas_ratio, from its start, while sensor 1 is not
    accepted: the loop goes on, the counts stay at 0 and no ratio is printed,
    for sensor 2 neither, whatever sensor 2 delivers. *)
Theorem no_ratio_is_printed_while_sensor_1_fails :
  forall (F : Type) (DO : DoubleOps F) (t0 : Z)
         (ins : list (Forced2GasRatio.TickIn (F := F))),
    Forall (fun i => fst (Forced2GasRatio.sample_once (Forced2GasRatio.drv1 i) (of_int 0))
                     <> 0) ins ->
    exists st,
      Forced2GasRatio.main_loop t0 ins (Forced2GasRatio.init t0) = ([], inr st)
      /\ Forced2GasRatio.lowc st = 0 /\ Forced2GasRatio.highc st = 0.
Proof.
  intros F DO t0 ins Hdead.
  destruct (run_loop_history
              _ _ _ (Forced2GasRatio.main_tick t0)
              (fun i => fst (Forced2GasRatio.sample_once (Forced2GasRatio.drv1 i) (of_int 0))
                        <> 0)
              (fun _ st out =>
                 Forced2GasRatio.lowc st = 0 /\ Forced2GasRatio.highc st = 0 /\ out = []))
    with (ins := ins) (st0 := Forced2GasRatio.init t0)
    as (out & st & Hrun & Hl & Hh & ->); [| |exact Hdead|].
  - intros hist st out i (Hl & Hh & ->) Hi.
    apply Z.eqb_neq in Hi.
    unfold Forced2GasRatio.main_tick; cbv zeta; rewrite Hi.
    unfold Forced2GasRatio.accumulate.
    destruct (Forced2GasRatio.heater_at _ =? Forced2GasRatio.T_LOW_C);
      cbn [Forced2GasRatio.lowc Forced2GasRatio.highc];
      rewrite Hl, Hh; cbn [Z.eqb negb andb];
      destruct (negb (_ =? Forced2GasRatio.last_cycle st));
      do 2 eexists; (split; [reflexivity|]); cbn [Forced2GasRatio.lowc Forced2GasRatio.highc];
      repeat split.
  - repeat split.
  - exists st; auto.
Qed.

Lemma no_ratio_is_printed_while_sensor_1_fails_witness :
  exists st,
    Forced2GasRatio.main_loop
      (F := R) 0
      (map (fun k => Forced2GasRatio.mk_tick (25 * k) no_fields (reading 7%R)) (zrange 0 20))
      (Forced2GasRatio.init 0)
    = ([], inr st)
    /\ Forced2GasRatio.lowc st = 0 /\ Forced2GasRatio.highc st = 0.
Proof.
  apply (no_ratio_is_printed_while_sensor_1_fails R RealOps 0).
  apply Forall_forall; intros i Hi.
  apply in_map_iff in Hi; destruct Hi as (k & <- & _).
  vm_compute; discriminate.
Defined.

(** X29.  The samplers of the programs accept the same measurements: those
    for which the three driver calls return [BME69X_OK] and the read-back
    delivers at least one field ([sample_once] of forced_2_gas.c makes two of
    the calls only).  An accepted measurement delivers the resistance of the
    data read; a rejected one leaves the value of the caller as it was, with
    a code other than [BME69X_OK] (in forced_2_gas_ratio.c, -1). *)
Theorem samplers_accept_the_same_measurements :
  forall (F : Type) (DO : DoubleOps F) (d : Driver F) (g : F),
    0 <= n_fields d ->
    let ok := Profile.calls_ok d && negb (n_fields d =? 0) in
    HystFFT.sample_gas_once d g
    = (if ok then (BME69X_OK, gas_resistance (data d))
       else (fst (HystFFT.sample_gas_once d g), g))
    /\ ForcedSweep2.sample_once d g
       = (if ok then (BME69X_OK, gas_resistance (data d))
          else (fst (ForcedSweep2.sample_once d g), g))
    /\ Forced2GasRatio.sample_once d g
       = (if ok then (0, gas_resistance (data d)) else (-1, g))
    /\ (fst (HystFFT.sample_gas_once d g) =? BME69X_OK) = ok
    /\ (fst (ForcedSweep2.sample_once d g) =? BME69X_OK) = ok
    /\ (Forced2FFT.sample_once d =? BME69X_OK) = ok
    /\ (set_heatr_conf_rslt d = BME69X_OK ->
        (Forced2Gas.sample_once d =? BME69X_OK) = ok).
Proof.
  intros F DO d g Hn ok; subst ok.
  unfold Profile.calls_ok, HystFFT.sample_gas_once, ForcedSweep2.sample_once,
    Forced2GasRatio.sample_once, Forced2FFT.sample_once, Forced2Gas.sample_once.
  destruct (set_heatr_conf_rslt d =? BME69X_OK) eqn:H1;
    destruct (set_op_mode_rslt d =? BME69X_OK) eqn:H2;
    destruct (get_data_rslt d =? BME69X_OK) eqn:H3;
    destruct (n_fields d =? 0) eqn:H4;
    destruct (n_fields d >? 0) eqn:H5; try lia;
    cbn [negb andb orb fst snd]; rewrite ?H1, ?H2, ?H3;
    repeat split; try reflexivity;
    try (intros E; rewrite E in H1; discriminate).
Qed.

Lemma samplers_accept_the_same_measurements_witness :
  HystFFT.sample_gas_once (F := R) no_fields 5%R
  = (fst (HystFFT.sample_gas_once (F := R) no_fields 5%R), 5%R).
Proof.
  refine (proj1 (samplers_accept_the_same_measurements R RealOps no_fields 5%R _)).
  simpl; lia.
Defined.
